(** * holo: episode discovery, de-duplication and announcement

    A shallow embedding of [src/module_find_episodes.py] and the properties
    its specification states about it.

    The module is a driver around four collaborators that live elsewhere
    (the persistence layer [db], the [services] registry and its handlers,
    the [reddit] client and the configuration).  Every call to one of them
    is an event of a small free monad [Prog]; [run] interprets a program
    against an arbitrary implementation of the collaborators, threading the
    state of the store and of the outside world and recording the calls
    that were made.  Python exceptions are values of [exn]: the module has
    no [try] block, so a raised exception ends the program that is running.

    Logging calls ([debug], [info], [error]) have no effect on any value
    computed by the module and are left out. *)

From Stdlib Require Import ZArith Ascii String DecimalString.
From stdpp Require Import base option list gmap strings.

Local Open Scope string_scope.
Local Open Scope list_scope.

(** ** Outcomes of Python computations

    An exception is a value.  [CollaboratorError] stands for whatever a
    collaborator raises; [Unmodelled] is not a Python exception: it marks
    the places where the model of a built-in stops. *)

Inductive exn : Type :=
| KeyError (key : string)
| ValueError (msg : string)
| TypeError (msg : string)
| CollaboratorError (what : string)
| Unmodelled (what : string).

Inductive Outcome (A : Type) : Type :=
| Ok (a : A)
| Raised (e : exn).
Arguments Ok {A} a.
Arguments Raised {A} e.

(** ** Strings

    Python [str] values are modelled as sequences of code points below 256. *)

Definition newline : string := String (ascii_of_nat 10) "".

(** [pat in s] *)
Fixpoint contains (pat s : string) : bool :=
  String.prefix pat s ||
  match s with
  | "" => false
  | String _ s' => contains pat s'
  end.

(** [str.isspace] on one code point below 256. *)
Definition is_space (c : ascii) : bool :=
  let n := nat_of_ascii c in
  (((9 <=? n) && (n <=? 13)) || ((28 <=? n) && (n <=? 32))
   || (n =? 133) || (n =? 160))%nat.

Fixpoint lstrip (s : string) : string :=
  match s with
  | "" => ""
  | String c s' => if is_space c then lstrip s' else s
  end.

Fixpoint rstrip (s : string) : string :=
  match s with
  | "" => ""
  | String c s' =>
      match rstrip s' with
      | "" => if is_space c then "" else String c ""
      | r => String c r
      end
  end.

(** [s.strip()] *)
Definition strip (s : string) : string := rstrip (lstrip s).

(** [sep.join(l)] *)
Definition join (sep : string) (l : list string) : string :=
  String.concat sep l.

(** [str(n)] for a Python [int]. *)
Definition str_of_int (n : Z) : string :=
  NilZero.string_of_int (Z.to_int n).

(** ** Values passed to the formatting machinery *)

Inductive value : Type :=
| VStr (s : string)
| VInt (n : Z).

(** [str(v)], which is also [format(v, "")]. *)
Definition str (v : value) : string :=
  match v with
  | VStr s => s
  | VInt n => str_of_int n
  end.

(** ** [str.format_map]

    [safe_format] delegates to the built-in [str.format_map].  The model
    follows the interpreter's scanner one character at a time: literal text
    with [{{] and [}}] escapes, then for each replacement field its name,
    an optional [!c] conversion and an optional [:spec].  The parts of the
    format language that depend on Python's object model (attribute and
    index access, [!r] and [!a], non-empty format specifications) stop the
    model with [Unmodelled]. *)

Inductive fmt_mode : Type :=
| InLiteral
| AfterOpen
| AfterClose
| InName (name : string) (in_index : bool)
| AtConversion (name : string)
| AfterConversion (name : string) (conv : ascii)
| InSpec (name : string) (conv : option ascii) (spec : string) (depth : nat).

Definition snoc (s : string) (c : ascii) : string := s +:+ String c "".

(** The part of a field name before the first ["."] or ["["], and the rest. *)
Fixpoint split_first (name : string) : string * string :=
  match name with
  | "" => ("", "")
  | String c s' =>
      if (Ascii.eqb c "." || Ascii.eqb c "[")%char then ("", name)
      else let '(first, rest) := split_first s' in (String c first, rest)
  end.

Definition is_digit (c : ascii) : bool :=
  let n := nat_of_ascii c in ((48 <=? n) && (n <=? 57))%nat.

Fixpoint all_digits (s : string) : bool :=
  match s with
  | "" => true
  | String c s' => is_digit c && all_digits s'
  end.

(** The largest [Py_ssize_t], on a 64-bit build of the interpreter. *)
Definition PY_SSIZE_T_MAX : Z := 9223372036854775807.

Definition digit_value (c : ascii) : Z := (Z.of_nat (nat_of_ascii c) - 48)%Z.

(** [get_integer] of the interpreter's format parser, from the digit it
    has reached: the number that a string of decimal digits writes, [None]
    as soon as a character is not a digit, and an exception as soon as the
    digits read so far leave the range of [Py_ssize_t]. *)
Fixpoint get_integer_from (accumulator : Z) (s : string) : Outcome (option Z) :=
  match s with
  | "" => Ok (Some accumulator)
  | String c s' =>
      if is_digit c then
        if ((PY_SSIZE_T_MAX - digit_value c) / 10 <? accumulator)%Z then
          Raised (ValueError "Too many decimal digits in format string")
        else get_integer_from (accumulator * 10 + digit_value c)%Z s'
      else Ok None
  end.

(** The empty string is not a number. *)
Definition get_integer (s : string) : Outcome (option Z) :=
  match s with
  | "" => Ok None
  | _ => get_integer_from 0 s
  end.

(** [%x] of a code point below 256. *)
Definition hex_digit (n : nat) : ascii :=
  ascii_of_nat (if (n <? 10)%nat then 48 + n else 87 + n).

Definition hex (n : nat) : string :=
  if (n <? 16)%nat then String (hex_digit n) ""
  else String (hex_digit (n / 16)) (String (hex_digit (n mod 16)) "").

(** How the interpreter names a conversion character that it does not
    know: the character itself when it is printable ASCII, its code
    otherwise. *)
Definition conversion_name (c : ascii) : string :=
  let n := nat_of_ascii c in
  if ((32 <? n) && (n <? 127))%nat then String c ""
  else String (ascii_of_nat 92) (String "x" (hex n)).

(** [_SafeDict.__missing__] *)
Definition SafeDict_missing (key : string) : string := "{" +:+ key +:+ "}".

(** Subscripting a [_SafeDict] built from the keyword arguments: a [dict]
    lookup that falls back on [__missing__]. *)
Definition SafeDict_getitem (kwargs : gmap string value) (key : string) : value :=
  match kwargs !! key with
  | Some v => v
  | None => VStr (SafeDict_missing key)
  end.

Definition format_value (obj : value) (spec : string) : Outcome string :=
  if String.eqb spec "" then Ok (str obj)
  else Raised (Unmodelled "format specification").

Definition render_field (kwargs : gmap string value)
    (name : string) (conv : option ascii) (spec : string) : Outcome string :=
  let '(first, rest) := split_first name in
  match get_integer first with
  | Raised e => Raised e
  | Ok index =>
      if String.eqb first "" || bool_decide (is_Some index) then
        Raised (ValueError "Format string contains positional fields")
      else
        let obj := SafeDict_getitem kwargs first in
        if negb (String.eqb rest "") then
          Raised (Unmodelled "attribute or index access")
        else
          match conv with
          | None => format_value obj spec
          | Some c =>
              if Ascii.eqb c "s" then format_value (VStr (str obj)) spec
              else if (Ascii.eqb c "r" || Ascii.eqb c "a")%char then
                Raised (Unmodelled "repr conversion")
              else
                Raised (ValueError
                          ("Unknown conversion specifier " +:+ conversion_name c))
          end
  end.

Definition end_field (kwargs : gmap string value) (out : string)
    (name : string) (conv : option ascii) (spec : string)
  : Outcome (string * fmt_mode) :=
  match render_field kwargs name conv spec with
  | Ok text => Ok (out +:+ text, InLiteral)
  | Raised e => Raised e
  end.

Definition name_char (kwargs : gmap string value) (out : string)
    (name : string) (in_index : bool) (c : ascii)
  : Outcome (string * fmt_mode) :=
  if in_index then
    Ok (out, InName (snoc name c) (negb (Ascii.eqb c "]")))
  else if Ascii.eqb c "{" then
    Raised (ValueError "unexpected '{' in field name")
  else if Ascii.eqb c "[" then Ok (out, InName (snoc name c) true)
  else if Ascii.eqb c "}" then end_field kwargs out name None ""
  else if Ascii.eqb c ":" then Ok (out, InSpec name None "" 1)
  else if Ascii.eqb c "!" then Ok (out, AtConversion name)
  else Ok (out, InName (snoc name c) false).

Definition fmt_step (kwargs : gmap string value) (out : string)
    (mode : fmt_mode) (c : ascii) : Outcome (string * fmt_mode) :=
  match mode with
  | InLiteral =>
      if Ascii.eqb c "{" then Ok (out, AfterOpen)
      else if Ascii.eqb c "}" then Ok (out, AfterClose)
      else Ok (snoc out c, InLiteral)
  | AfterOpen =>
      if Ascii.eqb c "{" then Ok (snoc out c, InLiteral)
      else name_char kwargs out "" false c
  | AfterClose =>
      if Ascii.eqb c "}" then Ok (snoc out c, InLiteral)
      else Raised (ValueError "Single '}' encountered in format string")
  | InName name in_index => name_char kwargs out name in_index c
  | AtConversion name => Ok (out, AfterConversion name c)
  | AfterConversion name conv =>
      if Ascii.eqb c "}" then end_field kwargs out name (Some conv) ""
      else if Ascii.eqb c ":" then Ok (out, InSpec name (Some conv) "" 1)
      else Raised (ValueError "expected ':' after conversion specifier")
  | InSpec name conv spec depth =>
      if Ascii.eqb c "{" then Ok (out, InSpec name conv (snoc spec c) (S depth))
      else if Ascii.eqb c "}" then
        match depth with
        | 1 => end_field kwargs out name conv spec
        | _ => Ok (out, InSpec name conv (snoc spec c) (pred depth))
        end
      else Ok (out, InSpec name conv (snoc spec c) depth)
  end.

Definition fmt_finish (out : string) (mode : fmt_mode) : Outcome string :=
  match mode with
  | InLiteral => Ok out
  | AfterOpen => Raised (ValueError "Single '{' encountered in format string")
  | AfterClose => Raised (ValueError "Single '}' encountered in format string")
  | InName _ _ => Raised (ValueError "expected '}' before end of string")
  | AtConversion _ =>
      Raised (ValueError "end of string while looking for conversion specifier")
  | AfterConversion _ _ | InSpec _ _ _ _ =>
      Raised (ValueError "unmatched '{' in format spec")
  end.

Fixpoint format_from (kwargs : gmap string value) (out : string)
    (mode : fmt_mode) (s : string) : Outcome string :=
  match s with
  | "" => fmt_finish out mode
  | String c s' =>
      match fmt_step kwargs out mode c with
      | Ok (out', mode') => format_from kwargs out' mode' s'
      | Raised e => Raised e
      end
  end.

(** [s.format_map(mapping)] for a mapping with [_SafeDict]'s lookup. *)
Definition format_map (s : string) (kwargs : gmap string value) : Outcome string :=
  format_from kwargs "" InLiteral s.

(** [safe_format]: the keyword arguments are collected in [kwargs].  The
    template is the parameter [s] of the function, given by position: a
    keyword of that name is a second value for the same parameter, and the
    call raises before the body is entered. *)
Definition safe_format (s : string) (kwargs : gmap string value) : Outcome string :=
  match kwargs !! "s" with
  | Some _ =>
      Raised (TypeError "safe_format() got multiple values for argument 's'")
  | None => format_map s kwargs
  end.

(** [d[key]] on a plain [dict] *)
Definition dict_getitem (d : gmap string string) (key : string) : Outcome string :=
  match d !! key with
  | Some v => Ok v
  | None => Raised (KeyError key)
  end.

(** ** Data model

    The classes of [data.models], with the attributes this module reads. *)

Record Show : Type := {
  show_id : Z;
  show_name : string;
  show_key : string;
  show_enabled : bool;
  show_delayed : bool;
  show_has_source : bool
}.

Record Stream : Type := {
  stream_show : Z;
  stream_service : Z;
  stream_show_key : string;
  stream_remote_offset : Z;
  stream_display_offset : Z;
  stream_active : bool
}.

(** An episode candidate as a service handler reports it. *)
Record Episode : Type := {
  ep_number : Z;
  ep_name : option string;
  ep_is_live : bool
}.

(** An episode record as the store returns it from [get_episodes]. *)
Record PostedEpisode : Type := {
  posted_number : Z;
  posted_link : string
}.

Record Service : Type := {
  service_id : Z;
  service_name : string;
  service_enabled : bool;
  service_use_in_post : bool
}.

Record ServiceHandler : Type := {
  handler_name : string;
  handler_is_generic : bool
}.

Record Link : Type := {
  link_site : Z;
  link_key : string
}.

Record LinkSite : Type := {
  site_id : Z;
  site_name : string;
  site_enabled : bool
}.

Record LinkHandler : Type := {
  link_handler_name : string
}.

Record Post : Type := {
  post_id : string
}.

Record Config : Type := {
  useragent : string;
  debug : bool;
  subreddit : string;
  post_title : string;
  post_body : string;
  post_formats : gmap string string
}.

#[global] Instance Show_eq_dec : EqDecision Show.
Proof. solve_decision. Defined.

(** [episode.number = n]: assignment to the attribute of the candidate. *)
Definition set_number (episode : Episode) (n : Z) : Episode :=
  {| ep_number := n; ep_name := ep_name episode; ep_is_live := ep_is_live episode |}.

(** Modelled from the spec: [Stream.from_show] of [data.models] is not part
    of the sources at hand.  The specification says of it: "synthesize a
    Stream (offsets = 0, key = show's canonical key)".  The attributes it
    does not mention are never read by this module on a synthetic stream. *)
Definition Stream_from_show (show : Show) : Stream :=
  {| stream_show := show_id show;
     stream_service := 0;
     stream_show_key := show_key show;
     stream_remote_offset := 0;
     stream_display_offset := 0;
     stream_active := true |}.

(** ** Calls to the collaborators *)

(** Read-only methods of [db]. *)
Inductive Query : Type -> Type :=
| GetServices (enabled : bool) : Query (list Service)
| GetStreamsOfService (service : Service) : Query (list Stream)
| GetStreamsOfShow (show : Show) : Query (list Stream)
| GetShow (stream : Stream) : Query (option Show)
| GetShowsMissingStream : Query (list Show)
| GetShowsDelayed : Query (list Show)
| GetService (id : Z) : Query Service
| GetLinks (show : Show) : Query (list Link)
| GetLinkSite (id : Z) : Query LinkSite
| GetEpisodes (show : Show) : Query (list PostedEpisode)
| StreamHasEpisode (stream : Stream) (number : Z) : Query bool.

(** Methods of [db] that change the store. *)
Inductive Update : Type :=
| AddEpisode (show : Z) (number : Z) (post_url : string)
| SetShowDelayed (show : Show) (delayed : bool).

(** Calls that leave the process: the [reddit] client, the [services]
    registry and the handlers it returns. *)
Inductive External : Type -> Type :=
| InitReddit (config : Config) : External unit
| SubmitTextPost (sub title body : string) : External (option Post)
| GetShortlinkFromId (id : string) : External string
| GetServiceHandler (service : Service) : External ServiceHandler
| GetLatestEpisode (handler : ServiceHandler) (stream : Stream)
    (agent : string) : External (option Episode)
| GetStreamLink (handler : ServiceHandler) (stream : Stream) : External string
| GetLinkHandler (site : LinkSite) : External LinkHandler
| GetLink (handler : LinkHandler) (link : Link) : External string.

Inductive Event : Type -> Type :=
| Db {X} (q : Query X) : Event X
| DbWrite (u : Update) : Event unit
| Ext {X} (e : External X) : Event X.

(** ** Programs *)

Inductive Prog (A : Type) : Type :=
| Ret (a : A)
| Raise (e : exn)
| Vis {X : Type} (ev : Event X) (k : X -> Prog A).
Arguments Ret {A} a.
Arguments Raise {A} e.
Arguments Vis {A X} ev k.

Fixpoint bind {A B} (p : Prog A) (f : A -> Prog B) : Prog B :=
  match p with
  | Ret a => f a
  | Raise e => Raise e
  | Vis ev k => Vis ev (fun x => bind (k x) f)
  end.

#[global] Instance Prog_ret : MRet Prog := @Ret.
#[global] Instance Prog_bind : MBind Prog := fun A B f p => bind p f.

Definition trigger {X} (ev : Event X) : Prog X := Vis ev Ret.

(** A pure computation that may raise. *)
Definition lift {A} (o : Outcome A) : Prog A :=
  match o with
  | Ok a => Ret a
  | Raised e => Raise e
  end.

(** [for x in l: body(x)] *)
Fixpoint for_each {A} (l : list A) (body : A -> Prog unit) : Prog unit :=
  match l with
  | [] => Ret tt
  | x :: l' => body x;; for_each l' body
  end.

(** [for x in l: ...; texts.append(t)] where an iteration appends at most
    one element: the list that has been built when the loop ends. *)
Fixpoint for_append {A B} (l : list A) (body : A -> Prog (option B))
  : Prog (list B) :=
  match l with
  | [] => Ret []
  | x :: l' =>
      r ← body x;
      rest ← for_append l' body;
      Ret (match r with Some b => b :: rest | None => rest end)
  end.

(** The methods of the collaborators, as the module calls them. *)
Module db.
Definition get_services (enabled : bool) := trigger (Db (GetServices enabled)).
Definition get_streams_of_service (service : Service) :=
  trigger (Db (GetStreamsOfService service)).
Definition get_streams_of_show (show : Show) :=
  trigger (Db (GetStreamsOfShow show)).
Definition get_show (stream : Stream) := trigger (Db (GetShow stream)).
Definition get_shows_missing_stream := trigger (Db GetShowsMissingStream).
Definition get_shows_delayed := trigger (Db GetShowsDelayed).
Definition get_service (id : Z) := trigger (Db (GetService id)).
Definition get_links (show : Show) := trigger (Db (GetLinks show)).
Definition get_link_site (id : Z) := trigger (Db (GetLinkSite id)).
Definition get_episodes (show : Show) := trigger (Db (GetEpisodes show)).
Definition stream_has_episode (stream : Stream) (number : Z) :=
  trigger (Db (StreamHasEpisode stream number)).
Definition add_episode (show : Z) (number : Z) (post_url : string) :=
  trigger (DbWrite (AddEpisode show number post_url)).
Definition set_show_delayed (show : Show) (delayed : bool) :=
  trigger (DbWrite (SetShowDelayed show delayed)).
End db.

Module reddit.
Definition init_reddit (config : Config) := trigger (Ext (InitReddit config)).
Definition submit_text_post (sub title body : string) :=
  trigger (Ext (SubmitTextPost sub title body)).
Definition get_shortlink_from_id (id : string) :=
  trigger (Ext (GetShortlinkFromId id)).
End reddit.

Module services.
Definition get_service_handler (service : Service) :=
  trigger (Ext (GetServiceHandler service)).
Definition get_link_handler (site : LinkSite) :=
  trigger (Ext (GetLinkHandler site)).
Definition get_latest_episode (handler : ServiceHandler) (stream : Stream)
    (agent : string) :=
  trigger (Ext (GetLatestEpisode handler stream agent)).
Definition get_stream_link (handler : ServiceHandler) (stream : Stream) :=
  trigger (Ext (GetStreamLink handler stream)).
Definition get_link (handler : LinkHandler) (link : Link) :=
  trigger (Ext (GetLink handler link)).
End services.

(** ** The module, bottom up *)

(** *** Generating text parts *)

Definition _gen_text_spoiler (formats : gmap string string) (show : Show)
  : Prog string :=
  if show_has_source show then lift (dict_getitem formats "spoiler")
  else Ret "".

Definition _gen_text_streams (formats : gmap string string) (show : Show)
  : Prog string :=
  streams ← db.get_streams_of_show show;
  if (0 <? length streams)%nat then
    stream_texts ← for_append streams (fun stream =>
      if stream_active stream then
        service ← db.get_service (stream_service stream);
        if service_enabled service && service_use_in_post service then
          service_handler ← services.get_service_handler service;
          template ← lift (dict_getitem formats "stream");
          stream_link ← services.get_stream_link service_handler stream;
          text ← lift (safe_format template
                   {[ "service_name" := VStr (service_name service);
                      "stream_link" := VStr stream_link ]});
          Ret (Some text)
        else Ret None
      else Ret None);
    Ret (join newline stream_texts)
  else Ret "*None*".

Definition _gen_text_links (formats : gmap string string) (show : Show)
  : Prog string :=
  links ← db.get_links show;
  link_texts ← for_append links (fun link =>
    site ← db.get_link_site (link_site link);
    if site_enabled site then
      link_handler ← services.get_link_handler site;
      template ← lift (dict_getitem formats "link");
      url ← services.get_link link_handler link;
      text ← lift (safe_format template
               {[ "site_name" := VStr (site_name site);
                  "link" := VStr url ]});
      Ret (Some text)
    else Ret None);
  Ret (join newline link_texts).

Definition _gen_text_discussions (formats : gmap string string) (show : Show)
  : Prog string :=
  episodes ← db.get_episodes show;
  if (0 <? length episodes)%nat then
    header ← lift (dict_getitem formats "discussion_header");
    rows ← for_append episodes (fun episode =>
      template ← lift (dict_getitem formats "discussion");
      text ← lift (safe_format template
               {[ "episode_num" := VInt (posted_number episode);
                  "episode_link" := VStr (posted_link episode) ]});
      Ret (Some text));
    Ret (join newline (header :: rows))
  else lift (dict_getitem formats "discussion_none").

(** *** Composing the post *)

(** One of the four [if "{block}" in text: text = safe_format(...)] steps. *)
Definition fill_block (block : string) (gen : Prog string) (text : string)
  : Prog string :=
  if contains ("{" +:+ block +:+ "}") text then
    content ← gen;
    lift (safe_format text {[ block := VStr content ]})
  else Ret text.

(** [": {}".format(episode.name) if episode.name else ""] *)
Definition episode_name_suffix (episode : Episode) : string :=
  match ep_name episode with
  | Some name => if String.eqb name "" then "" else ": " +:+ name
  | None => ""
  end.

Definition _format_post_text (text : string) (formats : gmap string string)
    (show : Show) (episode : Episode) (stream : Stream) : Prog string :=
  let episode_num := (ep_number episode + stream_display_offset stream)%Z in
  text ← fill_block "spoiler" (_gen_text_spoiler formats show) text;
  text ← fill_block "streams" (_gen_text_streams formats show) text;
  text ← fill_block "links" (_gen_text_links formats show) text;
  text ← fill_block "discussions" (_gen_text_discussions formats show) text;
  let episode_name := episode_name_suffix episode in
  text ← lift (safe_format text
           {[ "show_name" := VStr (show_name show);
              "episode" := VInt episode_num;
              "episode_name" := VStr episode_name ]});
  Ret (strip text).

Definition _create_post_contents (config : Config) (show : Show)
    (stream : Stream) (episode : Episode) : Prog (string * string) :=
  title ← _format_post_text (post_title config) (post_formats config)
            show episode stream;
  body ← _format_post_text (post_body config) (post_formats config)
            show episode stream;
  Ret (title, body).

Definition _create_reddit_post (config : Config) (show : Show)
    (stream : Stream) (episode : Episode) (submit : bool)
  : Prog (option string) :=
  '(title, body) ← _create_post_contents config show stream episode;
  if submit then
    new_post ← reddit.submit_text_post (subreddit config) title body;
    match new_post with
    | Some post =>
        url ← reddit.get_shortlink_from_id (post_id post);
        Ret (Some url)
    | None => Ret None
    end
  else Ret None.

(** *** The episode processor

    The candidate is a mutable object: the program returns the state in
    which it leaves it. *)
Definition _process_new_episode (config : Config) (show : Show)
    (stream : Stream) (episode : Episode) : Prog Episode :=
  if ep_is_live episode then
    let episode :=
      set_number episode (ep_number episode - stream_remote_offset stream)%Z in
    already_seen ← db.stream_has_episode stream (ep_number episode);
    if negb already_seen then
      post_url ← _create_reddit_post config show stream episode
                   (negb (debug config));
      match post_url with
      | Some url =>
          db.add_episode (stream_show stream) (ep_number episode) url;;
          (if show_delayed show then db.set_show_delayed show false
           else Ret tt);;
          Ret episode
      | None => Ret episode
      end
    else Ret episode
  else Ret episode.

(** *** The discovery driver *)

(** The body of the loop over the streams of one service. *)
Definition check_stream (config : Config) (service_handler : ServiceHandler)
    (stream : Stream) : Prog unit :=
  show ← db.get_show stream;
  match show with
  | None => Ret tt
  | Some show =>
      if negb (show_enabled show) then Ret tt
      else
        episode ← services.get_latest_episode service_handler stream
                    (useragent config);
        match episode with
        | None => Ret tt
        | Some episode =>
            _process_new_episode config show stream episode;; Ret tt
        end
  end.

(** The body of the first loop over the enabled services. *)
Definition check_service (config : Config) (service : Service) : Prog unit :=
  service_handler ← services.get_service_handler service;
  streams ← db.get_streams_of_service service;
  for_each streams (check_stream config service_handler).

(** [for service in enabled_services: ... break ... else: ...] of the
    second pass, for one show and its synthetic stream. *)
Fixpoint check_generic (config : Config) (show : Show) (stream : Stream)
    (enabled_services : list Service) : Prog unit :=
  match enabled_services with
  | [] => Ret tt
  | service :: rest =>
      service_handler ← services.get_service_handler service;
      if handler_is_generic service_handler then
        episode ← services.get_latest_episode service_handler stream
                    (useragent config);
        match episode with
        | None => check_generic config show stream rest
        | Some episode =>
            _process_new_episode config show stream episode;; Ret tt
        end
      else check_generic config show stream rest
  end.

(** [for show in set(a) | set(b)]: the shows of the two lists as the loop
    meets them.  Which members a Python set takes for one and the same, and
    the order in which it yields them, follow from [__eq__] and [__hash__]
    of their class and from the layout of the hash table.  The class is
    [data.models.Show], which is not part of the sources at hand, so the
    driver is given the iteration as a parameter: nothing is fixed about
    it here. *)
Definition SetIteration : Type := list Show -> list Show -> list Show.

Definition check_generic_services (iteration : SetIteration) (config : Config)
    (enabled_services : list Service) : Prog unit :=
  missing ← db.get_shows_missing_stream;
  delayed ← db.get_shows_delayed;
  let other_shows := iteration missing delayed in
  for_each other_shows (fun show =>
    let stream := Stream_from_show show in
    check_generic config show stream enabled_services).

Definition main (iteration : SetIteration) (config : Config) : Prog unit :=
  reddit.init_reddit config;;
  enabled_services ← db.get_services true;
  for_each enabled_services (check_service config);;
  check_generic_services iteration config enabled_services.

(** ** Running a program against the collaborators

    An implementation of the collaborators gives the store a state [DB] and
    the outside world a state [World].  A query reads the store, an update
    may change it, and an external call sees and changes the outside world
    only: the module hands neither the store nor [db] to a handler or to the
    [reddit] client.  Each of them may raise. *)

Record Collaborators (DB World : Type) : Type := {
  query : forall X, Query X -> DB -> Outcome X;
  update : Update -> DB -> Outcome unit * DB;
  external : forall X, External X -> World -> Outcome X * World
}.
Arguments query {DB World} _ {X} _ _.
Arguments update {DB World} _ _ _.
Arguments external {DB World} _ {X} _ _.

Record State (DB World : Type) : Type := {
  store : DB;
  world : World
}.
Arguments Build_State {DB World} _ _.
Arguments store {DB World} _.
Arguments world {DB World} _.

(** A call that was made, with what it returned or raised. *)
Inductive Call : Type :=
| Called {X : Type} (ev : Event X) (r : Outcome X).

Section Run.
Context {DB World : Type} (C : Collaborators DB World).

Definition handle {X} (ev : Event X) (s : State DB World)
  : Outcome X * State DB World :=
  match ev in Event X return Outcome X * State DB World with
  | Db q => (query C q (store s), s)
  | DbWrite u =>
      let '(r, d) := update C u (store s) in (r, Build_State d (world s))
  | Ext e =>
      let '(r, w) := external C e (world s) in (r, Build_State (store s) w)
  end.

Fixpoint run {A} (p : Prog A) (s : State DB World)
  : list Call * State DB World * Outcome A :=
  match p with
  | Ret a => ([], s, Ok a)
  | Raise e => ([], s, Raised e)
  | Vis ev k =>
      let '(r, s') := handle ev s in
      match r with
      | Ok x => let '(tr, s'', o) := run (k x) s' in (Called ev r :: tr, s'', o)
      | Raised e => ([Called ev r], s', Raised e)
      end
  end.

Definition trace {A} (p : Prog A) (s : State DB World) : list Call :=
  (run p s).1.1.
Definition final {A} (p : Prog A) (s : State DB World) : State DB World :=
  (run p s).1.2.
Definition result {A} (p : Prog A) (s : State DB World) : Outcome A :=
  (run p s).2.
End Run.

(** ** What a trace shows *)

Definition is_write {X} (ev : Event X) : bool :=
  match ev with DbWrite _ => true | _ => false end.

Definition is_publish {X} (ev : Event X) : bool :=
  match ev with Ext (SubmitTextPost _ _ _) => true | _ => false end.

Definition call_is (sel : forall X, Event X -> bool) (c : Call) : bool :=
  match c with Called ev _ => sel _ ev end.

(** The updates of the store in a trace, in order. *)
Definition writes_of (tr : list Call) : list Update :=
  flat_map (fun c =>
    match c with
    | Called ev _ =>
        match ev with DbWrite u => [u] | _ => [] end
    end) tr.

(** The texts handed to [reddit.submit_text_post] in a trace, in order. *)
Definition submissions_of (tr : list Call) : list (string * string * string) :=
  flat_map (fun c =>
    match c with
    | Called ev _ =>
        match ev with
        | Ext (SubmitTextPost sub title body) => [(sub, title, body)]
        | _ => []
        end
    end) tr.

(** A program none of whose calls, on any path, is selected by [sel]. *)
Inductive avoids (sel : forall X, Event X -> bool) {A} : Prog A -> Prop :=
| avoids_Ret a : avoids sel (Ret a)
| avoids_Raise e : avoids sel (Raise e)
| avoids_Vis X (ev : Event X) k :
    sel X ev = false -> (forall x, avoids sel (k x)) -> avoids sel (Vis ev k).

(** ** Specification-side definitions *)

(** A template in which every brace belongs to a plain placeholder: literal
    text without braces, and holes [{name}]. *)
Inductive item : Type :=
| Text (s : string)
| Hole (name : string).

Fixpoint no_char_in (cs : list ascii) (s : string) : bool :=
  match s with
  | "" => true
  | String c s' => negb (existsb (Ascii.eqb c) cs) && no_char_in cs s'
  end.

(** The digits at the head of a name stay within [Py_ssize_t]. *)
Fixpoint digits_fit_from (accumulator : Z) (name : string) : bool :=
  match name with
  | "" => true
  | String c name' =>
      if is_digit c then
        (accumulator * 10 + digit_value c <=? PY_SSIZE_T_MAX)%Z
        && digits_fit_from (accumulator * 10 + digit_value c)%Z name'
      else true
  end.

Definition digits_fit (name : string) : bool := digits_fit_from 0 name.

(** The number that a string of decimal digits writes. *)
Fixpoint decimal_from (accumulator : Z) (digits : string) : Z :=
  match digits with
  | "" => accumulator
  | String c digits' =>
      decimal_from (accumulator * 10 + digit_value c)%Z digits'
  end.

Definition decimal (digits : string) : Z := decimal_from 0 digits.

(** The message for a placeholder that is empty or a number. *)
Definition positional_message (digits : string) : string :=
  if (decimal digits <=? PY_SSIZE_T_MAX)%Z
  then "Format string contains positional fields"
  else "Too many decimal digits in format string".

(** A plain name: not empty, not a number, not headed by a number too
    large for the interpreter to read, and free of the characters that the
    format language gives a meaning to. *)
Definition plain_name (name : string) : bool :=
  negb (all_digits name)
  && no_char_in ["{"; "}"; "["; "."; "!"; ":"]%char name
  && digits_fit name.

Definition plain_item (i : item) : bool :=
  match i with
  | Text s => no_char_in ["{"; "}"]%char s
  | Hole name => plain_name name
  end.

Definition item_source (i : item) : string :=
  match i with
  | Text s => s
  | Hole name => "{" +:+ name +:+ "}"
  end.

(** The template string that a list of items stands for. *)
Definition template_of (items : list item) : string :=
  foldr (fun i s => item_source i +:+ s) "" items.

(** What the specification asks of the renderer, item by item: a hole whose
    name is in the mapping becomes the value, any other hole stays as it is
    written. *)
Definition render_item (kwargs : gmap string value) (i : item) : string :=
  match i with
  | Text s => s
  | Hole name =>
      match kwargs !! name with
      | Some v => str v
      | None => "{" +:+ name +:+ "}"
      end
  end.

Definition render_items (kwargs : gmap string value) (items : list item) : string :=
  foldr (fun i s => render_item kwargs i +:+ s) "" items.

(** The canonical number of a candidate found on [stream]. *)
Definition canonical (stream : Stream) (episode : Episode) : Z :=
  (ep_number episode - stream_remote_offset stream)%Z.

(** The candidate once its number has been overwritten. *)
Definition adjusted (stream : Stream) (episode : Episode) : Episode :=
  set_number episode (canonical stream episode).

(** The publish step as the processor starts it on a live candidate that
    has not been seen: the composer and the submission, on the candidate
    with its number overwritten. *)
Definition publish (config : Config) (show : Show) (stream : Stream)
    (episode : Episode) : Prog (option string) :=
  _create_reddit_post config show stream (adjusted stream episode)
    (negb (debug config)).

(** The display number of a candidate whose number is canonical. *)
Definition display_number (stream : Stream) (episode : Episode) : Z :=
  (ep_number episode + stream_display_offset stream)%Z.

(** The three values that the composer always supplies. *)
Definition post_values (show : Show) (episode : Episode) (stream : Stream)
  : gmap string value :=
  {[ "show_name" := VStr (show_name show);
     "episode" := VInt (display_number stream episode);
     "episode_name" := VStr (episode_name_suffix episode) ]}.

(** The streams on which a handler was asked for its latest episode. *)
Definition checked_streams (tr : list Call) : list Stream :=
  flat_map (fun c =>
    match c with
    | Called ev _ =>
        match ev with
        | Ext (GetLatestEpisode _ stream _) => [stream]
        | _ => []
        end
    end) tr.

(** The first part of [_format_post_text], up to the last of the four
    content blocks: the text that the final call of [safe_format] is
    given. *)
Definition fill_blocks (text : string) (formats : gmap string string)
    (show : Show) : Prog string :=
  text ← fill_block "spoiler" (_gen_text_spoiler formats show) text;
  text ← fill_block "streams" (_gen_text_streams formats show) text;
  text ← fill_block "links" (_gen_text_links formats show) text;
  fill_block "discussions" (_gen_text_discussions formats show) text.

(** The first part of [main], up to the end of the loop over the enabled
    services: the pass over the streams of each service.  It yields the
    list of services that it went through, which the fallback pass goes
    through again. *)
Definition dedicated_pass (config : Config) : Prog (list Service) :=
  reddit.init_reddit config;;
  enabled_services ← db.get_services true;
  for_each enabled_services (check_service config);;
  Ret enabled_services.

(** The last part of [_format_post_text]: the final call of [safe_format]
    with the three values [values], and [strip]. *)
Definition inject (values : gmap string value) (filled : Outcome string)
  : Outcome string :=
  match filled with
  | Ok text =>
      match safe_format text values with
      | Ok out => Ok (strip out)
      | Raised e => Raised e
      end
  | Raised e => Raised e
  end.

(** Modelled from the spec: the class of the shows is not part of the
    sources at hand.  The specification has the fallback pass "compute the
    set of Shows that either have no tracked stream at all or are flagged
    delayed" and imposes no order on it: the shows that the loop meets are
    those of the two lists. *)
Definition iterates_union (iteration : SetIteration) : Prop :=
  forall a b show, show ∈ iteration a b <-> show ∈ a \/ show ∈ b.

Section Semantics.
Context {DB World : Type} (C : Collaborators DB World).

(** The generic fallback for one show as the specification words it.  A
    run is told by the state it starts in, the calls it makes, the state
    it ends in and the way it ends.  The enabled services are taken in
    order; a handler that is not flagged [is_generic] is passed over
    without a query; a generic one is asked on the stream of the pass; the
    first that returns an episode has it processed, in the state that its
    answer leaves, and no service after it is consulted.  An exception of
    the registry, of a handler or of the processor ends the run. *)
Inductive first_match (config : Config) (show : Show) (stream : Stream)
  : list Service -> State DB World
    -> list Call * State DB World * Outcome unit -> Prop :=
| fm_exhausted s :
    first_match config show stream [] s ([], s, Ok tt)
| fm_no_handler service rest s e s1 :
    handle C (Ext (GetServiceHandler service)) s = (Raised e, s1) ->
    first_match config show stream (service :: rest) s
      ([Called (Ext (GetServiceHandler service)) (Raised e)], s1, Raised e)
| fm_not_generic service rest s handler s1 tr s' o :
    handle C (Ext (GetServiceHandler service)) s = (Ok handler, s1) ->
    handler_is_generic handler = false ->
    first_match config show stream rest s1 (tr, s', o) ->
    first_match config show stream (service :: rest) s
      (Called (Ext (GetServiceHandler service)) (Ok handler) :: tr, s', o)
| fm_nothing service rest s handler s1 s2 tr s' o :
    handle C (Ext (GetServiceHandler service)) s = (Ok handler, s1) ->
    handler_is_generic handler = true ->
    handle C (Ext (GetLatestEpisode handler stream (useragent config))) s1
    = (Ok None, s2) ->
    first_match config show stream rest s2 (tr, s', o) ->
    first_match config show stream (service :: rest) s
      (Called (Ext (GetServiceHandler service)) (Ok handler)
       :: Called (Ext (GetLatestEpisode handler stream (useragent config)))
            (Ok None)
       :: tr, s', o)
| fm_failed service rest s handler s1 e s2 :
    handle C (Ext (GetServiceHandler service)) s = (Ok handler, s1) ->
    handler_is_generic handler = true ->
    handle C (Ext (GetLatestEpisode handler stream (useragent config))) s1
    = (Raised e, s2) ->
    first_match config show stream (service :: rest) s
      ([Called (Ext (GetServiceHandler service)) (Ok handler);
        Called (Ext (GetLatestEpisode handler stream (useragent config)))
          (Raised e)], s2, Raised e)
| fm_found service rest s handler s1 episode s2 tr s' done :
    handle C (Ext (GetServiceHandler service)) s = (Ok handler, s1) ->
    handler_is_generic handler = true ->
    handle C (Ext (GetLatestEpisode handler stream (useragent config))) s1
    = (Ok (Some episode), s2) ->
    run C (_process_new_episode config show stream episode) s2
    = (tr, s', done) ->
    first_match config show stream (service :: rest) s
      (Called (Ext (GetServiceHandler service)) (Ok handler)
       :: Called (Ext (GetLatestEpisode handler stream (useragent config)))
            (Ok (Some episode))
       :: tr, s',
       match done with Ok _ => Ok tt | Raised e => Raised e end).

(** The fallback pass over the shows that it is given, as the
    specification words it: one show after the other, each on the stream
    synthesized for it, each from the state in which the show before it
    has left the collaborators; an exception ends the pass. *)
Inductive fallback_pass (config : Config) (enabled_services : list Service)
  : list Show -> State DB World
    -> list Call * State DB World * Outcome unit -> Prop :=
| fp_done s :
    fallback_pass config enabled_services [] s ([], s, Ok tt)
| fp_raised show rest s tr s' e :
    first_match config show (Stream_from_show show) enabled_services s
      (tr, s', Raised e) ->
    fallback_pass config enabled_services (show :: rest) s (tr, s', Raised e)
| fp_next show rest s tr s1 tr' s' o :
    first_match config show (Stream_from_show show) enabled_services s
      (tr, s1, Ok tt) ->
    fallback_pass config enabled_services rest s1 (tr', s', o) ->
    fallback_pass config enabled_services (show :: rest) s (tr ++ tr', s', o).

(** Modelled from the spec: the store is not part of the sources at hand.
    The specification makes the persisted record "the source of truth for
    already announced": an episode that has been added is seen from then
    on, and clearing the delayed flag of a show does not forget it. *)
Record remembers : Prop := {
  added_is_seen : forall stream number url d d',
    update C (AddEpisode (stream_show stream) number url) d = (Ok tt, d') ->
    query C (StreamHasEpisode stream number) d' = Ok true;
  seen_stays_seen : forall show delayed stream number r d d',
    update C (SetShowDelayed show delayed) d = (r, d') ->
    query C (StreamHasEpisode stream number) d = Ok true ->
    query C (StreamHasEpisode stream number) d' = Ok true
}.
End Semantics.

(** ** An in-memory implementation of the collaborators

    Modelled from the spec: the persistence layer, the service registry and
    the publishing client are not part of the sources at hand.  This
    implementation follows sections 3 and 6 of the specification; it serves
    to run the module on concrete inputs. *)
Module Memory.

Record DB : Type := {
  services : list Service;
  streams : list Stream;
  shows : list Show;
  links : list (Z * Link);
  sites : list LinkSite;
  episodes : list (Z * PostedEpisode)
}.

(** What the outside world will answer. *)
Record World : Type := {
  generic : list Z;
  latest : list (string * Outcome (option Episode));
  accepts : bool;
  posted : list (string * string * string)
}.

Definition has_stream (d : DB) (show : Show) : bool :=
  existsb (fun st => Z.eqb (stream_show st) (show_id show)) (streams d).

Definition find_or {A} (what : string) (f : A -> bool) (l : list A)
  : Outcome A :=
  match List.find f l with
  | Some a => Ok a
  | None => Raised (CollaboratorError what)
  end.

Definition read {X} (q : Query X) (d : DB) : Outcome X :=
  match q in Query X return Outcome X with
  | GetServices enabled =>
      Ok (List.filter (fun sv => Bool.eqb (service_enabled sv) enabled)
            (services d))
  | GetStreamsOfService service =>
      Ok (List.filter
            (fun st => Z.eqb (stream_service st) (service_id service))
            (streams d))
  | GetStreamsOfShow show =>
      Ok (List.filter (fun st => Z.eqb (stream_show st) (show_id show))
            (streams d))
  | GetShow stream =>
      Ok (List.find (fun sh => Z.eqb (show_id sh) (stream_show stream))
            (shows d))
  | GetShowsMissingStream =>
      Ok (List.filter (fun sh => negb (has_stream d sh)) (shows d))
  | GetShowsDelayed => Ok (List.filter show_delayed (shows d))
  | GetService id =>
      find_or "no such service" (fun sv => Z.eqb (service_id sv) id)
        (services d)
  | GetLinks show =>
      Ok (List.map snd
            (List.filter (fun l => Z.eqb (fst l) (show_id show)) (links d)))
  | GetLinkSite id =>
      find_or "no such site" (fun si => Z.eqb (site_id si) id) (sites d)
  | GetEpisodes show =>
      Ok (List.map snd
            (List.filter (fun e => Z.eqb (fst e) (show_id show))
               (episodes d)))
  | StreamHasEpisode stream number =>
      Ok (existsb
            (fun e => Z.eqb (fst e) (stream_show stream)
                      && Z.eqb (posted_number (snd e)) number)
            (episodes d))
  end.

Definition with_delayed (delayed : bool) (sh : Show) : Show :=
  {| show_id := show_id sh; show_name := show_name sh;
     show_key := show_key sh; show_enabled := show_enabled sh;
     show_delayed := delayed; show_has_source := show_has_source sh |}.

Definition write (u : Update) (d : DB) : Outcome unit * DB :=
  match u with
  | AddEpisode show number post_url =>
      (Ok tt,
       {| services := services d; streams := streams d; shows := shows d;
          links := links d; sites := sites d;
          episodes :=
            episodes d
            ++ [(show, {| posted_number := number;
                          posted_link := post_url |})] |})
  | SetShowDelayed show delayed =>
      (Ok tt,
       {| services := services d; streams := streams d;
          shows :=
            List.map (fun sh =>
              if Z.eqb (show_id sh) (show_id show)
              then with_delayed delayed sh else sh) (shows d);
          links := links d; sites := sites d; episodes := episodes d |})
  end.

Definition lookup_latest (key : string)
    (l : list (string * Outcome (option Episode)))
  : Outcome (option Episode) :=
  match List.find (fun e => String.eqb (fst e) key) l with
  | Some e => snd e
  | None => Ok None
  end.

Definition outside {X} (e : External X) (w : World) : Outcome X * World :=
  match e in External X return Outcome X * World with
  | InitReddit _ => (Ok tt, w)
  | SubmitTextPost sub title body =>
      if accepts w then
        (Ok (Some {| post_id := "abc" |}),
         {| generic := generic w; latest := latest w; accepts := accepts w;
            posted := posted w ++ [(sub, title, body)] |})
      else (Ok None, w)
  | GetShortlinkFromId id => (Ok ("https://redd.it/" +:+ id), w)
  | GetServiceHandler service =>
      (Ok {| handler_name := service_name service;
             handler_is_generic :=
               existsb (Z.eqb (service_id service)) (generic w) |}, w)
  | GetLatestEpisode _ stream _ =>
      (lookup_latest (stream_show_key stream) (latest w), w)
  | GetStreamLink _ stream => (Ok (stream_show_key stream), w)
  | GetLinkHandler site => (Ok {| link_handler_name := site_name site |}, w)
  | GetLink _ link => (Ok (link_key link), w)
  end.

Definition collaborators : Collaborators DB World :=
  {| query := @read; update := write; external := @outside |}.

End Memory.

(** ** Sample data *)
Module Sample.

Definition config : Config :=
  {| useragent := "holo";
     debug := false;
     subreddit := "anime";
     post_title := "{show_name} - Episode {episode}{episode_name}";
     post_body := "{spoiler}Streams:" +:+ newline +:+ "{streams}";
     post_formats :=
       {[ "spoiler" := "Spoilers!";
          "stream" := "{service_name}: {stream_link}" ]} |}.

Definition crunchy : Service :=
  {| service_id := 1; service_name := "S";
     service_enabled := true; service_use_in_post := true |}.
Definition nyaa : Service :=
  {| service_id := 2; service_name := "N";
     service_enabled := true; service_use_in_post := false |}.

Definition show1 : Show :=
  {| show_id := 10; show_name := "First"; show_key := "first";
     show_enabled := true; show_delayed := false;
     show_has_source := false |}.
Definition show2 : Show :=
  {| show_id := 20; show_name := "Second"; show_key := "second";
     show_enabled := true; show_delayed := false;
     show_has_source := true |}.
Definition show3 : Show :=
  {| show_id := 30; show_name := "Third"; show_key := "third";
     show_enabled := true; show_delayed := true;
     show_has_source := false |}.

Definition stream1 : Stream :=
  {| stream_show := 10; stream_service := 1; stream_show_key := "L";
     stream_remote_offset := 12; stream_display_offset := 1;
     stream_active := true |}.
Definition stream2 : Stream :=
  {| stream_show := 20; stream_service := 1; stream_show_key := "M";
     stream_remote_offset := 0; stream_display_offset := 0;
     stream_active := true |}.
Definition idle_stream : Stream :=
  {| stream_show := 20; stream_service := 1; stream_show_key := "M";
     stream_remote_offset := 0; stream_display_offset := 0;
     stream_active := false |}.

Definition episode (n : Z) : Episode :=
  {| ep_number := n; ep_name := Some "Pilot"; ep_is_live := true |}.
Definition unaired (n : Z) : Episode :=
  {| ep_number := n; ep_name := None; ep_is_live := false |}.

Definition db : Memory.DB :=
  {| Memory.services := [crunchy; nyaa];
     Memory.streams := [stream1; stream2];
     Memory.shows := [show1; show2; show3];
     Memory.links := [];
     Memory.sites := [];
     Memory.episodes := [] |}.

Definition web (accepts : bool)
    (latest : list (string * Outcome (option Episode))) : Memory.World :=
  {| Memory.generic := [2%Z];
     Memory.latest := latest;
     Memory.accepts := accepts;
     Memory.posted := [] |}.

Definition start (accepts : bool)
    (latest : list (string * Outcome (option Episode)))
  : State Memory.DB Memory.World :=
  Build_State db (web accepts latest).

(** Two of the iterations that a set of shows allows: each show once, in
    the order of its last occurrence in the two lists, and the same shows
    the other way round. *)
Definition iteration : SetIteration := fun a b => remove_dups (a ++ b).
Definition backwards : SetIteration :=
  fun a b => reverse (remove_dups (a ++ b)).

(** A fourth show, without a stream, and a store that holds it. *)
Definition show4 : Show :=
  {| show_id := 40; show_name := "Fourth"; show_key := "fourth";
     show_enabled := true; show_delayed := false;
     show_has_source := false |}.

Definition db4 : Memory.DB :=
  {| Memory.services := [crunchy; nyaa];
     Memory.streams := [stream1; stream2];
     Memory.shows := [show1; show2; show3; show4];
     Memory.links := [];
     Memory.sites := [];
     Memory.episodes := [] |}.

(** A configuration whose body asks for the streams block and shows the
    number of the episode. *)
Definition config_with_streams : Config :=
  {| useragent := "holo";
     debug := false;
     subreddit := "anime";
     post_title := "{show_name} - Episode {episode}{episode_name}";
     post_body := "Episode {episode} {streams}";
     post_formats := {[ "stream" := "{service_name}: {stream_link}" ]} |}.

End Sample.

(** ** Further specification-side definitions *)

(** A literal text as a template author writes it: every brace doubled. *)
Fixpoint escape_braces (s : string) : string :=
  match s with
  | "" => ""
  | String c s' =>
      if (Ascii.eqb c "{" || Ascii.eqb c "}")%char
      then String c (String c (escape_braces s'))
      else String c (escape_braces s')
  end.

(** The template that a list of items stands for when its texts may hold
    braces, which are then written doubled. *)
Definition escaped_template_of (items : list item) : string :=
  foldr (fun i s =>
           match i with
           | Text t => escape_braces t +:+ s
           | Hole name => ("{" +:+ name +:+ "}") +:+ s
           end) "" items.

Definition plain_hole (i : item) : bool :=
  match i with
  | Text _ => true
  | Hole name => plain_name name
  end.

(** One pass of the renderer over an item: a hole whose name is in the
    mapping becomes text. *)
Definition fill (kwargs : gmap string value) (i : item) : item :=
  match i with
  | Text s => Text s
  | Hole name =>
      match kwargs !! name with
      | Some v => Text (str v)
      | None => Hole name
      end
  end.

(** A mapping none of whose values, once printed, holds a brace. *)
Definition brace_free (kwargs : gmap string value) : Prop :=
  forall key v, kwargs !! key = Some v ->
    no_char_in ["{"; "}"]%char (str v) = true.

(** The calls that composing a post may make: reads of the store and
    requests to the registry and to the handlers it returns. *)
Definition composer_event {X} (ev : Event X) : bool :=
  match ev with
  | Db q =>
      match q with
      | GetStreamsOfShow _ | GetService _ | GetLinks _ | GetLinkSite _
      | GetEpisodes _ => true
      | _ => false
      end
  | DbWrite _ => false
  | Ext e =>
      match e with
      | GetServiceHandler _ | GetStreamLink _ _ | GetLinkHandler _
      | GetLink _ _ => true
      | _ => false
      end
  end.

(** The calls that composing a post does not make. *)
Definition not_composer : forall X, Event X -> bool :=
  fun X ev => negb (composer_event ev).

(** The calls that the driver makes itself, outside the processor. *)
Inductive driver_call (config : Config) : Call -> Prop :=
| dc_init r :
    driver_call config (Called (Ext (InitReddit config)) r)
| dc_services r :
    driver_call config (Called (Db (GetServices true)) r)
| dc_handler service r :
    driver_call config (Called (Ext (GetServiceHandler service)) r)
| dc_streams service r :
    driver_call config (Called (Db (GetStreamsOfService service)) r)
| dc_show stream r :
    driver_call config (Called (Db (GetShow stream)) r)
| dc_latest handler stream r :
    driver_call config
      (Called (Ext (GetLatestEpisode handler stream (useragent config))) r)
| dc_missing r :
    driver_call config (Called (Db GetShowsMissingStream) r)
| dc_delayed r :
    driver_call config (Called (Db GetShowsDelayed) r).

(** The posts that the publishing client accepted in a trace, in order. *)
Definition accepted_posts (tr : list Call) : list Post :=
  flat_map (fun c =>
    match c with
    | Called ev r =>
        match ev in Event X return Outcome X -> list Post with
        | Ext e =>
            match e in External X return Outcome X -> list Post with
            | SubmitTextPost _ _ _ => fun r =>
                match r with
                | Ok (Some post) => [post]
                | _ => []
                end
            | _ => fun _ => []
            end
        | _ => fun _ => []
        end r
    end) tr.

(** The records added to the store in a trace, in order. *)
Definition added_records (tr : list Call) : list (Z * Z * string) :=
  flat_map (fun u =>
    match u with
    | AddEpisode show number url => [(show, number, url)]
    | SetShowDelayed _ _ => []
    end) (writes_of tr).

(** The identity strings handed to the handlers in a trace, in order. *)
Definition agents_of (tr : list Call) : list string :=
  flat_map (fun c =>
    match c with
    | Called ev _ =>
        match ev with
        | Ext (GetLatestEpisode _ _ agent) => [agent]
        | _ => []
        end
    end) tr.

(** The calls with an effect that one run of the processor may make, after
    its reads: none; a submission that is not accepted; an accepted
    submission whose short link cannot be had; an accepted submission, its
    short link and the record; the same followed by the clearing of the
    delayed flag of a delayed show. *)
Inductive processor_effects (config : Config) (show : Show) (stream : Stream)
    (episode : Episode) : list Call -> Prop :=
| pe_none :
    processor_effects config show stream episode []
| pe_refused title body r :
    debug config = false ->
    strip title = title -> strip body = body ->
    (forall post, r <> Ok (Some post)) ->
    processor_effects config show stream episode
      [Called (Ext (SubmitTextPost (subreddit config) title body)) r]
| pe_no_link title body post e :
    debug config = false ->
    strip title = title -> strip body = body ->
    processor_effects config show stream episode
      [Called (Ext (SubmitTextPost (subreddit config) title body))
         (Ok (Some post));
       Called (Ext (GetShortlinkFromId (post_id post))) (Raised e)]
| pe_added title body post url ra :
    debug config = false ->
    strip title = title -> strip body = body ->
    show_delayed show = false \/ (exists e, ra = Raised e) ->
    processor_effects config show stream episode
      [Called (Ext (SubmitTextPost (subreddit config) title body))
         (Ok (Some post));
       Called (Ext (GetShortlinkFromId (post_id post))) (Ok url);
       Called (DbWrite (AddEpisode (stream_show stream)
                          (canonical stream episode) url)) ra]
| pe_cleared title body post url rc :
    debug config = false ->
    strip title = title -> strip body = body ->
    show_delayed show = true ->
    processor_effects config show stream episode
      [Called (Ext (SubmitTextPost (subreddit config) title body))
         (Ok (Some post));
       Called (Ext (GetShortlinkFromId (post_id post))) (Ok url);
       Called (DbWrite (AddEpisode (stream_show stream)
                          (canonical stream episode) url)) (Ok tt);
       Called (DbWrite (SetShowDelayed show false)) rc].

(** The shape of a trace of the processor: at most the one check of the
    store, then reads of the composer, then the calls with an effect. *)
Definition processor_trace (config : Config) (show : Show) (stream : Stream)
    (episode : Episode) (tr : list Call) : Prop :=
  exists check reads effects,
    tr = check ++ reads ++ effects
    /\ (check = []
        \/ exists r,
             check
             = [Called (Db (StreamHasEpisode stream
                              (canonical stream episode))) r])
    /\ Forall (fun c => call_is (@composer_event) c = true) reads
    /\ processor_effects config show stream episode effects.

(** Whether an item is the placeholder of a given name. *)
Definition is_hole (name : string) (i : item) : bool :=
  match i with
  | Text _ => false
  | Hole n => String.eqb name n
  end.

(** A list of items that asks for none of the blocks that are read from
    the store. *)
Definition no_stored_block (items : list item) : bool :=
  forallb (fun i =>
             negb (is_hole "streams" i || is_hole "links" i
                   || is_hole "discussions" i)) items.

(** * Properties *)

(** ** Strings *)

Lemma append_cons (x : ascii) (a b : string) :
  String x a +:+ b = String x (a +:+ b).
Proof. reflexivity. Qed.

Lemma append_nil_l (a : string) : "" +:+ a = a.
Proof. reflexivity. Qed.

Lemma append_assoc (a b c : string) : (a +:+ b) +:+ c = a +:+ (b +:+ c).
Proof.
  induction a as [| x a IH]; [reflexivity|].
  rewrite !append_cons. now rewrite IH.
Qed.

Lemma append_nil_r (a : string) : a +:+ "" = a.
Proof.
  induction a as [| x a IH]; [reflexivity|].
  rewrite append_cons. now rewrite IH.
Qed.

Lemma snoc_append (a b : string) (c : ascii) :
  snoc a c +:+ b = a +:+ String c b.
Proof. unfold snoc. now rewrite append_assoc. Qed.

Lemma rstrip_no_space (s : string) :
  no_char_in [] s = true ->
  (forall c, is_space c = true -> no_char_in [c] s = true) ->
  rstrip s = s.
Proof.
  intros _ Hs. induction s as [| c s IH]; [reflexivity|].
  cbn. rewrite IH.
  - destruct s; [|reflexivity].
    destruct (is_space c) eqn:Hc; [|reflexivity].
    specialize (Hs c Hc). cbn in Hs. now rewrite Ascii.eqb_refl in Hs.
  - intros c' Hc'. specialize (Hs c' Hc'). cbn in Hs.
    now apply andb_prop in Hs as [_ Hs].
Qed.

Lemma strip_no_space (s : string) :
  (forall c, is_space c = true -> no_char_in [c] s = true) ->
  strip s = s.
Proof.
  intros Hs. unfold strip.
  assert (Hl : lstrip s = s).
  { destruct s as [| c s]; [reflexivity|]. cbn.
    destruct (is_space c) eqn:Hc; [|reflexivity].
    specialize (Hs c Hc). cbn in Hs. now rewrite Ascii.eqb_refl in Hs. }
  rewrite Hl. apply rstrip_no_space; [|exact Hs].
  clear. induction s; cbn; auto.
Qed.

Lemma not_space_not_in (c x : ascii) (s : string) :
  is_space c = true -> is_space x = false ->
  no_char_in [c] s = true -> no_char_in [c] (String x s) = true.
Proof.
  intros Hc Hx Hs. cbn [no_char_in existsb]. rewrite Hs, andb_true_r.
  rewrite orb_false_r. apply negb_true_iff, Ascii.eqb_neq.
  intros ->. congruence.
Qed.

Lemma uint_no_space (d : Decimal.uint) (c : ascii) :
  is_space c = true -> no_char_in [c] (NilEmpty.string_of_uint d) = true.
Proof.
  intros Hc. induction d as [| d IH | d IH | d IH | d IH | d IH | d IH
                            | d IH | d IH | d IH | d IH];
    cbn [NilEmpty.string_of_uint];
    [reflexivity | apply not_space_not_in; [exact Hc | reflexivity | exact IH] ..].
Qed.

Lemma str_of_int_no_space (n : Z) (c : ascii) :
  is_space c = true -> no_char_in [c] (str_of_int n) = true.
Proof.
  intros Hc. unfold str_of_int, NilZero.string_of_int.
  assert (Huint : forall d, no_char_in [c] (NilZero.string_of_uint d) = true).
  { intros d. unfold NilZero.string_of_uint.
    destruct d; try (apply uint_no_space; exact Hc).
    apply not_space_not_in; [exact Hc | reflexivity | reflexivity]. }
  destruct (Z.to_int n) as [d | d]; [apply Huint|].
  apply not_space_not_in; [exact Hc | reflexivity | apply Huint].
Qed.

(** [str(n).strip()] is [str(n)]. *)
Lemma strip_str_of_int (n : Z) : strip (str_of_int n) = str_of_int n.
Proof. apply strip_no_space. intros c Hc. now apply str_of_int_no_space. Qed.

(** ** The template renderer *)

Lemma format_from_text kwargs (s : string) : forall out rest,
  no_char_in ["{"; "}"]%char s = true ->
  format_from kwargs out InLiteral (s +:+ rest)
  = format_from kwargs (out +:+ s) InLiteral rest.
Proof.
  induction s as [| c s IH]; intros out rest Hs.
  - cbn. now rewrite append_nil_r.
  - cbn in Hs. apply andb_prop in Hs as [Hc Hs].
    apply negb_true_iff in Hc. rewrite !orb_false_iff in Hc.
    destruct Hc as (Hopen & Hclose & _).
    rewrite append_cons. cbn [format_from fmt_step].
    rewrite Hopen, Hclose. rewrite IH by exact Hs.
    now rewrite snoc_append.
Qed.

Lemma format_from_name kwargs (name : string) : forall out acc rest,
  no_char_in ["{"; "}"; "["; "."; "!"; ":"]%char name = true ->
  format_from kwargs out (InName acc false) (name +:+ rest)
  = format_from kwargs out (InName (acc +:+ name) false) rest.
Proof.
  induction name as [| c name IH]; intros out acc rest Hname.
  - cbn. now rewrite append_nil_r.
  - cbn in Hname. apply andb_prop in Hname as [Hc Hname].
    apply negb_true_iff in Hc. rewrite !orb_false_iff in Hc.
    destruct Hc as (Hopen & Hclose & Hbracket & _ & Hbang & Hcolon & _).
    rewrite append_cons. cbn [format_from fmt_step name_char].
    rewrite Hopen, Hclose, Hbracket, Hbang, Hcolon.
    rewrite IH by exact Hname. now rewrite snoc_append.
Qed.

Lemma split_first_plain (name : string) :
  no_char_in ["{"; "}"; "["; "."; "!"; ":"]%char name = true ->
  split_first name = (name, "").
Proof.
  induction name as [| c name IH]; intros Hname; [reflexivity|].
  cbn in Hname. apply andb_prop in Hname as [Hc Hname].
  apply negb_true_iff in Hc. rewrite !orb_false_iff in Hc.
  destruct Hc as (_ & _ & Hbracket & Hdot & _).
  cbn. rewrite Hdot, Hbracket. cbn. now rewrite IH.
Qed.

Lemma is_digit_value (c : ascii) :
  is_digit c = true -> (0 <= digit_value c <= 9)%Z.
Proof.
  unfold is_digit, digit_value. intros Hc.
  apply andb_prop in Hc as [Hlow Hhigh].
  apply Nat.leb_le in Hlow, Hhigh. lia.
Qed.

(** The test that the interpreter makes before it takes a digit in is the
    test that the number with that digit is out of range. *)
Lemma overflow_check (accumulator d : Z) :
  ((PY_SSIZE_T_MAX - d) / 10 <? accumulator)%Z
  = negb (accumulator * 10 + d <=? PY_SSIZE_T_MAX)%Z.
Proof.
  generalize PY_SSIZE_T_MAX. intros m.
  destruct (Z.ltb_spec ((m - d) / 10) accumulator) as [Hlt | Hge];
    destruct (Z.leb_spec (accumulator * 10 + d) m) as [Hle | Hgt];
    try reflexivity; exfalso.
  - assert (Hlow : (accumulator <= (m - d) / 10)%Z)
      by (apply Z.div_le_lower_bound; lia).
    lia.
  - assert (Hup : ((m - d) / 10 < accumulator)%Z)
      by (apply Z.div_lt_upper_bound; lia).
    lia.
Qed.

(** A name that is not a number, and whose leading digits fit, is not
    taken for an index. *)
Lemma get_integer_from_name (name : string) : forall accumulator,
  all_digits name = false ->
  digits_fit_from accumulator name = true ->
  get_integer_from accumulator name = Ok None.
Proof.
  induction name as [| c name IH]; intros accumulator Hnum Hfit;
    [discriminate|].
  cbn [get_integer_from digits_fit_from all_digits] in *.
  destruct (is_digit c); [| reflexivity].
  cbn [andb] in Hnum. apply andb_prop in Hfit as [Hle Hfit].
  rewrite overflow_check, Hle. cbn [negb]. now apply IH.
Qed.

Lemma get_integer_name (name : string) :
  all_digits name = false -> digits_fit name = true ->
  get_integer name = Ok None.
Proof.
  intros Hnum Hfit. destruct name as [| c name]; [reflexivity|].
  now apply get_integer_from_name.
Qed.

Lemma plain_name_parts (name : string) :
  plain_name name = true ->
  all_digits name = false
  /\ no_char_in ["{"; "}"; "["; "."; "!"; ":"]%char name = true
  /\ digits_fit name = true.
Proof.
  unfold plain_name. intros Hname.
  apply andb_prop in Hname as [Hname Hfit].
  apply andb_prop in Hname as [Hnum Hname].
  apply negb_true_iff in Hnum. auto.
Qed.

Lemma render_field_plain kwargs (name : string) :
  plain_name name = true ->
  render_field kwargs name None "" = Ok (render_item kwargs (Hole name)).
Proof.
  intros Hplain. apply plain_name_parts in Hplain as (Hnum & Hname & Hfit).
  unfold render_field. rewrite split_first_plain by exact Hname.
  rewrite get_integer_name by assumption.
  assert (Hfirst : String.eqb name "" = false)
    by (destruct name; [discriminate | reflexivity]).
  rewrite Hfirst. cbn.
  unfold SafeDict_getitem, SafeDict_missing.
  destruct (kwargs !! name); reflexivity.
Qed.

Lemma format_from_hole kwargs (name : string) out rest :
  plain_name name = true ->
  format_from kwargs out InLiteral (("{" +:+ name +:+ "}") +:+ rest)
  = format_from kwargs (out +:+ render_item kwargs (Hole name)) InLiteral rest.
Proof.
  intros Hplain.
  pose proof (plain_name_parts name Hplain) as (Hnum & Hname & _).
  destruct name as [| c name]; [discriminate|].
  assert (Hstart :
    format_from kwargs out AfterOpen ((String c name +:+ "}") +:+ rest)
    = format_from kwargs out (InName "" false)
        ((String c name +:+ "}") +:+ rest)).
  { cbn in Hname. apply andb_prop in Hname as [Hc _].
    apply negb_true_iff in Hc. rewrite !orb_false_iff in Hc.
    destruct Hc as (Hopen & _). rewrite !append_cons.
    cbn [format_from fmt_step]. now rewrite Hopen. }
  change (format_from kwargs out InLiteral
            (("{" +:+ String c name +:+ "}") +:+ rest))
    with (format_from kwargs out AfterOpen
            ((String c name +:+ "}") +:+ rest)).
  rewrite Hstart, append_assoc, format_from_name by exact Hname.
  rewrite append_nil_l.
  change ("}" +:+ rest) with (String "}" rest).
  cbn [format_from fmt_step name_char].
  change (Ascii.eqb "}" "{") with false.
  change (Ascii.eqb "}" "[") with false.
  change (Ascii.eqb "}" "}") with true. cbn iota.
  unfold end_field. rewrite render_field_plain by exact Hplain.
  reflexivity.
Qed.

Lemma format_from_items kwargs (items : list item) : forall out,
  forallb plain_item items = true ->
  format_from kwargs out InLiteral (template_of items)
  = Ok (out +:+ render_items kwargs items).
Proof.
  induction items as [| i items IH]; intros out Hitems.
  - cbn. now rewrite append_nil_r.
  - cbn in Hitems. apply andb_prop in Hitems as [Hi Hitems].
    cbn [template_of render_items foldr].
    fold (template_of items). fold (render_items kwargs items).
    destruct i as [s | name]; cbn [item_source].
    + rewrite format_from_text by exact Hi. rewrite IH by exact Hitems.
      cbn. now rewrite append_assoc.
    + rewrite format_from_hole by exact Hi. rewrite IH by exact Hitems.
      now rewrite append_assoc.
Qed.

(** A call of [safe_format] whose keywords do not name its parameter [s]
    is the call of [format_map]. *)
Lemma safe_format_format_map (s : string) kwargs :
  kwargs !! "s" = None -> safe_format s kwargs = format_map s kwargs.
Proof. unfold safe_format. now intros ->. Qed.

(** A keyword named [s] makes the call raise, whatever the template. *)
Lemma safe_format_keyword_s (s : string) kwargs :
  is_Some (kwargs !! "s") ->
  safe_format s kwargs
  = Raised (TypeError "safe_format() got multiple values for argument 's'").
Proof. unfold safe_format. now intros [v ->]. Qed.

(** [safe_format] on a template made of plain text and plain placeholders. *)
Lemma safe_format_items kwargs (items : list item) :
  kwargs !! "s" = None ->
  forallb plain_item items = true ->
  safe_format (template_of items) kwargs = Ok (render_items kwargs items).
Proof.
  intros Hs Hitems. rewrite safe_format_format_map by exact Hs.
  apply (format_from_items kwargs items ""), Hitems.
Qed.

(** The keywords of a call that are written out in the source. *)
Ltac keywords :=
  unfold post_values;
  repeat (rewrite lookup_insert_ne by discriminate);
  first [apply lookup_empty | apply lookup_singleton_ne; discriminate].

(** C7 (as amended): on a template made of brace-free text and plain
    placeholders, and with a mapping that does not name [s], [safe_format]
    puts the value in place of every placeholder whose name is in the
    mapping, leaves every other placeholder as it is written, never
    raises, and does not mind the values that no placeholder names; so
    [safe_format("{a} and {b}", a="x")] is ["x and {b}"].  A mapping that
    names [s], the parameter of the template, makes the call raise
    [TypeError] whatever the template. *)
Theorem safe_format_plain_templates :
  (forall (kwargs : gmap string value) (items : list item),
      kwargs !! "s" = None ->
      forallb plain_item items = true ->
      safe_format (template_of items) kwargs
      = Ok (render_items kwargs items))
  /\ (forall (kwargs : gmap string value) (template : string),
        is_Some (kwargs !! "s") ->
        safe_format template kwargs
        = Raised (TypeError
                    "safe_format() got multiple values for argument 's'"))
  /\ safe_format "{a} and {b}" {[ "a" := VStr "x" ]} = Ok "x and {b}".
Proof.
  split; [exact safe_format_items|].
  split; [intros kwargs template; apply safe_format_keyword_s | reflexivity].
Qed.

(** Where C7 fails as it is stated, for every template and every mapping:
    a placeholder with a conversion, whose name is absent, is not left as
    it is written; a numbered placeholder makes [safe_format] raise, and so
    does a name headed by a number that is too large; a value supplied
    under the name [s] is not substituted, the call raises. *)
Lemma safe_format_not_verbatim :
  safe_format "{b!s}" {[ "a" := VStr "x" ]} = Ok "{b}"
  /\ safe_format "{0}" {[ "a" := VStr "x" ]}
     = Raised (ValueError "Format string contains positional fields")
  /\ safe_format "{99999999999999999999x}" {[ "a" := VStr "x" ]}
     = Raised (ValueError "Too many decimal digits in format string")
  /\ safe_format "{s}" {[ "s" := VStr "x" ]}
     = Raised (TypeError "safe_format() got multiple values for argument 's'")
  /\ ~ (forall (s : string) (kwargs : gmap string value),
          exists out, safe_format s kwargs = Ok out).
Proof.
  split; [reflexivity|]. split; [reflexivity|].
  split; [reflexivity|]. split; [reflexivity|].
  intros Hall. destruct (Hall "{0}" ∅) as [out Hout]. discriminate.
Qed.

(** ** The interpreter *)

Section RunFacts.
Context {DB World : Type} (C : Collaborators DB World).

Lemma run_bind {A B} (p : Prog A) (f : A -> Prog B) (s : State DB World) :
  run C (p ≫= f) s =
    let '(tr, s', o) := run C p s in
    match o with
    | Ok a => let '(tr', s'', o') := run C (f a) s' in (tr ++ tr', s'', o')
    | Raised e => (tr, s', Raised e)
    end.
Proof.
  revert s. induction p as [a | e | X ev k IH]; intros s.
  - cbn. destruct (run C (f a) s) as [[tr' s''] o']. reflexivity.
  - reflexivity.
  - change (run C (Vis ev k ≫= f) s)
      with (run C (Vis ev (fun x => k x ≫= f)) s).
    cbn. destruct (handle C ev s) as [[x | e] s']; [|reflexivity].
    rewrite IH. destruct (run C (k x) s') as [[tr s''] [a | e]];
      [|reflexivity].
    destruct (run C (f a) s'') as [[tr' s3] o']. reflexivity.
Qed.

Lemma run_trigger {X} (ev : Event X) (s : State DB World) :
  run C (trigger ev) s =
    ([Called ev (handle C ev s).1], (handle C ev s).2,
     (handle C ev s).1).
Proof.
  unfold trigger. cbn. destruct (handle C ev s) as [[x | e] s']; reflexivity.
Qed.

Lemma run_lift {A} (o : Outcome A) (s : State DB World) :
  run C (lift o) s = ([], s, o).
Proof. destruct o; reflexivity. Qed.

(** A program that makes no selected call leaves none in its trace. *)
Lemma avoids_trace sel {A} (p : Prog A) (s : State DB World) :
  avoids sel p -> Forall (fun c => call_is sel c = false) (trace C p s).
Proof.
  intros Hp. revert s.
  induction Hp as [a | e | X ev k Hev Hk IH]; intros s; unfold trace in *;
    cbn; try constructor.
  destruct (handle C ev s) as [[x | e] s'].
  - specialize (IH x s'). destruct (run C (k x) s') as [[tr s''] o].
    cbn in *. constructor; [exact Hev | exact IH].
  - cbn. constructor; [exact Hev | constructor].
Qed.

(** A program that makes no update leaves the store as it found it. *)
Lemma avoids_store {A} (p : Prog A) (s : State DB World) :
  avoids (@is_write) p -> store (final C p s) = store s.
Proof.
  intros Hp. revert s.
  induction Hp as [a | e | X ev k Hev Hk IH]; intros s; unfold final in *;
    cbn; try reflexivity.
  assert (Hs : store (handle C ev s).2 = store s).
  { destruct ev as [X q | u | X e]; cbn in *; try discriminate;
      [reflexivity | destruct (external C e (world s)); reflexivity]. }
  destruct (handle C ev s) as [[x | e] s']; cbn in *; [|exact Hs].
  specialize (IH x s'). destruct (run C (k x) s') as [[tr s''] o].
  cbn in *. congruence.
Qed.

Lemma writes_of_app (tr tr' : list Call) :
  writes_of (tr ++ tr') = writes_of tr ++ writes_of tr'.
Proof. unfold writes_of. apply flat_map_app. Qed.

Lemma no_write_no_writes (tr : list Call) :
  Forall (fun c => call_is (@is_write) c = false) tr -> writes_of tr = [].
Proof.
  induction 1 as [| c tr Hc _ IH]; [reflexivity|].
  destruct c as [X ev r]. destruct ev; cbn in *;
    [exact IH | discriminate | exact IH].
Qed.

Lemma writes_of_query {X} (q : Query X) r (tr : list Call) :
  writes_of (Called (Db q) r :: tr) = writes_of tr.
Proof. reflexivity. Qed.

Lemma submissions_of_query {X} (q : Query X) r (tr : list Call) :
  submissions_of (Called (Db q) r :: tr) = submissions_of tr.
Proof. reflexivity. Qed.

Lemma submissions_of_app (tr tr' : list Call) :
  submissions_of (tr ++ tr') = submissions_of tr ++ submissions_of tr'.
Proof. unfold submissions_of. apply flat_map_app. Qed.

Lemma no_publish_no_submissions (tr : list Call) :
  Forall (fun c => call_is (@is_publish) c = false) tr ->
  submissions_of tr = [].
Proof.
  induction 1 as [| c tr Hc _ IH]; [reflexivity|].
  destruct c as [X ev r]. destruct ev as [X q | u | X e]; cbn in *;
    [exact IH | exact IH |].
  destruct e; cbn in *; try exact IH. discriminate.
Qed.

Lemma avoids_submissions_of {A} (p : Prog A) (s : State DB World) :
  avoids (@is_publish) p -> submissions_of (trace C p s) = [].
Proof. intros Hp. apply no_publish_no_submissions, avoids_trace, Hp. Qed.

Lemma avoids_writes_of {A} (p : Prog A) (s : State DB World) :
  avoids (@is_write) p -> writes_of (trace C p s) = [].
Proof. intros Hp. apply no_write_no_writes, avoids_trace, Hp. Qed.

End RunFacts.

(** ** Programs that avoid a kind of call *)

Section Avoids.
Context (sel : forall X, Event X -> bool).

Lemma avoids_bind {A B} (p : Prog A) (f : A -> Prog B) :
  avoids sel p -> (forall a, avoids sel (f a)) -> avoids sel (p ≫= f).
Proof.
  intros Hp Hf. induction Hp as [a | e | X ev k Hev Hk IH].
  - apply Hf.
  - constructor.
  - change (avoids sel (Vis ev (fun x => k x ≫= f))).
    constructor; [exact Hev | exact IH].
Qed.

Lemma avoids_trigger {X} (ev : Event X) :
  sel X ev = false -> avoids sel (trigger ev).
Proof. intros Hev. constructor; [exact Hev | intros; constructor]. Qed.

Lemma avoids_lift {A} (o : Outcome A) : avoids sel (lift o).
Proof. destruct o; constructor. Qed.

Lemma avoids_for_each {A} (l : list A) (body : A -> Prog unit) :
  (forall x, avoids sel (body x)) -> avoids sel (for_each l body).
Proof.
  intros Hbody. induction l as [| x l IH]; cbn; [constructor|].
  apply avoids_bind; [apply Hbody | intros; exact IH].
Qed.

Lemma avoids_for_append {A B} (l : list A) (body : A -> Prog (option B)) :
  (forall x, avoids sel (body x)) -> avoids sel (for_append l body).
Proof.
  intros Hbody. induction l as [| x l IH]; cbn; [constructor|].
  apply avoids_bind; [apply Hbody | intros r].
  apply avoids_bind; [exact IH | intros; constructor].
Qed.

End Avoids.

(** Breaks a goal [avoids sel p] down along the structure of [p]; [tac]
    shows that a call is not selected. *)
Ltac avoid_step tac :=
  lazymatch goal with
  | |- avoids _ (_ ≫= _) => apply avoids_bind; [| intros]
  | |- avoids _ (Ret _) => constructor
  | |- avoids _ (mret _) => constructor
  | |- avoids _ (Raise _) => constructor
  | |- avoids _ (lift _) => apply avoids_lift
  | |- avoids _ (trigger _) => apply avoids_trigger; tac
  | |- avoids _ (for_append _ _) => apply avoids_for_append; intros
  | |- avoids _ (for_each _ _) => apply avoids_for_each; intros
  | |- avoids _ (if ?b then _ else _) => destruct b
  | |- avoids _ (match ?x with _ => _ end) => destruct x
  end.

Ltac avoid_with tac := repeat (avoid_step tac).
Ltac avoid := avoid_with ltac:(reflexivity).

(** ** What the composer calls

    The post composer and the text generators only read the store and ask
    the handlers; they neither write to the store nor publish. *)

Section Composer.
Context (sel : forall X, Event X -> bool).
Context (only_effects : forall X (ev : Event X),
          is_write ev = false -> is_publish ev = false -> sel X ev = false).

Local Ltac quiet := avoid_with ltac:(apply only_effects; reflexivity).

Lemma gen_text_spoiler_quiet formats show :
avoids sel (_gen_text_spoiler formats show).
Proof using Type. unfold _gen_text_spoiler. quiet. Qed.

Lemma gen_text_streams_quiet formats show :
avoids sel (_gen_text_streams formats show).
Proof using only_effects.
unfold _gen_text_streams, db.get_streams_of_show, db.get_service,
  services.get_service_handler, services.get_stream_link.
quiet.
Qed.

Lemma gen_text_links_quiet formats show :
avoids sel (_gen_text_links formats show).
Proof using only_effects.
unfold _gen_text_links, db.get_links, db.get_link_site,
  services.get_link_handler, services.get_link.
quiet.
Qed.

Lemma gen_text_discussions_quiet formats show :
avoids sel (_gen_text_discussions formats show).
Proof using only_effects.
unfold _gen_text_discussions, db.get_episodes. quiet.
Qed.

Lemma fill_block_quiet block gen text :
avoids sel gen -> avoids sel (fill_block block gen text).
Proof using Type. intros Hgen. unfold fill_block. quiet. exact Hgen. Qed.

Lemma format_post_text_quiet text formats show episode stream :
avoids sel (_format_post_text text formats show episode stream).
Proof using only_effects.
unfold _format_post_text.
repeat (apply avoids_bind; [| intros]);
  try (apply fill_block_quiet);
  auto using gen_text_spoiler_quiet, gen_text_streams_quiet,
    gen_text_links_quiet, gen_text_discussions_quiet.
- quiet.
- quiet.
Qed.

End Composer.

Lemma create_reddit_post_no_write config show stream episode submit :
  avoids (@is_write) (_create_reddit_post config show stream episode submit).
Proof.
  assert (Hsel : forall X (ev : Event X),
             is_write ev = false -> is_publish ev = false ->
             is_write ev = false) by auto.
  unfold _create_reddit_post, _create_post_contents,
    reddit.submit_text_post, reddit.get_shortlink_from_id.
  apply avoids_bind.
  - apply avoids_bind;
      [apply (format_post_text_quiet _ Hsel) | intros title].
    apply avoids_bind;
      [apply (format_post_text_quiet _ Hsel) | intros body].
    constructor.
  - intros [title body]. avoid.
Qed.

(** ** The episode processor *)

Section Processor.
Context {DB World : Type} (C : Collaborators DB World).
Context (config : Config) (show : Show) (stream : Stream).

(** The run of the processor on a live candidate, step by step. *)
Lemma run_process_live episode (s : State DB World) :
  ep_is_live episode = true ->
  run C (_process_new_episode config show stream episode) s =
    let seen := Called (Db (StreamHasEpisode stream (canonical stream episode))) in
    match query C (StreamHasEpisode stream (canonical stream episode)) (store s) with
    | Raised e => ([seen (Raised e)], s, Raised e)
    | Ok true => ([seen (Ok true)], s, Ok (adjusted stream episode))
    | Ok false =>
        let '(tr, s1, o) :=
          run C (_create_reddit_post config show stream (adjusted stream episode)
                   (negb (debug config))) s in
        match o with
        | Raised e => (seen (Ok false) :: tr, s1, Raised e)
        | Ok None => (seen (Ok false) :: tr, s1, Ok (adjusted stream episode))
        | Ok (Some url) =>
            let add := AddEpisode (stream_show stream) (canonical stream episode) url in
            let '(ra, d1) := update C add (store s1) in
            match ra with
            | Raised e =>
                (seen (Ok false) :: tr ++ [Called (DbWrite add) (Raised e)],
                 Build_State d1 (world s1), Raised e)
            | Ok u =>
                if show_delayed show then
                  let clear := SetShowDelayed show false in
                  let '(rc, d2) := update C clear d1 in
                  (seen (Ok false) :: tr
                     ++ [Called (DbWrite add) (Ok u);
                         Called (DbWrite clear) rc],
                   Build_State d2 (world s1),
                   match rc with
                   | Ok _ => Ok (adjusted stream episode)
                   | Raised e => Raised e
                   end)
                else
                  (seen (Ok false) :: tr ++ [Called (DbWrite add) (Ok u)],
                   Build_State d1 (world s1), Ok (adjusted stream episode))
            end
        end
    end.
Proof.
  intros Hlive.
  unfold _process_new_episode, db.stream_has_episode, db.add_episode,
    db.set_show_delayed.
  rewrite Hlive.
  change (ep_number episode - stream_remote_offset stream)%Z
    with (canonical stream episode).
  change (set_number episode (canonical stream episode)) with (adjusted stream episode).
  change (ep_number (adjusted stream episode)) with (canonical stream episode).
  rewrite run_bind, run_trigger. cbn.
  destruct (query C (StreamHasEpisode stream (canonical stream episode)) (store s))
    as [[|] | e]; cbn; try reflexivity.
  rewrite run_bind.
  destruct (run C (_create_reddit_post config show stream (adjusted stream episode)
                     (negb (debug config))) s) as [[tr s1] [[url|] | e]];
    cbn; rewrite ?app_nil_r; try reflexivity.
  destruct (update C (AddEpisode (stream_show stream) (canonical stream episode) url)
              (store s1)) as [[u | e] d1] eqn:Hadd; cbn; [|reflexivity].
  destruct (show_delayed show); cbn; [|reflexivity].
  destruct (update C (SetShowDelayed show false) d1) as [[u' | e] d2];
    reflexivity.
Qed.

Lemma publish_writes episode (s : State DB World) :
  writes_of (trace C (publish config show stream episode) s) = [].
Proof. apply (avoids_writes_of C), create_reddit_post_no_write. Qed.

Lemma publish_store episode (s : State DB World) :
  store (final C (publish config show stream episode) s) = store s.
Proof. apply (avoids_store C), create_reddit_post_no_write. Qed.

(** C3: a candidate that is not live is left alone: the processor makes
    no call at all (no query, no publish attempt, no update) and the state
    of the store and of the world is the one it started from. *)
Theorem not_live_is_untouched episode (s : State DB World) :
  ep_is_live episode = false ->
  run C (_process_new_episode config show stream episode) s
  = ([], s, Ok episode).
Proof.
  intros Hlive. unfold _process_new_episode. rewrite Hlive. reflexivity.
Qed.

(** The only calls of the processor on a candidate that has been seen. *)
Lemma seen_run episode (s : State DB World) :
  ep_is_live episode = true ->
  query C (StreamHasEpisode stream (canonical stream episode)) (store s)
  = Ok true ->
  run C (_process_new_episode config show stream episode) s
  = ([Called (Db (StreamHasEpisode stream (canonical stream episode)))
        (Ok true)],
     s, Ok (adjusted stream episode)).
Proof.
  intros Hlive Hseen. rewrite run_process_live by exact Hlive.
  cbn zeta. rewrite Hseen. reflexivity.
Qed.

(** Once a run of the processor has written to the store, the episode is
    seen. *)
Lemma committed_is_seen episode (s s1 : State DB World) tr1 done :
  remembers C ->
  ep_is_live episode = true ->
  run C (_process_new_episode config show stream episode) s
  = (tr1, s1, Ok done) ->
  writes_of tr1 <> [] ->
  query C (StreamHasEpisode stream (canonical stream episode)) (store s1)
  = Ok true.
Proof.
  intros [Hadd Hkeep] Hlive Hrun Hwrote.
  rewrite run_process_live in Hrun by exact Hlive. cbn zeta in Hrun.
  destruct (query C (StreamHasEpisode stream (canonical stream episode))
              (store s)) as [[|] | e].
  - inversion Hrun; subst. contradiction.
  - pose proof (publish_writes episode s) as Hnone.
    unfold publish, trace in Hnone.
    destruct (run C (_create_reddit_post config show stream
                       (adjusted stream episode) (negb (debug config))) s)
      as [[tr s'] [[url|] | e]]; cbn in Hnone.
    + destruct (update C (AddEpisode (stream_show stream)
                            (canonical stream episode) url) (store s'))
        as [[[] | e] d1] eqn:Hupd; [|discriminate].
      destruct (show_delayed show).
      * destruct (update C (SetShowDelayed show false) d1)
          as [[u | e] d2] eqn:Hclear; [|discriminate].
        inversion Hrun; subst. cbn.
        eapply Hkeep; [exact Hclear|]. eapply Hadd, Hupd.
      * inversion Hrun; subst. cbn. eapply Hadd, Hupd.
    + inversion Hrun; subst. cbn in Hwrote. rewrite Hnone in Hwrote.
      contradiction.
    + discriminate.
  - discriminate.
Qed.

(** C1: on a live candidate whose (show, canonical number) pair has a
    record, the processor only asks the store whether the episode has
    been seen: no publish call, no update, state unchanged.  So, for a
    store that remembers what was added, a second run after a run that
    committed makes that one query and changes nothing. *)
Theorem already_seen_is_noop episode (s : State DB World) :
  ep_is_live episode = true ->
  (query C (StreamHasEpisode stream (canonical stream episode)) (store s)
   = Ok true ->
   run C (_process_new_episode config show stream episode) s
   = ([Called (Db (StreamHasEpisode stream (canonical stream episode)))
         (Ok true)],
      s, Ok (adjusted stream episode)))
  /\ (forall tr1 s1 done again,
        remembers C ->
        run C (_process_new_episode config show stream episode) s
        = (tr1, s1, Ok done) ->
        writes_of tr1 <> [] ->
        ep_is_live again = true ->
        canonical stream again = canonical stream episode ->
        run C (_process_new_episode config show stream again) s1
        = ([Called (Db (StreamHasEpisode stream (canonical stream again)))
              (Ok true)],
           s1, Ok (adjusted stream again))).
Proof.
  intros Hlive. split; [apply seen_run, Hlive|].
  intros tr1 s1 done again Hlaws Hrun Hwrote Hagain Hsame.
  pose proof (committed_is_seen _ _ _ _ _ Hlaws Hlive Hrun Hwrote) as Hseen.
  rewrite <- Hsame in Hseen.
  exact (seen_run again s1 Hagain Hseen).
Qed.

(** C2: on a live candidate that has not been seen, when the publish step
    returns no URL, the processor makes no update (neither [add_episode]
    nor [set_show_delayed]), the store is the one it started from, and the
    episode is still not seen afterwards. *)
Theorem failed_publish_commits_nothing episode (s : State DB World) :
  ep_is_live episode = true ->
  query C (StreamHasEpisode stream (canonical stream episode)) (store s)
  = Ok false ->
  result C (publish config show stream episode) s = Ok None ->
  let processing := _process_new_episode config show stream episode in
  writes_of (trace C processing s) = []
  /\ store (final C processing s) = store s
  /\ query C (StreamHasEpisode stream (canonical stream episode))
       (store (final C processing s)) = Ok false
  /\ result C processing s = Ok (adjusted stream episode).
Proof.
  intros Hlive Hnew Hfail processing. subst processing.
  unfold trace at 1, final, result at 1.
  rewrite run_process_live by exact Hlive. cbn zeta. rewrite Hnew.
  pose proof (publish_writes episode s) as Hnone.
  pose proof (publish_store episode s) as Hstore.
  unfold publish, trace, final, result in *.
  destruct (run C (_create_reddit_post config show stream
                     (adjusted stream episode) (negb (debug config))) s)
    as [[tr s'] o]; cbn in *. subst o. cbn.
  rewrite Hstore. auto.
Qed.

(** The first call of the processor on a live candidate. *)
Lemma process_first_call episode (s : State DB World) :
  ep_is_live episode = true ->
  exists r rest,
    trace C (_process_new_episode config show stream episode) s
    = Called (Db (StreamHasEpisode stream (canonical stream episode))) r
      :: rest.
Proof.
  intros Hlive. unfold trace.
  rewrite run_process_live by exact Hlive. cbn zeta.
  destruct (query C (StreamHasEpisode stream (canonical stream episode))
              (store s)) as [[|] | e]; [eauto | | eauto].
  destruct (run C (_create_reddit_post config show stream
                     (adjusted stream episode) (negb (debug config))) s)
    as [[tr s'] [[url|] | e]]; [| eauto | eauto].
  destruct (update C (AddEpisode (stream_show stream)
                        (canonical stream episode) url) (store s'))
    as [[u | e] d1]; [| eauto].
  destruct (show_delayed show); [| eauto].
  destruct (update C (SetShowDelayed show false) d1) as [rc d2]. eauto.
Qed.

(** The updates that the processor can make on a live candidate. *)
Lemma process_writes episode (s : State DB World) :
  ep_is_live episode = true ->
  Forall (fun u =>
            (exists url,
                u = AddEpisode (stream_show stream)
                      (canonical stream episode) url)
            \/ u = SetShowDelayed show false)
    (writes_of (trace C (_process_new_episode config show stream episode) s)).
Proof.
  intros Hlive. unfold trace at 1.
  rewrite run_process_live by exact Hlive. cbn zeta.
  destruct (query C (StreamHasEpisode stream (canonical stream episode))
              (store s)) as [[|] | e]; [constructor | | constructor].
  pose proof (publish_writes episode s) as Hnone.
  unfold publish, trace in Hnone.
  destruct (run C (_create_reddit_post config show stream
                     (adjusted stream episode) (negb (debug config))) s)
    as [[tr s'] [[url|] | e]]; cbn [fst snd] in Hnone;
    [| cbn [fst snd]; rewrite writes_of_query, Hnone; constructor ..].
  destruct (update C (AddEpisode (stream_show stream)
                        (canonical stream episode) url) (store s'))
    as [[u | e] d1]; [destruct (show_delayed show);
      [destruct (update C (SetShowDelayed show false) d1) as [rc d2] |] |];
    cbn [fst snd]; rewrite writes_of_query, writes_of_app, Hnone; cbn;
    repeat (apply Forall_cons; split;
            [first [left; eexists; reflexivity | right; reflexivity] |]);
    apply Forall_nil_2.
Qed.

(** The value of a live candidate when the processor returns. *)
Lemma process_result episode (s : State DB World) done :
  ep_is_live episode = true ->
  result C (_process_new_episode config show stream episode) s = Ok done ->
  done = adjusted stream episode.
Proof.
  intros Hlive. unfold result.
  rewrite run_process_live by exact Hlive. cbn zeta.
  destruct (query C (StreamHasEpisode stream (canonical stream episode))
              (store s)) as [[|] | e]; cbn; [congruence | | discriminate].
  destruct (run C (_create_reddit_post config show stream
                     (adjusted stream episode) (negb (debug config))) s)
    as [[tr s'] [[url|] | e]]; cbn; [| congruence | discriminate].
  destruct (update C (AddEpisode (stream_show stream)
                        (canonical stream episode) url) (store s'))
    as [[u | e] d1]; cbn; [| discriminate].
  destruct (show_delayed show); cbn; [| congruence].
  destruct (update C (SetShowDelayed show false) d1) as [[u' | e] d2]; cbn;
    [congruence | discriminate].
Qed.

(** C4: on a live candidate that has not been seen, when the publish step
    returns a URL, the processor adds exactly the record (show of the
    stream, canonical number, URL), and after it clears the delayed flag
    of the show if and only if that flag was set; these are its only
    updates, and the store is the result of applying them. *)
Theorem publish_success_commits episode (s : State DB World) url d1 :
  ep_is_live episode = true ->
  query C (StreamHasEpisode stream (canonical stream episode)) (store s)
  = Ok false ->
  result C (publish config show stream episode) s = Ok (Some url) ->
  update C (AddEpisode (stream_show stream) (canonical stream episode) url)
    (store s) = (Ok tt, d1) ->
  let processing := _process_new_episode config show stream episode in
  writes_of (trace C processing s)
  = AddEpisode (stream_show stream) (canonical stream episode) url
    :: (if show_delayed show then [SetShowDelayed show false] else [])
  /\ store (final C processing s)
     = (if show_delayed show
        then (update C (SetShowDelayed show false) d1).2
        else d1).
Proof.
  intros Hlive Hnew Hurl Hadd processing. subst processing.
  unfold trace at 1, final.
  rewrite run_process_live by exact Hlive. cbn zeta. rewrite Hnew.
  pose proof (publish_writes episode s) as Hnone.
  rewrite <- (publish_store episode s) in Hadd.
  unfold publish, trace, final, result in *.
  destruct (run C (_create_reddit_post config show stream
                     (adjusted stream episode) (negb (debug config))) s)
    as [[tr s'] o]; cbn [fst snd] in *. subst o. rewrite Hadd.
  destruct (show_delayed show).
  - destruct (update C (SetShowDelayed show false) d1) as [rc d2].
    cbn [fst snd]. rewrite writes_of_query, writes_of_app, Hnone. auto.
  - cbn [fst snd]. rewrite writes_of_query, writes_of_app, Hnone. auto.
Qed.

(** The composer, in two parts: the content blocks first, then the three
    values and [strip]. *)
Lemma run_format_post_text text formats episode (s : State DB World) :
  run C (_format_post_text text formats show episode stream) s
  = let '(tr, s', filled) := run C (fill_blocks text formats show) s in
    (tr, s', inject (post_values show episode stream) filled).
Proof.
  unfold _format_post_text, fill_blocks.
  rewrite (run_bind C (fill_block "spoiler" _ _)).
  rewrite (run_bind C (fill_block "spoiler" _ _)).
  destruct (run C (fill_block "spoiler" (_gen_text_spoiler formats show) text)
              s) as [[tr1 s1] [text1 | e]]; [| reflexivity].
  rewrite (run_bind C (fill_block "streams" _ _)).
  rewrite (run_bind C (fill_block "streams" _ _)).
  destruct (run C (fill_block "streams" (_gen_text_streams formats show) text1)
              s1) as [[tr2 s2] [text2 | e]]; [| reflexivity].
  rewrite (run_bind C (fill_block "links" _ _)).
  rewrite (run_bind C (fill_block "links" _ _)).
  destruct (run C (fill_block "links" (_gen_text_links formats show) text2)
              s2) as [[tr3 s3] [text3 | e]]; [| reflexivity].
  rewrite (run_bind C (fill_block "discussions" _ _)).
  destruct (run C (fill_block "discussions"
                     (_gen_text_discussions formats show) text3) s3)
    as [[tr4 s4] [text4 | e]]; [| reflexivity].
  cbn zeta. rewrite run_bind, run_lift.
  unfold inject, post_values, display_number.
  destruct (safe_format text4 _) as [out | e];
    cbn; rewrite ?app_nil_r; reflexivity.
Qed.

(** Title and body: the blocks of the title, the values, the blocks of
    the body, the values. *)
Lemma run_create_post_contents episode (s : State DB World) :
  let titled := fill_blocks (post_title config) (post_formats config) show in
  let bodied := fill_blocks (post_body config) (post_formats config) show in
  let values := post_values show episode stream in
  run C (_create_post_contents config show stream episode) s
  = let '(trt, st, ft) := run C titled s in
    match inject values ft with
    | Raised e => (trt, st, Raised e)
    | Ok title =>
        let '(trb, sb, fb) := run C bodied st in
        (trt ++ trb, sb,
         match inject values fb with
         | Ok body => Ok (title, body)
         | Raised e => Raised e
         end)
    end.
Proof.
  intros titled bodied values. unfold _create_post_contents.
  rewrite run_bind, run_format_post_text. fold titled values.
  destruct (run C titled s) as [[trt st] ft].
  destruct (inject values ft) as [title | e]; [| reflexivity].
  rewrite run_bind, run_format_post_text. fold bodied values.
  destruct (run C bodied st) as [[trb sb] fb].
  destruct (inject values fb) as [body | e];
    cbn; rewrite ?app_nil_r; reflexivity.
Qed.

(** The run of the publish step, after the post has been composed. *)
Lemma run_create_reddit_post episode submit (s : State DB World) :
  run C (_create_reddit_post config show stream episode submit) s
  = let '(trc, sc, oc) :=
      run C (_create_post_contents config show stream episode) s in
    match oc with
    | Raised e => (trc, sc, Raised e)
    | Ok (title, body) =>
        if submit then
          let post := SubmitTextPost (subreddit config) title body in
          let '(rp, sp) := handle C (Ext post) sc in
          match rp with
          | Raised e => (trc ++ [Called (Ext post) (Raised e)], sp, Raised e)
          | Ok None => (trc ++ [Called (Ext post) (Ok None)], sp, Ok None)
          | Ok (Some accepted) =>
              let link := GetShortlinkFromId (post_id accepted) in
              let '(rl, sl) := handle C (Ext link) sp in
              (trc ++ [Called (Ext post) (Ok (Some accepted));
                       Called (Ext link) rl],
               sl,
               match rl with
               | Ok url => Ok (Some url)
               | Raised e => Raised e
               end)
          end
        else (trc, sc, Ok None)
    end.
Proof.
  unfold _create_reddit_post, reddit.submit_text_post,
    reddit.get_shortlink_from_id.
  rewrite run_bind.
  destruct (run C (_create_post_contents config show stream episode) s)
    as [[trc sc] [[title body] | e]]; [| reflexivity].
  destruct submit; [| cbn; now rewrite app_nil_r].
  rewrite run_bind, run_trigger. cbn zeta.
  destruct (handle C (Ext (SubmitTextPost (subreddit config) title body)) sc)
    as [[[accepted |] | e] sp]; cbn [fst snd]; try reflexivity.
  rewrite run_bind, run_trigger.
  destruct (handle C (Ext (GetShortlinkFromId (post_id accepted))) sp)
    as [[url | e] sl]; cbn [fst snd]; try reflexivity.
Qed.

(** Composing a post submits nothing. *)
Lemma create_post_contents_submits_nothing episode (s : State DB World) :
  submissions_of (trace C (_create_post_contents config show stream episode) s)
  = [].
Proof.
  assert (Hsel : forall X (ev : Event X),
             is_write ev = false -> is_publish ev = false ->
             is_publish ev = false) by auto.
  apply avoids_submissions_of. unfold _create_post_contents.
  apply avoids_bind;
    [apply (format_post_text_quiet _ Hsel) | intros title].
  apply avoids_bind;
    [apply (format_post_text_quiet _ Hsel) | intros body].
  constructor.
Qed.

(** What the publish step hands to the publishing client: the title and
    the body that the composer returned. *)
Lemma create_reddit_post_submissions episode submit (s : State DB World)
    sub title body :
  (sub, title, body)
    ∈ submissions_of
        (trace C (_create_reddit_post config show stream episode submit) s) ->
  result C (_create_post_contents config show stream episode) s
  = Ok (title, body).
Proof.
  unfold trace, result. rewrite run_create_reddit_post.
  pose proof (create_post_contents_submits_nothing episode s) as Hquiet.
  unfold trace in Hquiet.
  destruct (run C (_create_post_contents config show stream episode) s)
    as [[trc sc] [[title0 body0] | e]]; cbn [fst snd] in *;
    [| rewrite Hquiet; intros Hin; inversion Hin].
  destruct submit; cbn [fst snd];
    [| rewrite Hquiet; intros Hin; inversion Hin].
  cbn zeta.
  destruct (handle C (Ext (SubmitTextPost (subreddit config) title0 body0)) sc)
    as [[[accepted |] | e] sp]; cbn [fst snd].
  - destruct (handle C (Ext (GetShortlinkFromId (post_id accepted))) sp)
      as [rl sl]; cbn [fst snd].
    rewrite submissions_of_app, Hquiet. cbn.
    intros Hin. apply list_elem_of_singleton in Hin. now inversion Hin.
  - rewrite submissions_of_app, Hquiet. cbn.
    intros Hin. apply list_elem_of_singleton in Hin. now inversion Hin.
  - rewrite submissions_of_app, Hquiet. cbn.
    intros Hin. apply list_elem_of_singleton in Hin. now inversion Hin.
Qed.

(** The submissions of the processor are those of its publish step. *)
Lemma process_submissions episode (s : State DB World) :
  ep_is_live episode = true ->
  forall entry,
    entry ∈ submissions_of
              (trace C (_process_new_episode config show stream episode) s) ->
    entry ∈ submissions_of (trace C (publish config show stream episode) s).
Proof.
  intros Hlive entry. unfold trace, publish.
  rewrite run_process_live by exact Hlive. cbn zeta.
  destruct (query C (StreamHasEpisode stream (canonical stream episode))
              (store s)) as [[|] | e];
    [intros Hin; inversion Hin | | intros Hin; inversion Hin].
  destruct (run C (_create_reddit_post config show stream
                     (adjusted stream episode) (negb (debug config))) s)
    as [[tr s'] [[url|] | e]]; cbn [fst snd];
    [| rewrite submissions_of_query; auto ..].
  destruct (update C (AddEpisode (stream_show stream)
                        (canonical stream episode) url) (store s'))
    as [[u | e] d1]; [destruct (show_delayed show);
      [destruct (update C (SetShowDelayed show false) d1) as [rc d2] |] |];
    cbn [fst snd]; rewrite submissions_of_query, submissions_of_app;
    cbn; rewrite app_nil_r; auto.
Qed.

(** C5: the number that the processor uses for de-duplication and for the
    record is the reported number minus the remote offset of the stream,
    in exact integer arithmetic.  The number that the composer injects
    under the name [episode] is that number plus the display offset of the
    stream, whatever the template: the composer is its content blocks
    followed by the injection of that value, of the name of the show and
    of the suffix, and every title and every body that the processor
    hands to the publishing client is the outcome of that injection into
    the template of the configuration, its blocks filled. *)
Theorem numbers_are_exact episode (s : State DB World) :
  ep_is_live episode = true ->
  let number :=
    (ep_number episode - stream_remote_offset stream)%Z in
  let shown := (number + stream_display_offset stream)%Z in
  let calls := trace C (_process_new_episode config show stream episode) s in
  let values : gmap string value :=
    {[ "show_name" := VStr (show_name show);
       "episode" := VInt shown;
       "episode_name" := VStr (episode_name_suffix episode) ]} in
  let titled := fill_blocks (post_title config) (post_formats config) show in
  let bodied := fill_blocks (post_body config) (post_formats config) show in
  (exists r rest,
      calls = Called (Db (StreamHasEpisode stream number)) r :: rest)
  /\ (forall sh n url, AddEpisode sh n url ∈ writes_of calls ->
        sh = stream_show stream /\ n = number)
  /\ (forall text formats s',
        run C (_format_post_text text formats show
                 (adjusted stream episode) stream) s'
        = let '(tr, s'', filled) := run C (fill_blocks text formats show) s' in
          (tr, s'', inject values filled))
  /\ (forall sub title body,
        (sub, title, body) ∈ submissions_of calls ->
        inject values (result C titled s) = Ok title
        /\ inject values (result C bodied (final C titled s)) = Ok body)
  /\ (forall items,
        forallb plain_item items = true ->
        inject values (Ok (template_of items))
        = Ok (strip (render_items values items)))
  /\ render_items values [Hole "episode"] = str_of_int shown.
Proof.
  intros Hlive number shown calls values titled bodied. subst calls.
  split; [apply process_first_call, Hlive|].
  split.
  { intros sh n url Hin.
    pose proof (process_writes episode s Hlive) as Hall.
    rewrite Forall_forall in Hall. apply Hall in Hin as [[url' Heq] | Heq];
      [| discriminate].
    inversion Heq; subst. auto. }
  split; [intros text formats s'; apply run_format_post_text|].
  split; cycle 1.
  { split.
    - intros items Hitems. unfold inject, values.
      rewrite safe_format_items by first [exact Hitems | keywords].
      reflexivity.
    - unfold values. cbn [render_items render_item foldr].
      rewrite lookup_insert_ne by discriminate.
      rewrite lookup_insert_eq. cbn [str]. apply append_nil_r. }
  intros sub title body Hin.
  apply (process_submissions episode s Hlive) in Hin.
  apply create_reddit_post_submissions in Hin.
  unfold result in Hin |- *. rewrite run_create_post_contents in Hin.
  change (post_values show (adjusted stream episode) stream) with values
    in Hin.
  fold titled bodied in Hin. unfold final.
  destruct (run C titled s) as [[trt st] ft]. cbn [fst snd] in *.
  destruct (inject values ft) as [title0 | e]; [| discriminate].
  destruct (run C bodied st) as [[trb sb] fb]. cbn [fst snd] in *.
  destruct (inject values fb) as [body0 | e]; [| discriminate].
  now inversion Hin.
Qed.

(** C10: on a live candidate the processor overwrites the number of the
    candidate with the canonical number before anything else.  The
    de-duplication query, the composer and the record all get the
    canonical number, the candidate comes back with it, and the reported
    number is lost: processing the returned candidate again takes the
    offset off a second time. *)
Theorem number_is_overwritten episode (s : State DB World) :
  ep_is_live episode = true ->
  let number :=
    (ep_number episode - stream_remote_offset stream)%Z in
  let overwritten := set_number episode number in
  let processing := _process_new_episode config show stream episode in
  (forall done, result C processing s = Ok done -> done = overwritten)
  /\ (exists r rest,
         trace C processing s
         = Called (Db (StreamHasEpisode stream number)) r :: rest
         /\ (r = Ok false ->
             exists tail,
               rest
               = trace C (_create_reddit_post config show stream overwritten
                            (negb (debug config))) s ++ tail))
  /\ (forall sh n url,
        AddEpisode sh n url ∈ writes_of (trace C processing s) -> n = number)
  /\ (forall s', exists r rest,
         trace C (_process_new_episode config show stream overwritten) s'
         = Called (Db (StreamHasEpisode stream
                         (number - stream_remote_offset stream)%Z)) r
           :: rest).
Proof.
  intros Hlive number overwritten processing. subst processing.
  split; [intros done; apply process_result, Hlive|].
  split.
  { unfold trace. rewrite run_process_live by exact Hlive. cbn zeta.
    destruct (query C (StreamHasEpisode stream (canonical stream episode))
                (store s)) as [[|] | e];
      [eexists _, _; split; [reflexivity | discriminate] |
       | eexists _, _; split; [reflexivity | discriminate]].
    change (set_number episode number) with (adjusted stream episode)
      in overwritten. subst overwritten.
    destruct (run C (_create_reddit_post config show stream
                       (adjusted stream episode) (negb (debug config))) s)
      as [[tr s'] [[url|] | e]]; cbn [fst snd];
      [| eexists _, _; split;
           [reflexivity | intros _; exists []; now rewrite app_nil_r] ..].
    destruct (update C (AddEpisode (stream_show stream)
                          (canonical stream episode) url) (store s'))
      as [[u | e] d1]; [destruct (show_delayed show);
        [destruct (update C (SetShowDelayed show false) d1) as [rc d2] |] |];
      cbn [fst snd]; eexists _, _; (split; [reflexivity | intros _; eauto]). }
  split.
  { intros sh n url Hin.
    pose proof (process_writes episode s Hlive) as Hall.
    rewrite Forall_forall in Hall. apply Hall in Hin as [[url' Heq] | Heq];
      [| discriminate].
    inversion Heq; subst. reflexivity. }
  intros s'. apply (process_first_call overwritten s'). exact Hlive.
Qed.

End Processor.

(** ** The discovery driver *)

Section Driver.
Context {DB World : Type} (C : Collaborators DB World).
Context (iteration : SetIteration) (config : Config).

(** The loop over the enabled services of the fallback pass follows the
    description of the specification, on whatever stream it is given. *)
Lemma check_generic_first_match show stream enabled_services :
  forall s : State DB World,
    first_match C config show stream enabled_services s
      (run C (check_generic config show stream enabled_services) s).
Proof.
  induction enabled_services as [| service rest IH]; intros s.
  - constructor.
  - cbn [check_generic]. unfold services.get_service_handler,
      services.get_latest_episode.
    rewrite run_bind, run_trigger.
    destruct (handle C (Ext (GetServiceHandler service)) s)
      as [[handler | e] s1] eqn:Hhandler; cbn [fst snd];
      [| now constructor].
    destruct (handler_is_generic handler) eqn:Hgeneric.
    + rewrite run_bind, run_trigger.
      destruct (handle C (Ext (GetLatestEpisode handler stream
                                 (useragent config))) s1)
        as [[[episode |] | e] s2] eqn:Hlatest; cbn [fst snd].
      * rewrite run_bind.
        destruct (run C (_process_new_episode config show stream episode) s2)
          as [[tr s3] done] eqn:Hprocess.
        pose proof (fm_found C config show stream service rest s handler s1
                      episode s2 tr s3 done Hhandler Hgeneric Hlatest
                      Hprocess) as Hfound.
        destruct done as [done | e]; cbn [fst snd run app] in *;
          rewrite ?app_nil_r; exact Hfound.
      * specialize (IH s2).
        destruct (run C (check_generic config show stream rest) s2)
          as [[tr s3] o]; cbn [fst snd app] in *.
        eapply fm_nothing; eassumption.
      * eapply fm_failed; eassumption.
    + specialize (IH s1).
      destruct (run C (check_generic config show stream rest) s1)
        as [[tr s3] o]; cbn [fst snd app] in *.
      eapply fm_not_generic; eassumption.
Qed.

(** The loop over the shows follows the description of the pass. *)
Lemma for_each_fallback_pass enabled_services (shows : list Show) :
  forall s : State DB World,
    fallback_pass C config enabled_services shows s
      (run C (for_each shows (fun show =>
                check_generic config show (Stream_from_show show)
                  enabled_services)) s).
Proof.
  induction shows as [| show rest IH]; intros s; [constructor|].
  cbn [for_each]. rewrite run_bind.
  pose proof (check_generic_first_match show (Stream_from_show show)
                enabled_services s) as Hfirst.
  destruct (run C (check_generic config show (Stream_from_show show)
                     enabled_services) s) as [[tr s1] [[] | e]].
  - specialize (IH s1).
    destruct (run C (for_each rest (fun show =>
                       check_generic config show (Stream_from_show show)
                         enabled_services)) s1) as [[tr' s'] o].
    exact (fp_next C config enabled_services show rest s tr s1 tr' s' o
             Hfirst IH).
  - now apply fp_raised.
Qed.

(** A pass that completes has gone through every show it was given. *)
Lemma fallback_pass_covers enabled_services (shows : list Show)
    (s : State DB World) out :
  fallback_pass C config enabled_services shows s out ->
  out.2 = Ok tt ->
  forall show, show ∈ shows ->
    exists s0 tr0 s1,
      first_match C config show (Stream_from_show show) enabled_services s0
        (tr0, s1, Ok tt)
      /\ (forall c, c ∈ tr0 -> c ∈ out.1.1).
Proof.
  induction 1 as [s | show0 rest s tr0 s1 e Hfirst
                  | show0 rest s tr0 s1 tr1 s2 o Hfirst Hrest IH];
    cbn [fst snd]; intros Hdone show Hin.
  - inversion Hin.
  - discriminate.
  - apply elem_of_cons in Hin as [-> | Hin].
    + exists s, tr0, s1. split; [exact Hfirst|].
      intros c Hc. apply elem_of_app. auto.
    + destruct (IH Hdone show Hin) as (s0 & tr' & s1' & Hmatch & Hsub).
      exists s0, tr', s1'. split; [exact Hmatch|].
      intros c Hc. apply elem_of_app. auto.
Qed.

(** The run of the fallback pass: the two queries, then the shows. *)
Lemma run_check_generic_services enabled_services (s : State DB World)
    missing delayed :
  query C GetShowsMissingStream (store s) = Ok missing ->
  query C GetShowsDelayed (store s) = Ok delayed ->
  run C (check_generic_services iteration config enabled_services) s
  = let '(tr, s', o) :=
      run C (for_each (iteration missing delayed) (fun show =>
               check_generic config show (Stream_from_show show)
                 enabled_services)) s in
    (Called (Db GetShowsMissingStream) (Ok missing)
     :: Called (Db GetShowsDelayed) (Ok delayed) :: tr, s', o).
Proof.
  intros Hmissing Hdelayed.
  unfold check_generic_services, db.get_shows_missing_stream,
    db.get_shows_delayed.
  rewrite run_bind, run_trigger. cbn [handle fst snd]. rewrite Hmissing.
  rewrite run_bind, run_trigger. cbn [handle fst snd]. rewrite Hdelayed.
  destruct (run C (for_each (iteration missing delayed) (fun show =>
                     check_generic config show (Stream_from_show show)
                       enabled_services)) s) as [[tr s'] o].
  reflexivity.
Qed.

(** [main] is the dedicated pass followed by the fallback pass over the
    services that the dedicated pass went through. *)
Lemma run_main (s : State DB World) :
  run C (main iteration config) s
  = let '(tr1, s1, o1) := run C (dedicated_pass config) s in
    match o1 with
    | Ok enabled_services =>
        let '(tr2, s2, o2) :=
          run C (check_generic_services iteration config enabled_services) s1
        in (tr1 ++ tr2, s2, o2)
    | Raised e => (tr1, s1, Raised e)
    end.
Proof.
  unfold main, dedicated_pass.
  rewrite (run_bind C (reddit.init_reddit config)).
  rewrite (run_bind C (reddit.init_reddit config)).
  destruct (run C (reddit.init_reddit config) s) as [[tr0 s0] [[] | e]];
    [| reflexivity].
  rewrite (run_bind C (db.get_services true)).
  rewrite (run_bind C (db.get_services true)).
  destruct (run C (db.get_services true) s0) as [[tr1 s1] [enabled | e]];
    [| reflexivity].
  rewrite (run_bind C (for_each enabled (check_service config))).
  rewrite (run_bind C (for_each enabled (check_service config))).
  destruct (run C (for_each enabled (check_service config)) s1)
    as [[tr2 s2] [[] | e]]; [| reflexivity].
  cbn [run].
  destruct (run C (check_generic_services iteration config enabled) s2)
    as [[tr3 s3] o3].
  now rewrite app_nil_r, <- !app_assoc.
Qed.

(** The services that the dedicated pass yields are those that the store
    reported as enabled. *)
Lemma dedicated_pass_services (s : State DB World) tr s' enabled_services :
  run C (dedicated_pass config) s = (tr, s', Ok enabled_services) ->
  Called (Db (GetServices true)) (Ok enabled_services) ∈ tr.
Proof.
  unfold dedicated_pass, reddit.init_reddit, db.get_services. intros Hrun.
  rewrite run_bind, run_trigger in Hrun.
  destruct (handle C (Ext (InitReddit config)) s) as [[[] | e] sa];
    cbn [fst snd] in Hrun; [| discriminate].
  rewrite run_bind, run_trigger in Hrun.
  destruct (handle C (Db (GetServices true)) sa) as [[enabled | e] sb];
    cbn [fst snd] in Hrun; [| discriminate].
  rewrite run_bind in Hrun.
  destruct (run C (for_each enabled (check_service config)) sb)
    as [[trl sl] [[] | e]]; cbn [fst snd run] in Hrun; [| discriminate].
  inversion Hrun; subst. right. left.
Qed.

(** An episode found on the synthetic stream keeps the number under which
    the handler reported it. *)
Lemma synthetic_first_call show episode (s : State DB World) :
  ep_is_live episode = true ->
  exists r rest,
    trace C (_process_new_episode config show (Stream_from_show show) episode)
      s
    = Called (Db (StreamHasEpisode (Stream_from_show show)
                    (ep_number episode))) r :: rest.
Proof.
  intros Hlive.
  destruct (process_first_call C config show (Stream_from_show show) episode
              s Hlive) as (r & rest & Hfirst).
  unfold canonical in Hfirst.
  cbn [Stream_from_show stream_remote_offset] in Hfirst.
  rewrite Z.sub_0_r in Hfirst. eauto.
Qed.

Lemma synthetic_records show episode (s : State DB World) sh n url :
  ep_is_live episode = true ->
  AddEpisode sh n url
    ∈ writes_of (trace C (_process_new_episode config show
                            (Stream_from_show show) episode) s) ->
  n = ep_number episode.
Proof.
  intros Hlive Hin.
  pose proof (process_writes C config show (Stream_from_show show) episode s
                Hlive) as Hall.
  rewrite Forall_forall in Hall. apply Hall in Hin as [[url' Heq] | Heq];
    [| discriminate].
  inversion Heq; subst. unfold canonical.
  cbn [Stream_from_show stream_remote_offset]. apply Z.sub_0_r.
Qed.

Lemma synthetic_display show episode text formats (s : State DB World) :
  let synthetic := Stream_from_show show in
  run C (_format_post_text text formats show (adjusted synthetic episode)
           synthetic) s
  = let '(tr, s', filled) := run C (fill_blocks text formats show) s in
    (tr, s',
     inject {[ "show_name" := VStr (show_name show);
               "episode" := VInt (ep_number episode);
               "episode_name" := VStr (episode_name_suffix episode) ]}
       filled).
Proof.
  intros synthetic. rewrite run_format_post_text.
  unfold post_values, display_number, adjusted, canonical, synthetic.
  cbn [Stream_from_show stream_remote_offset stream_display_offset
       set_number ep_number].
  rewrite Z.sub_0_r, Z.add_0_r. reflexivity.
Qed.

(** C9: the fallback pass comes after the dedicated pass and goes through
    the services that the dedicated pass went through.  It asks the store
    for the shows without a stream and for the delayed shows and takes the
    shows of the two lists one after the other, in the order in which the
    set yields them.  For each show it takes the enabled services in
    order, asks only the handlers flagged [is_generic], each on the stream
    synthesized for the show, has the episode of the first one that
    returns one processed, and consults no service after it.  The offsets
    of the synthetic stream being zero, the episode is looked up, recorded
    and shown under the number that the handler reported. *)
Theorem generic_fallback_first_match enabled_services (s : State DB World) :
  (forall show stream s0,
      first_match C config show stream enabled_services s0
        (run C (check_generic config show stream enabled_services) s0))
  /\ (forall show episode s0,
        ep_is_live episode = true ->
        let synthetic := Stream_from_show show in
        let processing :=
          _process_new_episode config show synthetic episode in
        (exists r rest,
            trace C processing s0
            = Called (Db (StreamHasEpisode synthetic (ep_number episode))) r
              :: rest)
        /\ (forall sh n url,
              AddEpisode sh n url ∈ writes_of (trace C processing s0) ->
              n = ep_number episode)
        /\ (forall text formats s1,
              run C (_format_post_text text formats show
                       (adjusted synthetic episode) synthetic) s1
              = let '(tr, s2, filled) :=
                  run C (fill_blocks text formats show) s1 in
                (tr, s2,
                 inject {[ "show_name" := VStr (show_name show);
                           "episode" := VInt (ep_number episode);
                           "episode_name" :=
                             VStr (episode_name_suffix episode) ]}
                   filled)))
  /\ (forall missing delayed,
        query C GetShowsMissingStream (store s) = Ok missing ->
        query C GetShowsDelayed (store s) = Ok delayed ->
        exists tr s' o,
          run C (check_generic_services iteration config enabled_services) s
          = (Called (Db GetShowsMissingStream) (Ok missing)
             :: Called (Db GetShowsDelayed) (Ok delayed) :: tr, s', o)
          /\ fallback_pass C config enabled_services
               (iteration missing delayed) s (tr, s', o)
          /\ (iterates_union iteration -> o = Ok tt ->
              forall show, show ∈ missing \/ show ∈ delayed ->
                exists s0 tr0 s1,
                  first_match C config show (Stream_from_show show)
                    enabled_services s0 (tr0, s1, Ok tt)
                  /\ (forall c, c ∈ tr0 -> c ∈ tr)))
  /\ (forall s0,
        run C (main iteration config) s0
        = let '(tr1, s1, o1) := run C (dedicated_pass config) s0 in
          match o1 with
          | Ok enabled =>
              let '(tr2, s2, o2) :=
                run C (check_generic_services iteration config enabled) s1
              in (tr1 ++ tr2, s2, o2)
          | Raised e => (tr1, s1, Raised e)
          end)
  /\ (forall s0 tr1 s1 enabled,
        run C (dedicated_pass config) s0 = (tr1, s1, Ok enabled) ->
        Called (Db (GetServices true)) (Ok enabled) ∈ tr1).
Proof.
  split; [intros show stream s0; apply check_generic_first_match|].
  split.
  { intros show episode s0 Hlive synthetic processing.
    split; [now apply synthetic_first_call|].
    split; [intros sh n url; now apply synthetic_records|].
    intros text formats s1. apply synthetic_display. }
  split; [| split; [exact run_main | exact dedicated_pass_services]].
  intros missing delayed Hmissing Hdelayed.
  rewrite (run_check_generic_services enabled_services s missing delayed
             Hmissing Hdelayed).
  pose proof (for_each_fallback_pass enabled_services
                (iteration missing delayed) s) as Hpass.
  destruct (run C (for_each (iteration missing delayed) (fun show =>
                     check_generic config show (Stream_from_show show)
                       enabled_services)) s) as [[tr s'] o].
  exists tr, s', o. split; [reflexivity|]. split; [exact Hpass|].
  intros Hunion Hdone show Hshow.
  apply (fallback_pass_covers enabled_services _ s _ Hpass Hdone).
  now apply Hunion.
Qed.

(** *** Runs that complete *)

Lemma bind_completes {A B} (p : Prog A) (f : A -> Prog B)
    (s : State DB World) (b : B) :
  (run C (p ≫= f) s).2 = Ok b ->
  exists a,
    (run C p s).2 = Ok a
    /\ (run C (f a) (run C p s).1.2).2 = Ok b
    /\ (run C (p ≫= f) s).1.1
       = (run C p s).1.1 ++ (run C (f a) (run C p s).1.2).1.1.
Proof.
  rewrite run_bind. destruct (run C p s) as [[tr s'] [a | e]];
    cbn [fst snd]; [| discriminate].
  destruct (run C (f a) s') as [[tr' s''] o] eqn:Hf. cbn [fst snd].
  intros ->. exists a. rewrite Hf. auto.
Qed.

Lemma trigger_completes {X} (ev : Event X) (s : State DB World) (x : X) :
  (run C (trigger ev) s).2 = Ok x ->
  (run C (trigger ev) s).1.1 = [Called ev (Ok x)].
Proof. rewrite run_trigger. cbn [fst snd]. now intros ->. Qed.

(** A loop that completes has run its body on every element, and every
    call of the body is in the trace of the loop. *)
Lemma for_each_completes {A} (l : list A) (body : A -> Prog unit) :
  forall s : State DB World,
    (run C (for_each l body) s).2 = Ok tt ->
    forall x, x ∈ l ->
      exists s',
        (run C (body x) s').2 = Ok tt
        /\ (forall c, c ∈ (run C (body x) s').1.1 ->
                      c ∈ (run C (for_each l body) s).1.1).
Proof.
  induction l as [| y l IH]; intros s Hdone x Hx.
  - inversion Hx.
  - cbn [for_each] in *.
    apply bind_completes in Hdone as ([] & Hy & Hrest & Htrace).
    rewrite Htrace. apply elem_of_cons in Hx as [-> | Hx].
    + exists s. split; [exact Hy|]. intros c Hc. apply elem_of_app. auto.
    + destruct (IH _ Hrest x Hx) as (s' & Hbody & Hsub).
      exists s'. split; [exact Hbody|]. intros c Hc.
      apply elem_of_app. auto.
Qed.

Lemma check_stream_completes handler stream (s : State DB World) :
  (run C (check_stream config handler stream) s).2 = Ok tt ->
  exists found,
    Called (Db (GetShow stream)) (Ok found)
      ∈ (run C (check_stream config handler stream) s).1.1
    /\ (forall show, found = Some show -> show_enabled show = true ->
        exists episode,
          Called (Ext (GetLatestEpisode handler stream (useragent config)))
            (Ok episode)
            ∈ (run C (check_stream config handler stream) s).1.1).
Proof.
  unfold check_stream, db.get_show, services.get_latest_episode.
  intros Hdone.
  apply bind_completes in Hdone as (found & Hshow & Hrest & Htrace).
  rewrite Htrace. apply trigger_completes in Hshow as Hfirst.
  rewrite Hfirst. exists found. split; [apply elem_of_app; left; left|].
  intros show -> Henabled. rewrite Henabled in Hrest |- *.
  cbn [negb] in *.
  apply bind_completes in Hrest as (episode & Hlatest & _ & Hlater).
  rewrite Hlater. apply trigger_completes in Hlatest as Hprobe.
  rewrite Hprobe. exists episode.
  apply elem_of_app. right. apply elem_of_app. left. left.
Qed.

Lemma check_service_completes service (s : State DB World) :
  (run C (check_service config service) s).2 = Ok tt ->
  exists handler streams,
    Called (Ext (GetServiceHandler service)) (Ok handler)
      ∈ (run C (check_service config service) s).1.1
    /\ Called (Db (GetStreamsOfService service)) (Ok streams)
         ∈ (run C (check_service config service) s).1.1
    /\ (forall stream, stream ∈ streams ->
        exists found,
          Called (Db (GetShow stream)) (Ok found)
            ∈ (run C (check_service config service) s).1.1
          /\ (forall show, found = Some show -> show_enabled show = true ->
              exists episode,
                Called (Ext (GetLatestEpisode handler stream
                               (useragent config))) (Ok episode)
                  ∈ (run C (check_service config service) s).1.1)).
Proof.
  unfold check_service, services.get_service_handler,
    db.get_streams_of_service.
  intros Hdone.
  apply bind_completes in Hdone as (handler & Hhandler & Hrest & Htrace).
  rewrite Htrace. apply trigger_completes in Hhandler as Hfirst.
  rewrite Hfirst.
  apply bind_completes in Hrest as (streams & Hstreams & Hloop & Hlater).
  rewrite Hlater. apply trigger_completes in Hstreams as Hsecond.
  rewrite Hsecond. exists handler, streams.
  split; [apply elem_of_app; left; left|].
  split; [apply elem_of_app; right; apply elem_of_app; left; left|].
  intros stream Hstream.
  destruct (for_each_completes _ _ _ Hloop stream Hstream)
    as (s' & Hbody & Hsub).
  destruct (check_stream_completes _ _ _ Hbody) as (found & Hshow & Hprobe).
  exists found.
  split; [do 2 (apply elem_of_app; right); auto|].
  intros show Hfound Henabled.
  destruct (Hprobe show Hfound Henabled) as (episode & Hin).
  exists episode. do 2 (apply elem_of_app; right). auto.
Qed.

(** C8 (as amended): a run of the driver in which no exception is raised
    goes through the whole iteration, whatever the outcome for each show:
    every stream of every enabled service is looked up, the handler is
    asked for the latest episode of every stream whose show exists and is
    enabled, and the fallback pass is run for every show that misses a
    stream or is delayed, in whatever order the set of these shows yields
    them. *)
Theorem unfailing_run_checks_every_stream (s : State DB World) :
  iterates_union iteration ->
  result C (main iteration config) s = Ok tt ->
  let tr := trace C (main iteration config) s in
  exists enabled_services,
    Called (Db (GetServices true)) (Ok enabled_services) ∈ tr
    /\ (forall service, service ∈ enabled_services ->
        exists handler streams,
          Called (Ext (GetServiceHandler service)) (Ok handler) ∈ tr
          /\ Called (Db (GetStreamsOfService service)) (Ok streams) ∈ tr
          /\ (forall stream, stream ∈ streams ->
              exists found,
                Called (Db (GetShow stream)) (Ok found) ∈ tr
                /\ (forall show,
                      found = Some show -> show_enabled show = true ->
                      exists episode,
                        Called (Ext (GetLatestEpisode handler stream
                                       (useragent config))) (Ok episode)
                          ∈ tr)))
    /\ (exists missing delayed,
          Called (Db GetShowsMissingStream) (Ok missing) ∈ tr
          /\ Called (Db GetShowsDelayed) (Ok delayed) ∈ tr
          /\ (forall show, show ∈ missing \/ show ∈ delayed ->
              exists s',
                forall c,
                  c ∈ trace C (check_generic config show
                                 (Stream_from_show show) enabled_services) s'
                  -> c ∈ tr)).
Proof.
  intros Hunion Hdone tr. subst tr. unfold result, trace in Hdone |- *.
  unfold main, reddit.init_reddit, db.get_services in Hdone |- *.
  apply bind_completes in Hdone as ([] & _ & Hrest & Htrace).
  rewrite Htrace.
  apply bind_completes in Hrest as (enabled & Hservices & Hrest & Hlater).
  rewrite Hlater. apply trigger_completes in Hservices as Hsecond.
  rewrite Hsecond.
  apply bind_completes in Hrest as ([] & Hloop & Hgeneric & Hpasses).
  rewrite Hpasses. exists enabled.
  split; [apply elem_of_app; right; apply elem_of_app; left; left|].
  split.
  - intros service Hservice.
    destruct (for_each_completes _ _ _ Hloop service Hservice)
      as (s' & Hbody & Hsub).
    destruct (check_service_completes _ _ Hbody)
      as (handler & streams & Hhandler & Hstreams & Hall).
    assert (Hincl : forall c,
               c ∈ (run C (check_service config service) s').1.1 ->
               c ∈ (run C (trigger (Ext (InitReddit config))) s).1.1
                   ++ [Called (Db (GetServices true)) (Ok enabled)]
                   ++ (run C (for_each enabled (check_service config))
                         (run C (trigger (Db (GetServices true)))
                            (run C (trigger (Ext (InitReddit config))) s).1.2).1.2).1.1
                   ++ (run C (check_generic_services iteration config enabled)
                         (run C (for_each enabled (check_service config))
                            (run C (trigger (Db (GetServices true)))
                               (run C (trigger (Ext (InitReddit config))) s).1.2).1.2).1.2).1.1).
    { intros c Hc. apply elem_of_app. right. apply elem_of_app. right.
      apply elem_of_app. left. auto. }
    exists handler, streams. split; [auto|]. split; [auto|].
    intros stream Hstream. destruct (Hall stream Hstream) as (found & Hf & Hp).
    exists found. split; [auto|]. intros show Hfound Henabled.
    destruct (Hp show Hfound Henabled) as (episode & Hin). eauto.
  - unfold check_generic_services, db.get_shows_missing_stream,
      db.get_shows_delayed in Hgeneric |- *.
    apply bind_completes in Hgeneric as (missing & Hm & Hgeneric & Hm_tr).
    rewrite Hm_tr. apply trigger_completes in Hm as Hm_first.
    rewrite Hm_first.
    apply bind_completes in Hgeneric as (delayed & Hd & Hshows & Hd_tr).
    rewrite Hd_tr. apply trigger_completes in Hd as Hd_first.
    rewrite Hd_first. exists missing, delayed.
    split; [do 3 (apply elem_of_app; right); apply elem_of_app; left; left|].
    split; [do 4 (apply elem_of_app; right); apply elem_of_app; left; left|].
    intros show Hshow. apply Hunion in Hshow.
    destruct (for_each_completes _ _ _ Hshows show Hshow)
      as (s' & _ & Hsub).
    exists s'. intros c Hc. do 5 (apply elem_of_app; right). auto.
Qed.

End Driver.

(** ** The streams block *)

Section StreamsBlock.
Context {DB World : Type} (C : Collaborators DB World).

(** A show without any stream gets the placeholder. *)
Lemma gen_text_streams_no_stream formats show (s : State DB World) :
  query C (GetStreamsOfShow show) (store s) = Ok [] ->
  run C (_gen_text_streams formats show) s
  = ([Called (Db (GetStreamsOfShow show)) (Ok [])], s, Ok "*None*").
Proof.
  intros Hstreams. unfold _gen_text_streams, db.get_streams_of_show.
  rewrite run_bind, run_trigger. cbn [handle fst snd]. rewrite Hstreams.
  reflexivity.
Qed.

(** A loop that appends nothing builds the empty list. *)
Lemma run_for_append_skip {A B} (l : list A) (body : A -> Prog (option B))
    (s : State DB World) :
  Forall (fun x => body x = Ret None) l ->
  run C (for_append l body) s = ([], s, Ok []).
Proof.
  induction 1 as [| x rest Hx _ IH]; [reflexivity|].
  cbn [for_append]. rewrite Hx.
  change (run C (Ret None ≫= ?f) s) with (run C (f None) s). cbn beta.
  rewrite run_bind, IH. reflexivity.
Qed.

(** A show all of whose streams are inactive gets the empty string. *)
Lemma gen_text_streams_inactive formats show streams (s : State DB World) :
  query C (GetStreamsOfShow show) (store s) = Ok streams ->
  streams <> [] ->
  Forall (fun stream => stream_active stream = false) streams ->
  run C (_gen_text_streams formats show) s
  = ([Called (Db (GetStreamsOfShow show)) (Ok streams)], s, Ok "").
Proof.
  intros Hstreams Hsome Hidle.
  unfold _gen_text_streams, db.get_streams_of_show.
  rewrite run_bind, run_trigger. cbn [handle fst snd]. rewrite Hstreams.
  destruct streams as [| first others]; [contradiction|].
  cbn [length Nat.ltb Nat.leb]. rewrite run_bind.
  rewrite run_for_append_skip; [reflexivity|].
  eapply Forall_impl; [exact Hidle|]. intros stream Hstream. cbn beta.
  now rewrite Hstream.
Qed.

End StreamsBlock.

(** C6: the streams block on a show whose only stream is inactive is the
    empty string, where the claim asks for the placeholder; the placeholder
    comes out for a show without any stream, and a qualifying stream is
    rendered with the template of the format table. *)
Theorem streams_block_without_qualifying_stream :
  let formats := post_formats Sample.config in
  let idle :=
    {| Memory.services := [Sample.crunchy]; Memory.streams := [Sample.idle_stream];
       Memory.shows := [Sample.show2]; Memory.links := []; Memory.sites := [];
       Memory.episodes := [] |} in
  result Memory.collaborators (_gen_text_streams formats Sample.show2)
    (Build_State idle (Sample.web true [])) = Ok ""
  /\ result Memory.collaborators (_gen_text_streams formats Sample.show3)
       (Sample.start true []) = Ok "*None*"
  /\ result Memory.collaborators (_gen_text_streams formats Sample.show1)
       (Sample.start true []) = Ok "S: L".
Proof. repeat split; vm_compute; reflexivity. Qed.

(** ** The in-memory store *)

Lemma memory_remembers : remembers Memory.collaborators.
Proof.
  split.
  - intros stream number url d d' Hadd. cbn in Hadd.
    inversion Hadd; subst. cbn. f_equal.
    rewrite existsb_app. cbn. rewrite !Z.eqb_refl. cbn.
    now rewrite !orb_true_r.
  - intros show delayed stream number r d d' Hclear Hseen. cbn in Hclear.
    inversion Hclear; subst. exact Hseen.
Qed.

(** ** The sample iterations *)

Lemma iteration_iterates_union : iterates_union Sample.iteration.
Proof.
  intros a b show. unfold Sample.iteration.
  now rewrite elem_of_remove_dups, elem_of_app.
Qed.

Lemma backwards_iterates_union : iterates_union Sample.backwards.
Proof.
  intros a b show. unfold Sample.backwards.
  now rewrite elem_of_reverse, elem_of_remove_dups, elem_of_app.
Qed.

(** ** The properties on sample data *)

(** Where C8 fails as it is stated: the handler raises on the first stream
    of the first service, the exception leaves [main], and the second
    stream of that service, whose show is enabled, is never checked. *)
Lemma exception_aborts_discovery :
  let s := Sample.start true
             [("L", Raised (CollaboratorError "timeout"));
              ("M", Ok (Some (Sample.episode 5)))] in
  result Memory.collaborators (main Sample.iteration Sample.config) s
  = Raised (CollaboratorError "timeout")
  /\ Memory.read (GetStreamsOfService Sample.crunchy) (store s)
     = Ok [Sample.stream1; Sample.stream2]
  /\ Memory.read (GetShow Sample.stream2) (store s) = Ok (Some Sample.show2)
  /\ show_enabled Sample.show2 = true
  /\ Sample.stream2
       ∉ checked_streams
           (trace Memory.collaborators (main Sample.iteration Sample.config)
              s).
Proof.
  repeat split; try (vm_compute; reflexivity).
  intros Hin.
  assert (Hchecked : checked_streams
            (trace Memory.collaborators (main Sample.iteration Sample.config)
               (Sample.start true
                  [("L", Raised (CollaboratorError "timeout"));
                   ("M", Ok (Some (Sample.episode 5)))]))
          = [Sample.stream1]) by (vm_compute; reflexivity).
  cbv zeta in Hin. rewrite Hchecked in Hin.
  apply list_elem_of_singleton in Hin. discriminate.
Qed.

(** On a candidate that is not live, in the sample store. *)
Lemma not_live_is_untouched_witness :
  ep_is_live (Sample.unaired 3) = false
  /\ run Memory.collaborators
       (_process_new_episode Sample.config Sample.show1 Sample.stream1
          (Sample.unaired 3)) (Sample.start true [])
     = ([], Sample.start true [], Ok (Sample.unaired 3)).
Proof.
  split; [reflexivity|].
  apply (not_live_is_untouched Memory.collaborators Sample.config
           Sample.show1 Sample.stream1 (Sample.unaired 3)
           (Sample.start true [])).
  reflexivity.
Defined.

(** Episode 15 of the first stream is canonical episode 3: a first run
    commits it, a second run finds it and changes nothing. *)
Lemma already_seen_is_noop_witness :
  let s := Sample.start true [] in
  let processing :=
    _process_new_episode Sample.config Sample.show1 Sample.stream1
      (Sample.episode 15) in
  let s1 := final Memory.collaborators processing s in
  ep_is_live (Sample.episode 15) = true
  /\ writes_of (trace Memory.collaborators processing s) <> []
  /\ query Memory.collaborators
       (StreamHasEpisode Sample.stream1 3) (store s1) = Ok true
  /\ run Memory.collaborators processing s1
     = ([Called (Db (StreamHasEpisode Sample.stream1 3)) (Ok true)],
        s1, Ok (adjusted Sample.stream1 (Sample.episode 15))).
Proof.
  intros s processing s1.
  destruct (already_seen_is_noop Memory.collaborators Sample.config
              Sample.show1 Sample.stream1 (Sample.episode 15) s eq_refl)
    as [_ Hsecond].
  assert (Hwrote : writes_of (trace Memory.collaborators processing s) <> [])
    by (vm_compute; discriminate).
  split; [reflexivity|]. split; [exact Hwrote|]. split; [reflexivity|].
  exact (Hsecond (trace Memory.collaborators processing s) s1
           (adjusted Sample.stream1 (Sample.episode 15))
           (Sample.episode 15) memory_remembers eq_refl Hwrote
           eq_refl eq_refl).
Defined.

(** The publishing client refuses the post. *)
Lemma failed_publish_commits_nothing_witness :
  let s := Sample.start false [] in
  let processing :=
    _process_new_episode Sample.config Sample.show1 Sample.stream1
      (Sample.episode 15) in
  ep_is_live (Sample.episode 15) = true
  /\ query Memory.collaborators
       (StreamHasEpisode Sample.stream1
          (canonical Sample.stream1 (Sample.episode 15))) (store s)
     = Ok false
  /\ result Memory.collaborators
       (publish Sample.config Sample.show1 Sample.stream1 (Sample.episode 15))
       s = Ok None
  /\ writes_of (trace Memory.collaborators processing s) = []
  /\ store (final Memory.collaborators processing s) = store s
  /\ query Memory.collaborators
       (StreamHasEpisode Sample.stream1
          (canonical Sample.stream1 (Sample.episode 15)))
       (store (final Memory.collaborators processing s))
     = Ok false
  /\ result Memory.collaborators processing s
     = Ok (adjusted Sample.stream1 (Sample.episode 15)).
Proof.
  intros s processing.
  split; [reflexivity|]. split; [reflexivity|].
  split; [vm_compute; reflexivity|].
  apply (failed_publish_commits_nothing Memory.collaborators Sample.config
           Sample.show1 Sample.stream1 (Sample.episode 15) s);
    [reflexivity | reflexivity | vm_compute; reflexivity].
Defined.

(** The end-to-end example of the specification: a delayed show, a generic
    service that reports episode 5, no record yet. *)
Lemma publish_success_commits_witness :
  let s := Sample.start true [] in
  let stream := Stream_from_show Sample.show3 in
  let url := "https://redd.it/abc" in
  let processing :=
    _process_new_episode Sample.config Sample.show3 stream
      (Sample.episode 5) in
  result Memory.collaborators
    (publish Sample.config Sample.show3 stream (Sample.episode 5)) s
  = Ok (Some url)
  /\ writes_of (trace Memory.collaborators processing s)
     = [AddEpisode 30 5 url; SetShowDelayed Sample.show3 false]
  /\ query Memory.collaborators (StreamHasEpisode stream 5)
       (store (final Memory.collaborators processing s))
     = Ok true.
Proof.
  intros s stream url processing.
  split; [vm_compute; reflexivity|].
  destruct (publish_success_commits Memory.collaborators Sample.config
              Sample.show3 stream (Sample.episode 5) s url
              (Memory.write (AddEpisode 30 5 url) (store s)).2)
    as [Hwrites Hstore];
    [reflexivity | reflexivity | vm_compute; reflexivity | reflexivity |].
  split; [exact Hwrites|].
  fold processing in Hstore. rewrite Hstore. vm_compute. reflexivity.
Defined.

(** Reported number 15, remote offset 12, display offset 1, and a body
    that asks for the streams block: the store is asked for number 3, number
    3 is recorded, and number 4 is shown in the title and in the body.
    Reported number 5 gives the negative numbers -7 and -6. *)
Lemma numbers_are_exact_witness :
  let s := Sample.start true [] in
  let calls reported :=
    trace Memory.collaborators
      (_process_new_episode Sample.config_with_streams Sample.show1
         Sample.stream1 (Sample.episode reported)) s in
  ep_is_live (Sample.episode 15) = true
  /\ (exists r rest,
         calls 15%Z
         = Called (Db (StreamHasEpisode Sample.stream1 (15 - 12)%Z)) r :: rest)
  /\ added_records (calls 15%Z) = [(10, 3, "https://redd.it/abc")%Z]
  /\ submissions_of (calls 15%Z)
     = [("anime", "First - Episode 4: Pilot", "Episode 4 S: L")]
  /\ (forall sub title body,
         (sub, title, body) ∈ submissions_of (calls 15%Z) ->
         title = "First - Episode 4: Pilot" /\ body = "Episode 4 S: L")
  /\ (exists r rest,
         calls 5%Z
         = Called (Db (StreamHasEpisode Sample.stream1 (-7)%Z)) r :: rest)
  /\ (forall sub title body,
         (sub, title, body) ∈ submissions_of (calls 5%Z) ->
         title = "First - Episode -6: Pilot" /\ body = "Episode -6 S: L").
Proof.
  intros s calls.
  destruct (numbers_are_exact Memory.collaborators Sample.config_with_streams
              Sample.show1 Sample.stream1 (Sample.episode 15) s eq_refl)
    as (Hquery & _ & _ & Hshown & _).
  destruct (numbers_are_exact Memory.collaborators Sample.config_with_streams
              Sample.show1 Sample.stream1 (Sample.episode 5) s eq_refl)
    as (Hquery' & _ & _ & Hshown' & _).
  split; [reflexivity|]. split; [exact Hquery|].
  split; [vm_compute; reflexivity|]. split; [vm_compute; reflexivity|].
  split.
  { intros sub title body Hin.
    destruct (Hshown sub title body Hin) as [Htitle Hbody].
    vm_compute in Htitle, Hbody.
    inversion Htitle. inversion Hbody. split; reflexivity. }
  split; [exact Hquery'|].
  intros sub title body Hin.
  destruct (Hshown' sub title body Hin) as [Htitle Hbody].
  vm_compute in Htitle, Hbody.
  inversion Htitle. inversion Hbody. split; reflexivity.
Defined.

(** The candidate comes back with number 3; a second pass over the same
    object would ask for number -9. *)
Lemma number_is_overwritten_witness :
  ep_is_live (Sample.episode 15) = true
  /\ (forall done,
         result Memory.collaborators
           (_process_new_episode Sample.config Sample.show1 Sample.stream1
              (Sample.episode 15)) (Sample.start true []) = Ok done ->
         ep_number done = 3%Z)
  /\ (forall s', exists r rest,
         trace Memory.collaborators
           (_process_new_episode Sample.config Sample.show1 Sample.stream1
              (set_number (Sample.episode 15) 3)) s'
         = Called (Db (StreamHasEpisode Sample.stream1 (-9)%Z)) r :: rest).
Proof.
  destruct (number_is_overwritten Memory.collaborators Sample.config
              Sample.show1 Sample.stream1 (Sample.episode 15)
              (Sample.start true []) eq_refl)
    as (Hdone & _ & _ & Hagain).
  split; [reflexivity|]. split; [| exact Hagain].
  intros done Hrun. rewrite (Hdone done Hrun). reflexivity.
Defined.

(** The example of the specification, item by item. *)
Lemma safe_format_plain_templates_witness :
  let items := [Hole "a"; Text " and "; Hole "b"] in
  let kwargs : gmap string value := {[ "a" := VStr "x"; "c" := VInt 3 ]} in
  kwargs !! "s" = None
  /\ forallb plain_item items = true
  /\ template_of items = "{a} and {b}"
  /\ safe_format (template_of items) kwargs = Ok (render_items kwargs items)
  /\ render_items kwargs items = "x and {b}"
  /\ safe_format (template_of items) (<[ "s" := VStr "y" ]> kwargs)
     = Raised (TypeError "safe_format() got multiple values for argument 's'").
Proof.
  intros items kwargs.
  destruct safe_format_plain_templates as (Hplain & Hkeyword & _).
  split; [reflexivity|]. split; [reflexivity|]. split; [reflexivity|].
  split; [apply Hplain; reflexivity|]. split; [reflexivity|].
  apply Hkeyword. exists (VStr "y"). reflexivity.
Defined.

(** A run in which the publishing client refuses every post still goes
    through both streams and through the fallback for the delayed show. *)
Lemma unfailing_run_checks_every_stream_witness :
  let s := Sample.start false
             [("L", Ok (Some (Sample.episode 15)));
              ("M", Ok (Some (Sample.episode 5)))] in
  let calls :=
    trace Memory.collaborators (main Sample.iteration Sample.config) s in
  iterates_union Sample.iteration
  /\ result Memory.collaborators (main Sample.iteration Sample.config) s
     = Ok tt
  /\ checked_streams calls
     = [Sample.stream1; Sample.stream2; Stream_from_show Sample.show3]
  /\ writes_of calls = []
  /\ exists enabled_services,
       Called (Db (GetServices true)) (Ok enabled_services) ∈ calls.
Proof.
  intros s calls.
  split; [exact iteration_iterates_union|].
  split; [vm_compute; reflexivity|].
  split; [vm_compute; reflexivity|].
  split; [vm_compute; reflexivity|].
  destruct (unfailing_run_checks_every_stream Memory.collaborators
              Sample.iteration Sample.config s iteration_iterates_union)
    as (enabled & Hin & _);
    [vm_compute; reflexivity|].
  exists enabled. exact Hin.
Defined.

(** Two shows for the fallback pass, one of them in both lists of the
    store, and one generic service.  Whichever way round the set yields
    them, each show is probed on its synthetic stream, and the episode
    found for the delayed show is recorded under the number reported. *)
Lemma generic_fallback_first_match_witness :
  let s :=
    Build_State Sample.db4
      (Sample.web true [("third", Ok (Some (Sample.episode 5)))]) in
  let enabled_services := [Sample.crunchy; Sample.nyaa] in
  let pass iteration :=
    check_generic_services iteration Sample.config enabled_services in
  query Memory.collaborators GetShowsMissingStream (store s)
  = Ok [Sample.show3; Sample.show4]
  /\ query Memory.collaborators GetShowsDelayed (store s) = Ok [Sample.show3]
  /\ checked_streams (trace Memory.collaborators (pass Sample.iteration) s)
     = [Stream_from_show Sample.show4; Stream_from_show Sample.show3]
  /\ checked_streams (trace Memory.collaborators (pass Sample.backwards) s)
     = [Stream_from_show Sample.show3; Stream_from_show Sample.show4]
  /\ added_records (trace Memory.collaborators (pass Sample.backwards) s)
     = [(30, 5, "https://redd.it/abc")%Z]
  /\ (exists tr s' o,
         run Memory.collaborators (pass Sample.backwards) s
         = (Called (Db GetShowsMissingStream) (Ok [Sample.show3; Sample.show4])
            :: Called (Db GetShowsDelayed) (Ok [Sample.show3]) :: tr, s', o)
         /\ fallback_pass Memory.collaborators Sample.config enabled_services
              [Sample.show3; Sample.show4] s (tr, s', o)
         /\ forall show,
              show ∈ [Sample.show3; Sample.show4] \/ show ∈ [Sample.show3] ->
              exists s0 tr0 s1,
                first_match Memory.collaborators Sample.config show
                  (Stream_from_show show) enabled_services s0
                  (tr0, s1, Ok tt)
                /\ (forall c, c ∈ tr0 -> c ∈ tr)).
Proof.
  intros s enabled_services pass.
  destruct (generic_fallback_first_match Memory.collaborators
              Sample.backwards Sample.config enabled_services s)
    as (_ & _ & Hpass & _ & _).
  destruct (Hpass [Sample.show3; Sample.show4] [Sample.show3]
              eq_refl eq_refl) as (tr & s' & o & Hrun & Hshows & Hcovers).
  assert (Hdone : result Memory.collaborators (pass Sample.backwards) s
                  = Ok tt) by (vm_compute; reflexivity).
  unfold result in Hdone. fold (pass Sample.backwards) in Hrun.
  rewrite Hrun in Hdone. cbn [snd] in Hdone.
  split; [reflexivity|]. split; [reflexivity|].
  split; [vm_compute; reflexivity|]. split; [vm_compute; reflexivity|].
  split; [vm_compute; reflexivity|].
  exists tr, s', o. split; [exact Hrun|]. split; [exact Hshows|].
  exact (Hcovers backwards_iterates_union Hdone).
Defined.

(** * Further properties *)

(** ** The template renderer: braces, passes and malformed templates *)

Lemma format_from_doubled_open kwargs out (t : string) :
  format_from kwargs out InLiteral (String "{" (String "{" t))
  = format_from kwargs (snoc out "{") InLiteral t.
Proof. reflexivity. Qed.

Lemma format_from_doubled_close kwargs out (t : string) :
  format_from kwargs out InLiteral (String "}" (String "}" t))
  = format_from kwargs (snoc out "}") InLiteral t.
Proof. reflexivity. Qed.

Lemma format_from_escaped kwargs (s : string) : forall out rest,
  format_from kwargs out InLiteral (escape_braces s +:+ rest)
  = format_from kwargs (out +:+ s) InLiteral rest.
Proof.
  induction s as [| c s IH]; intros out rest.
  - cbn [escape_braces]. now rewrite append_nil_l, append_nil_r.
  - cbn [escape_braces].
    destruct (Ascii.eqb c "{") eqn:Hopen; cbn [orb].
    + apply Ascii.eqb_eq in Hopen. subst c.
      rewrite !append_cons, format_from_doubled_open, IH.
      now rewrite snoc_append.
    + destruct (Ascii.eqb c "}") eqn:Hclose.
      * apply Ascii.eqb_eq in Hclose. subst c.
        rewrite !append_cons, format_from_doubled_close, IH.
        now rewrite snoc_append.
      * rewrite append_cons. cbn [format_from fmt_step].
        rewrite Hopen, Hclose. rewrite IH. now rewrite snoc_append.
Qed.

Lemma format_from_escaped_items kwargs (items : list item) : forall out,
  forallb plain_hole items = true ->
  format_from kwargs out InLiteral (escaped_template_of items)
  = Ok (out +:+ render_items kwargs items).
Proof.
  induction items as [| i items IH]; intros out Hitems.
  - cbn. now rewrite append_nil_r.
  - cbn in Hitems. apply andb_prop in Hitems as [Hi Hitems].
    cbn [escaped_template_of render_items foldr].
    fold (escaped_template_of items). fold (render_items kwargs items).
    destruct i as [s | name]; cbn [render_item].
    + rewrite format_from_escaped, IH by exact Hitems.
      now rewrite append_assoc.
    + rewrite format_from_hole by exact Hi. rewrite IH by exact Hitems.
      now rewrite append_assoc.
Qed.

(** X1: braces are written doubled.  With a mapping that does not name
    [s], a template whose literal texts have every brace doubled, and whose
    placeholders are plain, renders to the texts as they were meant, with
    the placeholders treated as usual; a text alone comes back unchanged
    whatever else the mapping holds. *)
Theorem safe_format_escaped_braces :
  forall (kwargs : gmap string value) (items : list item),
    kwargs !! "s" = None ->
    forallb plain_hole items = true ->
    safe_format (escaped_template_of items) kwargs
    = Ok (render_items kwargs items)
    /\ forall s, safe_format (escape_braces s) kwargs = Ok s.
Proof.
  intros kwargs items Hs Hitems. split.
  - rewrite safe_format_format_map by exact Hs.
    apply (format_from_escaped_items kwargs items ""), Hitems.
  - intros s. rewrite safe_format_format_map by exact Hs.
    unfold format_map.
    rewrite <- (append_nil_r (escape_braces s)), format_from_escaped.
    reflexivity.
Qed.

Lemma safe_format_escaped_braces_witness :
  let items := [Text "{x} is "; Hole "a"] in
  let kwargs : gmap string value := {[ "a" := VInt 7 ]} in
  kwargs !! "s" = None
  /\ forallb plain_hole items = true
  /\ escaped_template_of items = "{{x}} is {a}"
  /\ safe_format "{{x}} is {a}" kwargs = Ok "{x} is 7".
Proof.
  intros items kwargs.
  split; [reflexivity|]. split; [reflexivity|]. split; [reflexivity|].
  exact (proj1 (safe_format_escaped_braces kwargs items eq_refl eq_refl)).
Defined.

Lemma render_items_fill kwargs (items : list item) :
  render_items kwargs items = template_of (map (fill kwargs) items).
Proof.
  induction items as [| i items IH]; [reflexivity|].
  cbn [render_items template_of foldr map].
  fold (render_items kwargs items). fold (template_of (map (fill kwargs) items)).
  rewrite IH. f_equal. destruct i as [s | name]; cbn; [reflexivity|].
  destruct (kwargs !! name); reflexivity.
Qed.

Lemma fill_plain kwargs (items : list item) :
  brace_free kwargs ->
  forallb plain_item items = true ->
  forallb plain_item (map (fill kwargs) items) = true.
Proof.
  intros Hfree. induction items as [| i items IH]; intros Hitems;
    [reflexivity|].
  cbn in Hitems. apply andb_prop in Hitems as [Hi Hitems].
  cbn [map forallb]. rewrite IH by exact Hitems. rewrite andb_true_r.
  destruct i as [s | name]; cbn [fill]; [exact Hi|].
  destruct (kwargs !! name) as [v |] eqn:Hv; [| exact Hi].
  cbn [plain_item]. exact (Hfree name v Hv).
Qed.

Lemma render_items_union first second (items : list item) :
  render_items second (map (fill first) items)
  = render_items (first ∪ second) items.
Proof.
  induction items as [| i items IH]; [reflexivity|].
  cbn [render_items foldr map].
  fold (render_items second (map (fill first) items)).
  fold (render_items (first ∪ second) items).
  rewrite IH. f_equal. destruct i as [s | name]; cbn [fill render_item];
    [reflexivity|].
  destruct (first !! name) as [v |] eqn:Hv.
  - cbn [render_item]. now rewrite (lookup_union_Some_l _ _ _ _ Hv).
  - cbn [render_item]. now rewrite (lookup_union_r _ _ _ Hv).
Qed.

(** X2: two passes are one pass.  On a plain template, and with mappings
    that do not name [s], formatting with a first mapping whose values are
    free of braces and then formatting the result with a second mapping
    gives what a single formatting with both mappings gives, the first one
    winning on a shared name; the first pass leaves a template that the
    second can read because it keeps the placeholders it does not know. *)
Theorem safe_format_two_passes :
  forall (first second : gmap string value) (items : list item),
    first !! "s" = None ->
    second !! "s" = None ->
    forallb plain_item items = true ->
    brace_free first ->
    exists text,
      safe_format (template_of items) first = Ok text
      /\ safe_format text second
         = safe_format (template_of items) (first ∪ second)
      /\ safe_format text first = Ok text.
Proof.
  intros first second items Hfirst Hsecond Hitems Hfree.
  assert (Hboth : (first ∪ second) !! "s" = None)
    by now apply lookup_union_None.
  exists (render_items first items).
  split; [now apply safe_format_items|].
  rewrite render_items_fill.
  pose proof (fill_plain first items Hfree Hitems) as Hfilled.
  split.
  - rewrite !safe_format_items by assumption.
    now rewrite render_items_union.
  - rewrite safe_format_items by assumption.
    rewrite render_items_union, <- render_items_fill.
    f_equal. f_equal. apply map_eq. intros key.
    destruct (first !! key) as [v |] eqn:Hv.
    + now rewrite (lookup_union_Some_l _ _ _ _ Hv).
    + now rewrite (lookup_union_r _ _ _ Hv).
Qed.

Lemma brace_free_singleton key (s : string) :
  no_char_in ["{"; "}"]%char s = true ->
  brace_free {[ key := VStr s ]}.
Proof.
  intros Hs k v Hv. apply lookup_singleton_Some in Hv as [_ <-]. exact Hs.
Qed.

Lemma safe_format_two_passes_witness :
  let items := [Hole "spoiler"; Hole "show_name"; Text " #"; Hole "episode"] in
  let first : gmap string value := {[ "spoiler" := VStr "Beware. " ]} in
  let second : gmap string value :=
    {[ "show_name" := VStr "First"; "episode" := VInt 4 ]} in
  first !! "s" = None
  /\ second !! "s" = None
  /\ forallb plain_item items = true
  /\ brace_free first
  /\ safe_format (template_of items) first
     = Ok "Beware. {show_name} #{episode}"
  /\ safe_format "Beware. {show_name} #{episode}" second
     = Ok "Beware. First #4"
  /\ exists text,
       safe_format (template_of items) first = Ok text
       /\ safe_format text second
          = safe_format (template_of items) (first ∪ second)
       /\ safe_format text first = Ok text.
Proof.
  intros items first second.
  assert (Hfree : brace_free first)
    by (apply brace_free_singleton; reflexivity).
  split; [reflexivity|]. split; [reflexivity|].
  split; [reflexivity|]. split; [exact Hfree|].
  split; [reflexivity|]. split; [reflexivity|].
  exact (safe_format_two_passes first second items eq_refl eq_refl eq_refl
           Hfree).
Defined.


Lemma all_digits_plain_chars (digits : string) :
  all_digits digits = true ->
  no_char_in ["{"; "}"; "["; "."; "!"; ":"]%char digits = true.
Proof.
  induction digits as [| c digits IH]; intros Hdigits; [reflexivity|].
  cbn [all_digits] in Hdigits. apply andb_prop in Hdigits as [Hc Hdigits].
  cbn [no_char_in]. rewrite IH by exact Hdigits. rewrite andb_true_r.
  apply negb_true_iff. cbn [existsb]. rewrite !orb_false_iff.
  repeat split; try reflexivity;
    apply Ascii.eqb_neq; intros ->; discriminate.
Qed.

Lemma split_first_digits (digits : string) :
  all_digits digits = true -> split_first digits = (digits, "").
Proof. intros Hdigits. now apply split_first_plain, all_digits_plain_chars. Qed.

Lemma format_from_open_name kwargs out (c : ascii) (t : string) :
  Ascii.eqb c "{" = false ->
  format_from kwargs out AfterOpen (String c t)
  = format_from kwargs out (InName "" false) (String c t).
Proof. intros Hc. cbn [format_from fmt_step]. now rewrite Hc. Qed.

Lemma decimal_from_grows (digits : string) : forall accumulator,
  all_digits digits = true -> (0 <= accumulator)%Z ->
  (accumulator <= decimal_from accumulator digits)%Z.
Proof.
  induction digits as [| c digits IH]; intros accumulator Hdigits Hpos;
    [cbn; lia|].
  cbn [all_digits] in Hdigits. apply andb_prop in Hdigits as [Hc Hdigits].
  apply is_digit_value in Hc. cbn [decimal_from].
  specialize (IH (accumulator * 10 + digit_value c)%Z Hdigits). lia.
Qed.

(** [get_integer] on a string of digits: the number that the digits write,
    unless it is out of range. *)
Lemma get_integer_from_digits (digits : string) : forall accumulator,
  all_digits digits = true ->
  (0 <= accumulator <= PY_SSIZE_T_MAX)%Z ->
  get_integer_from accumulator digits
  = if (decimal_from accumulator digits <=? PY_SSIZE_T_MAX)%Z
    then Ok (Some (decimal_from accumulator digits))
    else Raised (ValueError "Too many decimal digits in format string").
Proof.
  induction digits as [| c digits IH]; intros accumulator Hdigits Hrange.
  - cbn. destruct (Z.leb_spec accumulator PY_SSIZE_T_MAX); [reflexivity | lia].
  - cbn [all_digits] in Hdigits. apply andb_prop in Hdigits as [Hc Hdigits].
    cbn [get_integer_from decimal_from]. rewrite Hc, overflow_check.
    apply is_digit_value in Hc.
    destruct (Z.leb_spec (accumulator * 10 + digit_value c) PY_SSIZE_T_MAX)
      as [Hfits | Hover]; cbn [negb].
    + apply IH; [exact Hdigits | lia].
    + pose proof (decimal_from_grows digits
                    (accumulator * 10 + digit_value c)%Z Hdigits) as Hgrows.
      destruct (Z.leb_spec
                  (decimal_from (accumulator * 10 + digit_value c) digits)
                  PY_SSIZE_T_MAX); [lia | reflexivity].
Qed.

Lemma render_field_positional kwargs (digits : string) conv spec :
  all_digits digits = true ->
  render_field kwargs digits conv spec
  = Raised (ValueError (positional_message digits)).
Proof.
  intros Hdigits. unfold render_field, positional_message.
  rewrite split_first_digits by exact Hdigits.
  destruct digits as [| c digits]; [reflexivity|].
  unfold get_integer, decimal.
  rewrite get_integer_from_digits by (try exact Hdigits; now vm_compute).
  destruct (decimal_from 0 (String c digits) <=? PY_SSIZE_T_MAX)%Z;
    reflexivity.
Qed.

Lemma format_from_positional kwargs out (digits rest : string) :
  all_digits digits = true ->
  format_from kwargs out InLiteral (String "{" (digits +:+ String "}" rest))
  = Raised (ValueError (positional_message digits)).
Proof.
  intros Hdigits.
  change (format_from kwargs out InLiteral
            (String "{" (digits +:+ String "}" rest)))
    with (format_from kwargs out AfterOpen (digits +:+ String "}" rest)).
  assert (Hfield :
    format_from kwargs out (InName digits false) (String "}" rest)
    = Raised (ValueError (positional_message digits))).
  { cbn [format_from fmt_step name_char].
    change (Ascii.eqb "}" "{") with false.
    change (Ascii.eqb "}" "[") with false.
    change (Ascii.eqb "}" "}") with true. cbn iota.
    unfold end_field. now rewrite render_field_positional. }
  destruct digits as [| c digits]; [exact Hfield|].
  rewrite append_cons, format_from_open_name.
  - rewrite <- append_cons.
    rewrite format_from_name by now apply all_digits_plain_chars.
    rewrite append_nil_l. exact Hfield.
  - cbn [all_digits] in Hdigits. apply andb_prop in Hdigits as [Hc _].
    apply Ascii.eqb_neq. intros ->. discriminate.
Qed.

(** X3: only a missing name is forgiven.  With a mapping that does not
    name [s], and after any brace-free text, a single opening or closing
    brace at the end of the template, a placeholder that is not closed,
    and an empty or numbered placeholder each make [safe_format] raise
    [ValueError]; for a number the message tells whether it is within the
    range of the interpreter. *)
Theorem safe_format_malformed :
  forall (kwargs : gmap string value) (text : string),
    kwargs !! "s" = None ->
    no_char_in ["{"; "}"]%char text = true ->
    safe_format (text +:+ "{") kwargs
    = Raised (ValueError "Single '{' encountered in format string")
    /\ safe_format (text +:+ "}") kwargs
       = Raised (ValueError "Single '}' encountered in format string")
    /\ (forall name,
           plain_name name = true ->
           safe_format (text +:+ "{" +:+ name) kwargs
           = Raised (ValueError "expected '}' before end of string"))
    /\ (forall digits rest,
           all_digits digits = true ->
           safe_format (text +:+ "{" +:+ digits +:+ "}" +:+ rest) kwargs
           = Raised (ValueError
                       (if (decimal digits <=? PY_SSIZE_T_MAX)%Z
                        then "Format string contains positional fields"
                        else "Too many decimal digits in format string"))).
Proof.
  intros kwargs text Hs Htext.
  rewrite !safe_format_format_map by exact Hs. unfold format_map.
  repeat split.
  - now rewrite format_from_text by exact Htext.
  - now rewrite format_from_text by exact Htext.
  - intros name Hname. rewrite safe_format_format_map by exact Hs.
    unfold format_map. rewrite format_from_text by exact Htext.
    apply plain_name_parts in Hname as (Hnum & Hname & _).
    destruct name as [| c name]; [discriminate|].
    change (format_from kwargs ("" +:+ text) InLiteral ("{" +:+ String c name))
      with (format_from kwargs ("" +:+ text) AfterOpen (String c name)).
    rewrite format_from_open_name.
    + rewrite <- (append_nil_r (String c name)).
      rewrite format_from_name by exact Hname. reflexivity.
    + cbn [no_char_in existsb] in Hname.
      apply andb_prop in Hname as [Hc _]. apply negb_true_iff in Hc.
      rewrite !orb_false_iff in Hc. tauto.
  - intros digits rest Hdigits. rewrite safe_format_format_map by exact Hs.
    unfold format_map. rewrite format_from_text by exact Htext.
    apply (format_from_positional kwargs _ digits rest Hdigits).
Qed.

Lemma safe_format_malformed_witness :
  (∅ : gmap string value) !! "s" = None
  /\ no_char_in ["{"; "}"]%char "Episode " = true
  /\ plain_name "episode" = true
  /\ all_digits "0" = true
  /\ all_digits "99999999999999999999" = true
  /\ safe_format "Episode {" ∅
     = Raised (ValueError "Single '{' encountered in format string")
  /\ safe_format "Episode {episode" {[ "episode" := VInt 4 ]}
     = Raised (ValueError "expected '}' before end of string")
  /\ safe_format "Episode {0} of {show_name}" {[ "show_name" := VStr "First" ]}
     = Raised (ValueError "Format string contains positional fields")
  /\ safe_format "Episode {99999999999999999999}" ∅
     = Raised (ValueError "Too many decimal digits in format string").
Proof.
  assert (Hempty : (∅ : gmap string value) !! "s" = None) by reflexivity.
  assert (Hepisode :
    ({[ "episode" := VInt 4 ]} : gmap string value) !! "s" = None)
    by reflexivity.
  assert (Hshow :
    ({[ "show_name" := VStr "First" ]} : gmap string value) !! "s" = None)
    by reflexivity.
  split; [exact Hempty|]. split; [reflexivity|]. split; [reflexivity|].
  split; [reflexivity|]. split; [reflexivity|].
  destruct (safe_format_malformed ∅ "Episode " Hempty eq_refl)
    as (Hopen & _ & _ & Hlarge).
  destruct (safe_format_malformed {[ "episode" := VInt 4 ]} "Episode "
              Hepisode eq_refl) as (_ & _ & Hname & _).
  destruct (safe_format_malformed {[ "show_name" := VStr "First" ]}
              "Episode " Hshow eq_refl) as (_ & _ & _ & Hnumber).
  split; [exact Hopen|]. split; [exact (Hname "episode" eq_refl)|].
  split; [exact (Hnumber "0" " of {show_name}" eq_refl)|].
  exact (Hlarge "99999999999999999999" "" eq_refl).
Defined.


(** ** Properties of every trace

    A property of traces that holds of the empty trace and is kept by
    concatenation holds of a program as soon as it holds of its parts. *)

Section Lifting.
Context {DB World : Type} (C : Collaborators DB World).
Context (P : list Call -> Prop).
Context (P_nil : P []).
Context (P_app : forall tr tr', P tr -> P tr' -> P (tr ++ tr')).

Lemma lift_bind {A B} (p : Prog A) (f : A -> Prog B) (s : State DB World) :
  P (trace C p s) ->
  (forall a s', P (trace C (f a) s')) ->
  P (trace C (p ≫= f) s).
Proof using P_app.
  unfold trace. intros Hp Hf. rewrite run_bind.
  destruct (run C p s) as [[tr s'] [a | e]]; cbn [fst snd] in *;
    [| exact Hp].
  specialize (Hf a s').
  destruct (run C (f a) s') as [[tr' s''] o]. cbn [fst snd] in *.
  now apply P_app.
Qed.

Lemma lift_trigger {X} (ev : Event X) (s : State DB World) :
  (forall r, P [Called ev r]) -> P (trace C (trigger ev) s).
Proof using Type. unfold trace. rewrite run_trigger. intros Hev. apply Hev. Qed.

Lemma lift_ret {A} (a : A) (s : State DB World) : P (trace C (Ret a) s).
Proof using P_nil. exact P_nil. Qed.

Lemma lift_for_each {A} (l : list A) (body : A -> Prog unit) :
  (forall x s, P (trace C (body x) s)) ->
  forall s, P (trace C (for_each l body) s).
Proof using P_nil P_app.
  intros Hbody. induction l as [| x l IH]; intros s; [exact P_nil|].
  cbn [for_each]. apply lift_bind; [apply Hbody | intros _ s'; apply IH].
Qed.

Context (config : Config).
Context (P_driver : forall c, driver_call config c -> P [c]).
Context (P_process : forall show stream episode (s : State DB World),
            P (trace C (_process_new_episode config show stream episode) s)).

Lemma lift_check_stream handler stream (s : State DB World) :
  P (trace C (check_stream config handler stream) s).
Proof using P_nil P_app P_driver P_process.
  unfold check_stream, db.get_show, services.get_latest_episode.
  apply lift_bind;
    [apply lift_trigger; intros r; apply P_driver; constructor|].
  intros [show |] s1; [| exact P_nil].
  destruct (negb (show_enabled show)); [exact P_nil|].
  apply lift_bind;
    [apply lift_trigger; intros r; apply P_driver; constructor|].
  intros [episode |] s2; [| exact P_nil].
  apply lift_bind; [apply P_process | intros; exact P_nil].
Qed.

Lemma lift_check_service service (s : State DB World) :
  P (trace C (check_service config service) s).
Proof using P_nil P_app P_driver P_process.
  unfold check_service, services.get_service_handler,
    db.get_streams_of_service.
  apply lift_bind;
    [apply lift_trigger; intros r; apply P_driver; constructor|].
  intros handler s1.
  apply lift_bind;
    [apply lift_trigger; intros r; apply P_driver; constructor|].
  intros streams s2. apply lift_for_each. intros stream s3.
  apply lift_check_stream.
Qed.

Lemma lift_check_generic show stream enabled_services :
  forall s : State DB World,
    P (trace C (check_generic config show stream enabled_services) s).
Proof using P_nil P_app P_driver P_process.
  induction enabled_services as [| service rest IH]; intros s;
    [exact P_nil|].
  cbn [check_generic].
  unfold services.get_service_handler, services.get_latest_episode.
  apply lift_bind;
    [apply lift_trigger; intros r; apply P_driver; constructor|].
  intros handler s1. destruct (handler_is_generic handler); [| apply IH].
  apply lift_bind;
    [apply lift_trigger; intros r; apply P_driver; constructor|].
  intros [episode |] s2; [| apply IH].
  apply lift_bind; [apply P_process | intros; exact P_nil].
Qed.

(** A property of this kind that holds of the calls of the driver and of
    every run of the processor holds of every run of [main]. *)
Lemma lift_main iteration (s : State DB World) :
  P (trace C (main iteration config) s).
Proof using P_nil P_app P_driver P_process.
  unfold main, reddit.init_reddit, db.get_services.
  apply lift_bind;
    [apply lift_trigger; intros r; apply P_driver; constructor|].
  intros _ s1.
  apply lift_bind;
    [apply lift_trigger; intros r; apply P_driver; constructor|].
  intros enabled s2.
  apply lift_bind;
    [apply lift_for_each; intros service s3; apply lift_check_service|].
  intros _ s3.
  unfold check_generic_services, db.get_shows_missing_stream,
    db.get_shows_delayed.
  apply lift_bind;
    [apply lift_trigger; intros r; apply P_driver; constructor|].
  intros missing s4.
  apply lift_bind;
    [apply lift_trigger; intros r; apply P_driver; constructor|].
  intros delayed s5. apply lift_for_each. intros show s6.
  apply lift_check_generic.
Qed.

End Lifting.


(** ** Stripped strings *)

Lemma rstrip_idempotent (s : string) : rstrip (rstrip s) = rstrip s.
Proof.
  induction s as [| c s IH]; [reflexivity|].
  cbn [rstrip]. destruct (rstrip s) as [| d r] eqn:Hr.
  - destruct (is_space c) eqn:Hc; [reflexivity|].
    cbn [rstrip]. now rewrite Hc.
  - cbn [rstrip]. cbn [rstrip] in IH. now rewrite IH.
Qed.

Lemma rstrip_head (c : ascii) (s : string) :
  is_space c = false -> exists r, rstrip (String c s) = String c r.
Proof.
  intros Hc. cbn [rstrip]. destruct (rstrip s) as [| d r].
  - rewrite Hc. now exists "".
  - now exists (String d r).
Qed.

Lemma lstrip_fixed (s : string) :
  lstrip s = s <-> s = "" \/ exists c r, s = String c r /\ is_space c = false.
Proof.
  split.
  - induction s as [| c s IH]; intros Hs; [now left|].
    right. exists c, s. split; [reflexivity|].
    destruct (is_space c) eqn:Hc; [| reflexivity].
    cbn [lstrip] in Hs. rewrite Hc in Hs.
    assert (Hlen : String.length (lstrip s) <= String.length s).
    { clear. induction s as [| d s IH]; cbn; [lia|].
      destruct (is_space d); cbn; lia. }
    rewrite Hs in Hlen. cbn in Hlen. lia.
  - intros [-> | (c & r & -> & Hc)]; [reflexivity|].
    cbn [lstrip]. now rewrite Hc.
Qed.

Lemma lstrip_idempotent (s : string) : lstrip (lstrip s) = lstrip s.
Proof.
  induction s as [| c s IH]; [reflexivity|].
  cbn [lstrip]. destruct (is_space c) eqn:Hc; [exact IH|].
  cbn [lstrip]. now rewrite Hc.
Qed.

(** Stripping a stripped string changes nothing. *)
Lemma strip_idempotent (s : string) : strip (strip s) = strip s.
Proof.
  unfold strip.
  assert (Hleft : lstrip (rstrip (lstrip s)) = rstrip (lstrip s)).
  { pose proof (lstrip_idempotent s) as Hfix.
    apply lstrip_fixed in Hfix as [Hempty | (c & r & Heq & Hc)].
    - now rewrite Hempty.
    - rewrite Heq. destruct (rstrip_head c r Hc) as [r' Hr]. rewrite Hr.
      cbn [lstrip]. now rewrite Hc. }
  rewrite Hleft. apply rstrip_idempotent.
Qed.


(** ** What composing and publishing a post calls *)

Section ComposerCalls.

Lemma gen_text_streams_reads formats show :
  avoids not_composer (_gen_text_streams formats show).
Proof.
  unfold _gen_text_streams, db.get_streams_of_show, db.get_service,
    services.get_service_handler, services.get_stream_link.
  avoid.
Qed.

Lemma gen_text_links_reads formats show :
  avoids not_composer (_gen_text_links formats show).
Proof.
  unfold _gen_text_links, db.get_links, db.get_link_site,
    services.get_link_handler, services.get_link.
  avoid.
Qed.

Lemma gen_text_discussions_reads formats show :
  avoids not_composer (_gen_text_discussions formats show).
Proof. unfold _gen_text_discussions, db.get_episodes. avoid. Qed.

Lemma format_post_text_reads text formats show episode stream :
  avoids not_composer (_format_post_text text formats show episode stream).
Proof.
  unfold _format_post_text.
  repeat (apply avoids_bind; [| intros]);
    try (apply fill_block_quiet);
    auto using gen_text_streams_reads, gen_text_links_reads,
      gen_text_discussions_reads.
  - unfold _gen_text_spoiler. avoid.
  - avoid.
  - avoid.
Qed.

Lemma create_post_contents_reads config show stream episode :
  avoids not_composer (_create_post_contents config show stream episode).
Proof.
  unfold _create_post_contents.
  apply avoids_bind; [apply format_post_text_reads | intros title].
  apply avoids_bind; [apply format_post_text_reads | intros body].
  constructor.
Qed.

End ComposerCalls.


Section PublishFacts.
Context {DB World : Type} (C : Collaborators DB World).
Context (config : Config) (show : Show) (stream : Stream).

Lemma contents_reads episode (s : State DB World) :
  let composing := _create_post_contents config show stream episode in
  Forall (fun c => call_is (@composer_event) c = true) (trace C composing s)
  /\ writes_of (trace C composing s) = []
  /\ submissions_of (trace C composing s) = []
  /\ agents_of (trace C composing s) = []
  /\ store (final C composing s) = store s.
Proof.
  intros composing.
  pose proof (avoids_trace C _ composing s
                (create_post_contents_reads config show stream episode))
    as Hreads.
  assert (Hall : Forall (fun c => call_is (@composer_event) c = true)
                   (trace C composing s)).
  { eapply Forall_impl; [exact Hreads|]. intros [X ev r] Hc. cbn in *.
    now apply negb_false_iff in Hc. }
  split; [exact Hall|].
  assert (Hquiet : forall sel : forall X, Event X -> bool,
             (forall X (ev : Event X), composer_event ev = true ->
                                       sel X ev = false) ->
             Forall (fun c => call_is sel c = false) (trace C composing s)).
  { intros sel Hsel. eapply Forall_impl; [exact Hall|].
    intros [X ev r] Hc. cbn in *. now apply Hsel. }
  split.
  { apply no_write_no_writes, Hquiet. intros X ev Hev.
    destruct ev; [reflexivity | discriminate | reflexivity]. }
  split.
  { apply no_publish_no_submissions, Hquiet. intros X ev Hev.
    destruct ev as [X q | u | X e]; try reflexivity.
    destruct e; try reflexivity; discriminate. }
  split.
  { clear Hreads Hquiet. induction Hall as [| [X ev r] tr Hc _ IH];
      [reflexivity|].
    destruct ev as [X q | u | X e]; cbn in *; try exact IH.
    destruct e; cbn in *; try exact IH. discriminate. }
  apply avoids_store.
  assert (Hsel : forall X (ev : Event X),
             is_write ev = false -> is_publish ev = false ->
             is_write ev = false) by auto.
  unfold composing, _create_post_contents.
  apply avoids_bind;
    [apply (format_post_text_quiet _ Hsel) | intros title].
  apply avoids_bind;
    [apply (format_post_text_quiet _ Hsel) | intros body].
  constructor.
Qed.

(** X4: composing a post only reads.  Every call made while the title and
    the body are composed is a read of the store or a request to the
    registry or to a handler for a link; nothing is written, nothing is
    submitted, no handler is asked for episodes, and the store is left as
    it was. *)
Theorem composing_only_reads episode (s : State DB World) :
  let composing := _create_post_contents config show stream episode in
  Forall (fun c => call_is (@composer_event) c = true) (trace C composing s)
  /\ writes_of (trace C composing s) = []
  /\ submissions_of (trace C composing s) = []
  /\ agents_of (trace C composing s) = []
  /\ store (final C composing s) = store s.
Proof. exact (contents_reads episode s). Qed.

(** The text that the composer returns is stripped. *)
Lemma format_post_text_stripped text formats episode (s : State DB World) out :
  result C (_format_post_text text formats show episode stream) s = Ok out ->
  strip out = out.
Proof.
  unfold result, _format_post_text. intros Hrun.
  do 5 (apply bind_completes in Hrun as (? & _ & Hrun & _)).
  cbn in Hrun. inversion Hrun. apply strip_idempotent.
Qed.

Lemma create_post_contents_stripped episode (s : State DB World) title body :
  result C (_create_post_contents config show stream episode) s
  = Ok (title, body) ->
  strip title = title /\ strip body = body.
Proof.
  unfold result, _create_post_contents. intros Hrun.
  apply bind_completes in Hrun as (t & Ht & Hrun & _).
  apply bind_completes in Hrun as (b & Hb & Hrun & _).
  cbn in Hrun. inversion Hrun; subst.
  split; eapply format_post_text_stripped; [exact Ht | exact Hb].
Qed.

End PublishFacts.


(** ** The anatomy of a run of the processor *)

Section Anatomy.
Context {DB World : Type} (C : Collaborators DB World).
Context (config : Config) (show : Show) (stream : Stream).

Lemma process_shape episode (s : State DB World) :
  processor_trace config show stream episode
    (trace C (_process_new_episode config show stream episode) s).
Proof.
  unfold processor_trace.
  destruct (ep_is_live episode) eqn:Hlive.
  2:{ unfold trace, _process_new_episode. rewrite Hlive.
      exists [], [], []. repeat split; auto; constructor. }
  unfold trace. rewrite run_process_live by exact Hlive. cbn zeta.
  assert (Hshape : forall r reads effects,
    Forall (fun c => call_is (@composer_event) c = true) reads ->
    processor_effects config show stream episode effects ->
    exists check reads' effects',
      Called (Db (StreamHasEpisode stream (canonical stream episode))) r
        :: reads ++ effects
      = check ++ reads' ++ effects'
      /\ (check = []
          \/ exists r',
               check
               = [Called (Db (StreamHasEpisode stream
                                (canonical stream episode))) r'])
      /\ Forall (fun c => call_is (@composer_event) c = true) reads'
      /\ processor_effects config show stream episode effects').
  { intros r reads effects Hreads Heffects.
    exists [Called (Db (StreamHasEpisode stream (canonical stream episode))) r],
      reads, effects.
    split; [reflexivity|]. split; [eauto|]. split; assumption. }
  destruct (query C (StreamHasEpisode stream (canonical stream episode))
              (store s)) as [[|] | e].
  1, 3: apply (Hshape _ [] []); constructor.
  rewrite run_create_reddit_post.
  pose proof (contents_reads C config show stream
                (adjusted stream episode) s) as (Hreads & _).
  pose proof (create_post_contents_stripped C config show stream
                (adjusted stream episode) s) as Hstripped.
  unfold trace, result in Hreads, Hstripped.
  destruct (run C (_create_post_contents config show stream
                     (adjusted stream episode)) s)
    as [[trc sc] [[title body] | e]]; cbn [fst snd] in *.
  2:{ rewrite <- (app_nil_r trc). apply Hshape; [exact Hreads | constructor]. }
  destruct (Hstripped title body eq_refl) as [Htitle Hbody].
  destruct (negb (debug config)) eqn:Hdebug.
  2:{ rewrite <- (app_nil_r trc). apply Hshape; [exact Hreads | constructor]. }
  apply negb_true_iff in Hdebug. cbn zeta.
  destruct (handle C (Ext (SubmitTextPost (subreddit config) title body)) sc)
    as [[[post |] | e] sp].
  2, 3: cbn [fst snd]; apply Hshape; [exact Hreads|];
        constructor; auto; intros post; discriminate.
  destruct (handle C (Ext (GetShortlinkFromId (post_id post))) sp)
    as [[url | e] sl].
  2:{ cbn [fst snd]. apply Hshape; [exact Hreads | now constructor]. }
  destruct (update C (AddEpisode (stream_show stream)
                        (canonical stream episode) url) (store sl))
    as [[[] | e] d1].
  2:{ cbn [fst snd]. rewrite <- app_assoc. apply Hshape; [exact Hreads|].
      constructor; eauto. }
  destruct (show_delayed show) eqn:Hdelayed.
  - destruct (update C (SetShowDelayed show false) d1) as [rc d2].
    cbn [fst snd]. rewrite <- app_assoc. apply Hshape; [exact Hreads|].
    now constructor.
  - cbn [fst snd]. rewrite <- app_assoc. apply Hshape; [exact Hreads|].
    constructor; auto.
Qed.

(** X5: every run of the processor, on any candidate and against any
    collaborators, makes at most one check of the store for the canonical
    number, then only reads while the post is composed, then at most one
    submission, to the configured destination and with stripped title and
    body and never in debug mode; a record is added only after an accepted
    submission and with the short link of that post, and the only other
    update is the clearing of the delayed flag of a delayed show, after
    the record was added. *)
Theorem processor_anatomy episode (s : State DB World) :
  processor_trace config show stream episode
    (trace C (_process_new_episode config show stream episode) s).
Proof. exact (process_shape episode s). Qed.

End Anatomy.


(** ** What a whole run of the driver does *)

Section Projections.

Lemma agents_of_app (tr tr' : list Call) :
  agents_of (tr ++ tr') = agents_of tr ++ agents_of tr'.
Proof. unfold agents_of. apply flat_map_app. Qed.

Lemma accepted_posts_app (tr tr' : list Call) :
  accepted_posts (tr ++ tr') = accepted_posts tr ++ accepted_posts tr'.
Proof. unfold accepted_posts. apply flat_map_app. Qed.

Lemma added_records_app (tr tr' : list Call) :
  added_records (tr ++ tr') = added_records tr ++ added_records tr'.
Proof.
  unfold added_records, writes_of. rewrite !flat_map_app. reflexivity.
Qed.

(** The reads of the composer show in none of the projections. *)
Lemma reads_project (reads : list Call) :
  Forall (fun c => call_is (@composer_event) c = true) reads ->
  writes_of reads = [] /\ submissions_of reads = []
  /\ agents_of reads = [] /\ accepted_posts reads = []
  /\ added_records reads = [].
Proof.
  induction 1 as [| [X ev r] tr Hc _ (Hw & Hs & Ha & Hp & Hr)];
    [repeat split|].
  unfold added_records in *.
  destruct ev as [X q | u | X e]; cbn in Hc |- *; try discriminate.
  - repeat split; assumption.
  - destruct e; cbn in Hc |- *; try discriminate; repeat split; assumption.
Qed.

Lemma driver_call_projects config (c : Call) :
  driver_call config c ->
  writes_of [c] = [] /\ submissions_of [c] = []
  /\ accepted_posts [c] = [] /\ added_records [c] = []
  /\ Forall (eq (useragent config)) (agents_of [c]).
Proof.
  intros []; repeat split; try constructor; try reflexivity; constructor.
Qed.

End Projections.

Section WholeRun.
Context {DB World : Type} (C : Collaborators DB World).
Context (iteration : SetIteration) (config : Config).

(** A run that makes no update leaves the store as it found it. *)
Lemma no_writes_store {A} (p : Prog A) : forall s : State DB World,
  writes_of (trace C p s) = [] -> store (final C p s) = store s.
Proof.
  unfold trace, final.
  induction p as [a | e | X ev k IH]; intros s Hnone; try reflexivity.
  cbn [run] in *.
  assert (Hs : is_write ev = false -> store (handle C ev s).2 = store s).
  { destruct ev as [X q | u | X e]; cbn; try discriminate; intros _;
      [reflexivity | destruct (external C e (world s)); reflexivity]. }
  destruct (handle C ev s) as [[x | e] s'] eqn:Hhandle; cbn [fst snd] in *.
  - specialize (IH x s').
    destruct (run C (k x) s') as [[tr s''] o]. cbn [fst snd] in *.
    destruct ev as [X q | u | X e]; [| discriminate |];
      rewrite IH by exact Hnone; now apply Hs.
  - destruct ev as [X q | u | X e']; [| discriminate |]; now apply Hs.
Qed.

(** What one run of the processor shows in the projections. *)
Lemma process_projects show stream episode (s : State DB World) :
  let tr := trace C (_process_new_episode config show stream episode) s in
  (debug config = true -> writes_of tr = [] /\ submissions_of tr = [])
  /\ Forall (fun entry =>
               entry.1.1 = subreddit config
               /\ strip entry.1.2 = entry.1.2 /\ strip entry.2 = entry.2)
       (submissions_of tr)
  /\ agents_of tr = []
  /\ length (added_records tr) <= length (accepted_posts tr)
  /\ (forall sh n url, (sh, n, url) ∈ added_records tr ->
        sh = stream_show stream /\ n = canonical stream episode
        /\ exists post,
             post ∈ accepted_posts tr
             /\ Called (Ext (GetShortlinkFromId (post_id post))) (Ok url) ∈ tr)
  /\ (forall sh delayed, SetShowDelayed sh delayed ∈ writes_of tr ->
        sh = show /\ delayed = false /\ show_delayed show = true).
Proof.
  intros tr. subst tr.
  destruct (process_shape C config show stream episode s)
    as (check & reads & effects & -> & Hcheck & Hreads & Heffects).
  destruct (reads_project reads Hreads) as (Hw & Hs & Ha & Hp & Hr).
  assert (Hc : writes_of check = [] /\ submissions_of check = []
               /\ agents_of check = [] /\ accepted_posts check = []
               /\ added_records check = []).
  { destruct Hcheck as [-> | [r ->]]; repeat split. }
  destruct Hc as (Hcw & Hcs & Hca & Hcp & Hcr).
  rewrite !writes_of_app, !submissions_of_app, !agents_of_app,
    !accepted_posts_app, !added_records_app.
  rewrite Hw, Hs, Ha, Hp, Hr, Hcw, Hcs, Hca, Hcp, Hcr. cbn [app].
  assert (Hlink : forall c,
             c ∈ effects -> c ∈ check ++ reads ++ effects).
  { intros c Hin. rewrite !elem_of_app. auto. }
  destruct Heffects
    as [| title body r Hdebug Ht Hb Hr'
        | title body post e Hdebug Ht Hb
        | title body post url ra Hdebug Ht Hb Hstop
        | title body post url rc Hdebug Ht Hb Hdelayed].
  - cbn. split; [auto|]. split; [constructor|].
    split; [reflexivity|]. split; [lia|].
    split; intros * Hin; inversion Hin.
  - assert (Hnone : accepted_posts
              [Called (Ext (SubmitTextPost (subreddit config) title body)) r]
            = []).
    { destruct r as [[post |] | e]; [| reflexivity | reflexivity].
      now destruct (Hr' post). }
    rewrite Hnone. cbn. split; [intros Htrue; congruence|].
    split; [repeat constructor; assumption|].
    split; [reflexivity|]. split; [lia|].
    split; intros * Hin; inversion Hin.
  - cbn. split; [intros Htrue; congruence|].
    split; [repeat constructor; assumption|].
    split; [reflexivity|]. split; [lia|].
    split; intros * Hin; inversion Hin.
  - cbn. split; [intros Htrue; congruence|].
    split; [repeat constructor; assumption|].
    split; [reflexivity|]. split; [lia|].
    split.
    + intros sh n url' Hin.
      apply list_elem_of_singleton in Hin. inversion Hin; subst.
      split; [reflexivity|]. split; [reflexivity|].
      exists post. split; [left|].
      apply Hlink. right. left.
    + intros sh delayed Hin.
      apply list_elem_of_singleton in Hin. discriminate.
  - cbn. split; [intros Htrue; congruence|].
    split; [repeat constructor; assumption|].
    split; [reflexivity|]. split; [lia|].
    split.
    + intros sh n url' Hin.
      apply list_elem_of_singleton in Hin. inversion Hin; subst.
      split; [reflexivity|]. split; [reflexivity|].
      exists post. split; [left|].
      apply Hlink. right. left.
    + intros sh delayed Hin.
      apply elem_of_cons in Hin as [Hin | Hin]; [discriminate|].
      apply list_elem_of_singleton in Hin. inversion Hin; subst. auto.
Qed.

(** X6: a dry run changes nothing.  With [debug] set, a whole run of the
    driver, against any collaborators and whatever the handlers report,
    hands nothing to the publishing client, makes no update, and leaves
    the store as it found it. *)
Theorem dry_run_changes_nothing (s : State DB World) :
  debug config = true ->
  submissions_of (trace C (main iteration config) s) = []
  /\ writes_of (trace C (main iteration config) s) = []
  /\ store (final C (main iteration config) s) = store s.
Proof.
  intros Hdebug.
  assert (Hquiet : writes_of (trace C (main iteration config) s) = []
                   /\ submissions_of (trace C (main iteration config) s) = []).
  { apply (lift_main C
             (fun tr => writes_of tr = [] /\ submissions_of tr = [])).
    - split; reflexivity.
    - intros tr tr' [Hw Hs] [Hw' Hs'].
      rewrite writes_of_app, submissions_of_app, Hw, Hs, Hw', Hs'.
      split; reflexivity.
    - intros c Hc.
      destruct (driver_call_projects config c Hc) as (Hw & Hs & _). auto.
    - intros show stream episode s'.
      now apply (process_projects show stream episode s'). }
  destruct Hquiet as [Hw Hs]. split; [exact Hs|]. split; [exact Hw|].
  apply no_writes_store, Hw.
Qed.

(** X7: what a run hands to the outside.  In every run of the driver each
    request to a handler for its latest episode carries the configured
    identity string, and each submission goes to the configured
    destination with a title and a body that have no white space at
    either end. *)
Theorem run_hands_out_configured_values (s : State DB World) :
  Forall (eq (useragent config)) (agents_of (trace C (main iteration config) s))
  /\ Forall (fun entry =>
               entry.1.1 = subreddit config
               /\ strip entry.1.2 = entry.1.2 /\ strip entry.2 = entry.2)
       (submissions_of (trace C (main iteration config) s)).
Proof.
  apply (lift_main C
           (fun tr =>
              Forall (eq (useragent config)) (agents_of tr)
              /\ Forall (fun entry =>
                           entry.1.1 = subreddit config
                           /\ strip entry.1.2 = entry.1.2
                           /\ strip entry.2 = entry.2)
                   (submissions_of tr))).
  - split; constructor.
  - intros tr tr' [Ha Hs] [Ha' Hs'].
    rewrite agents_of_app, submissions_of_app.
    split; apply Forall_app; auto.
  - intros c Hc.
    destruct (driver_call_projects config c Hc) as (_ & Hs & _ & _ & Ha).
    rewrite Hs. split; [exact Ha | constructor].
  - intros show stream episode s'.
    destruct (process_projects show stream episode s')
      as (_ & Hs & Ha & _).
    rewrite Ha. split; [constructor | exact Hs].
Qed.

(** X8: no record without a post.  In every run of the driver the records
    added to the store are no more than the posts that the publishing
    client accepted, each of them stores the short link that was returned
    for an accepted post, and the delayed flag of a show is never set:
    the only update besides adding a record is clearing it. *)
Theorem run_records_follow_posts (s : State DB World) :
  let tr := trace C (main iteration config) s in
  length (added_records tr) <= length (accepted_posts tr)
  /\ (forall sh n url, (sh, n, url) ∈ added_records tr ->
        exists post,
          post ∈ accepted_posts tr
          /\ Called (Ext (GetShortlinkFromId (post_id post))) (Ok url) ∈ tr)
  /\ (forall show, SetShowDelayed show true ∉ writes_of tr).
Proof.
  apply (lift_main C
           (fun tr =>
              length (added_records tr) <= length (accepted_posts tr)
              /\ (forall sh n url, (sh, n, url) ∈ added_records tr ->
                    exists post,
                      post ∈ accepted_posts tr
                      /\ Called (Ext (GetShortlinkFromId (post_id post)))
                           (Ok url) ∈ tr)
              /\ (forall show, SetShowDelayed show true ∉ writes_of tr))).
  - split; [reflexivity|]. split; intros * Hin; inversion Hin.
  - intros tr tr' (Hn & Hurl & Hset) (Hn' & Hurl' & Hset').
    rewrite added_records_app, accepted_posts_app, writes_of_app.
    split; [rewrite !length_app; lia|]. split.
    + intros sh n url Hin. apply elem_of_app in Hin as [Hin | Hin].
      * destruct (Hurl sh n url Hin) as (post & Hpost & Hlink).
        exists post. rewrite !elem_of_app. auto.
      * destruct (Hurl' sh n url Hin) as (post & Hpost & Hlink).
        exists post. rewrite !elem_of_app. auto.
    + intros show Hin. apply elem_of_app in Hin as [Hin | Hin].
      * exact (Hset show Hin).
      * exact (Hset' show Hin).
  - intros c Hc.
    destruct (driver_call_projects config c Hc) as (Hw & _ & Hp & Hr & _).
    rewrite Hw, Hp, Hr. split; [reflexivity|].
    split; intros * Hin; inversion Hin.
  - intros show stream episode s'.
    destruct (process_projects show stream episode s')
      as (_ & _ & _ & Hn & Hurl & Hset).
    split; [exact Hn|]. split.
    + intros sh n url Hin. now destruct (Hurl sh n url Hin) as (_ & _ & ?).
    + intros sh Hin. destruct (Hset sh true Hin) as (_ & ? & _).
      discriminate.
Qed.

End WholeRun.


(** ** The content blocks *)

Section Blocks.
Context {DB World : Type} (C : Collaborators DB World).

(** A loop that appends, run from a state in which an invariant [J] holds
    that every iteration keeps, builds the list of what the iterations
    yield. *)
Lemma run_for_append_yields {A B} (J : State DB World -> Prop)
    (l : list A) (body : A -> Prog (option B)) (g : A -> option B) :
  (forall x, x ∈ l -> forall s, J s ->
     exists tr s', run C (body x) s = (tr, s', Ok (g x)) /\ J s') ->
  forall s, J s ->
    exists tr s', run C (for_append l body) s = (tr, s', Ok (omap g l))
                  /\ J s'.
Proof.
  induction l as [| x l IH]; intros Hbody s Hs.
  - exists [], s. split; [reflexivity | exact Hs].
  - cbn [for_append]. rewrite run_bind.
    destruct (Hbody x (list_elem_of_here x l) s Hs) as (tr & s1 & Hx & Hs1).
    rewrite Hx. rewrite run_bind.
    destruct (IH (fun y Hy => Hbody y (list_elem_of_further y x l Hy)) s1 Hs1)
      as (tr' & s2 & Hrest & Hs2).
    rewrite Hrest. cbn [run omap list_omap].
    exists (tr ++ tr' ++ []), s2. split; [| exact Hs2].
    destruct (g x); reflexivity.
Qed.

(** X9: the discussions block.  For a show without prior episodes the block
    is the configured fallback, and asking for it when the format table
    has none raises [KeyError]; otherwise it is the header followed by one
    row per prior episode, in the order of the store, each row being the
    row template with the number and the link of the episode; one query
    is all it calls. *)
Theorem discussions_block formats show episodes items header
    (s : State DB World) :
  query C (GetEpisodes show) (store s) = Ok episodes ->
  (episodes = [] ->
   run C (_gen_text_discussions formats show) s
   = ([Called (Db (GetEpisodes show)) (Ok [])], s,
      dict_getitem formats "discussion_none"))
  /\ (episodes <> [] ->
      formats !! "discussion_header" = Some header ->
      formats !! "discussion" = Some (template_of items) ->
      forallb plain_item items = true ->
      run C (_gen_text_discussions formats show) s
      = ([Called (Db (GetEpisodes show)) (Ok episodes)], s,
         Ok (join newline
               (header
                :: map (fun episode =>
                          render_items
                            {[ "episode_num" := VInt (posted_number episode);
                               "episode_link" := VStr (posted_link episode) ]}
                            items) episodes)))).
Proof.
  intros Hepisodes. unfold _gen_text_discussions, db.get_episodes.
  rewrite run_bind, run_trigger. cbn [handle fst snd]. rewrite Hepisodes.
  split.
  - intros ->. cbn [length Nat.ltb Nat.leb]. rewrite run_lift.
    reflexivity.
  - intros Hsome Hheader Htemplate Hplain.
    destruct episodes as [| first others]; [contradiction|].
    cbn [length Nat.ltb Nat.leb]. rewrite run_bind.
    unfold dict_getitem at 1. rewrite Hheader. cbn [lift run].
    rewrite run_bind.
    destruct (run_for_append_yields (fun s' => s' = s) (first :: others)
                (fun episode =>
                   template ← lift (dict_getitem formats "discussion");
                   text ← lift (safe_format template
                            {[ "episode_num" := VInt (posted_number episode);
                               "episode_link" := VStr (posted_link episode) ]});
                   Ret (Some text))
                (fun episode =>
                   Some (render_items
                           {[ "episode_num" := VInt (posted_number episode);
                              "episode_link" := VStr (posted_link episode) ]}
                           items))) with s as (tr & s' & Hloop & ->).
    + intros episode _ s' ->. exists [], s. split; [| reflexivity].
      unfold dict_getitem. rewrite Htemplate. cbn [lift].
      change (run C (Ret (template_of items) ≫= ?f) s)
        with (run C (f (template_of items)) s). cbn beta.
      rewrite safe_format_items by first [exact Hplain | keywords]. reflexivity.
    + reflexivity.
    + rewrite Hloop.
      assert (Htr : tr = []).
      { pose proof (avoids_trace C (fun X (ev : Event X) => true)
                      (for_append (first :: others)
                         (fun episode =>
                            template ← lift (dict_getitem formats "discussion");
                            text ← lift (safe_format template
                                     {[ "episode_num" :=
                                          VInt (posted_number episode);
                                        "episode_link" :=
                                          VStr (posted_link episode) ]});
                            Ret (Some text))) s) as Hnone.
        unfold trace in Hnone. rewrite Hloop in Hnone. cbn [fst] in Hnone.
        destruct tr as [| [X ev r] tr]; [reflexivity|].
        assert (Hall : Forall (fun c => call_is (fun X (ev : Event X) => true) c
                                        = false) (Called ev r :: tr)).
        { apply Hnone. avoid. }
        inversion Hall; discriminate. }
      subst tr. cbn [app fst snd].
      replace (omap _ (first :: others))
        with (map (fun episode =>
                     render_items
                       {[ "episode_num" := VInt (posted_number episode);
                          "episode_link" := VStr (posted_link episode) ]}
                       items) (first :: others)).
      * reflexivity.
      * clear. induction (first :: others) as [| e l IH]; [reflexivity|].
        cbn [map omap list_omap]. now rewrite IH.
Qed.

Lemma run_query {X} (q : Query X) (s : State DB World) (x : X) :
  query C q (store s) = Ok x ->
  run C (trigger (Db q)) s = ([Called (Db q) (Ok x)], s, Ok x).
Proof. intros Hq. rewrite run_trigger. cbn [handle fst snd]. now rewrite Hq. Qed.

Lemma run_external {X} (e : External X) (s : State DB World) (x : X) :
  (external C e (world s)).1 = Ok x ->
  run C (trigger (Ext e)) s
  = ([Called (Ext e) (Ok x)],
     Build_State (store s) (external C e (world s)).2, Ok x).
Proof.
  intros He. rewrite run_trigger. cbn [handle].
  destruct (external C e (world s)) as [r w]. cbn [fst snd] in *.
  now rewrite He.
Qed.

Lemma omap_filter_map {A B} (keep : A -> bool) (f : A -> B) (l : list A) :
  omap (fun x => if keep x then Some (f x) else None) l
  = map f (List.filter keep l).
Proof.
  induction l as [| x l IH]; [reflexivity|].
  cbn [omap list_omap List.filter]. destruct (keep x); cbn [map];
    now rewrite IH.
Qed.

Section Answers.
(** The outside world answers as a function of the request, in every state
    of the world that satisfies [sound], which external calls preserve. *)
Context (sound : World -> Prop).
Context (sound_kept : forall X (e : External X) w,
            sound w -> sound (external C e w).2).

(** X10: the streams block.  When the format table has a plain row
    template and the registry and the handlers answer as functions of the
    request, the block for a show with streams is one rendered row per
    stream that is active and whose service is enabled and flagged for
    posts, in the order of the store, joined by line breaks; it is the
    empty string when the show has streams but none of them qualifies,
    and the placeholder only when the show has no stream at all. *)
Theorem streams_block formats show streams items
    (service_of : Stream -> Service)
    (handler_of : Service -> ServiceHandler)
    (link_of : ServiceHandler -> Stream -> string)
    (s : State DB World) :
  sound (world s) ->
  query C (GetStreamsOfShow show) (store s) = Ok streams ->
  (forall stream, stream ∈ streams -> stream_active stream = true ->
     query C (GetService (stream_service stream)) (store s)
     = Ok (service_of stream)) ->
  (forall service w, sound w ->
     (external C (GetServiceHandler service) w).1 = Ok (handler_of service)) ->
  (forall handler stream w, sound w ->
     (external C (GetStreamLink handler stream) w).1
     = Ok (link_of handler stream)) ->
  formats !! "stream" = Some (template_of items) ->
  forallb plain_item items = true ->
  let qualifies stream :=
    stream_active stream
    && (service_enabled (service_of stream)
        && service_use_in_post (service_of stream)) in
  let row stream :=
    render_items
      {[ "service_name" := VStr (service_name (service_of stream));
         "stream_link" :=
           VStr (link_of (handler_of (service_of stream)) stream) ]}
      items in
  result C (_gen_text_streams formats show) s
  = Ok (match streams with
        | [] => "*None*"
        | _ => join newline (map row (List.filter qualifies streams))
        end)
  /\ store (final C (_gen_text_streams formats show) s) = store s.
Proof using sound_kept.
  intros Hsound Hstreams Hservice Hhandler Hlink Htemplate Hplain
    qualifies row.
  split; [| apply avoids_store;
            apply (gen_text_streams_quiet (@is_write)); auto].
  unfold result, _gen_text_streams, db.get_streams_of_show.
  rewrite run_bind, (run_query _ _ _ Hstreams).
  destruct streams as [| first others]; [reflexivity|].
  cbn [length Nat.ltb Nat.leb]. rewrite run_bind.
  destruct (run_for_append_yields
              (fun s' => store s' = store s /\ sound (world s'))
              (first :: others)
              (fun stream =>
                 if stream_active stream then
                   service ← db.get_service (stream_service stream);
                   if service_enabled service && service_use_in_post service
                   then
                     service_handler ← services.get_service_handler service;
                     template ← lift (dict_getitem formats "stream");
                     stream_link ←
                       services.get_stream_link service_handler stream;
                     text ← lift (safe_format template
                              {[ "service_name" := VStr (service_name service);
                                 "stream_link" := VStr stream_link ]});
                     Ret (Some text)
                   else Ret None
                 else Ret None)
              (fun stream =>
                 if qualifies stream then Some (row stream) else None))
    with s as (tr & s' & Hloop & _).
  - intros stream Hin s1 [Hstore Hs1]. unfold qualifies.
    destruct (stream_active stream) eqn:Hactive; cbn [andb];
      [| exists [], s1; auto].
    unfold db.get_service, services.get_service_handler,
      services.get_stream_link.
    rewrite run_bind, (run_query _ s1 (service_of stream))
      by (rewrite Hstore; auto).
    destruct (service_enabled (service_of stream)
              && service_use_in_post (service_of stream));
      [| eexists _, s1; split; [reflexivity | auto]].
    rewrite run_bind,
      (run_external _ s1 (handler_of (service_of stream)))
      by auto.
    rewrite run_bind. unfold dict_getitem. rewrite Htemplate.
    cbn [lift run]. rewrite run_bind.
    rewrite (run_external _ _ (link_of (handler_of (service_of stream)) stream))
      by (apply Hlink; cbn [world]; auto).
    rewrite run_bind, safe_format_items by first [exact Hplain | keywords].
    cbn [lift run]. eexists _, _. split; [reflexivity|].
    cbn [store world]. split; [exact Hstore|].
    apply sound_kept. cbn [world]. apply sound_kept. exact Hs1.
  - auto.
  - rewrite Hloop. cbn [fst snd run]. rewrite omap_filter_map. reflexivity.
Qed.

(** X11: the links block.  When the format table has a plain row template
    and the registry and the handlers answer as functions of the request,
    the block is one rendered row per link of the show whose site is
    enabled, in the order of the store, joined by line breaks; when no
    link qualifies it is the empty string: this block has no
    placeholder. *)
Theorem links_block formats show links items
    (site_of : Link -> LinkSite)
    (handler_of : LinkSite -> LinkHandler)
    (url_of : LinkHandler -> Link -> string)
    (s : State DB World) :
  sound (world s) ->
  query C (GetLinks show) (store s) = Ok links ->
  (forall link, link ∈ links ->
     query C (GetLinkSite (link_site link)) (store s) = Ok (site_of link)) ->
  (forall site w, sound w ->
     (external C (GetLinkHandler site) w).1 = Ok (handler_of site)) ->
  (forall handler link w, sound w ->
     (external C (GetLink handler link) w).1 = Ok (url_of handler link)) ->
  formats !! "link" = Some (template_of items) ->
  forallb plain_item items = true ->
  let row link :=
    render_items
      {[ "site_name" := VStr (site_name (site_of link));
         "link" := VStr (url_of (handler_of (site_of link)) link) ]}
      items in
  result C (_gen_text_links formats show) s
  = Ok (join newline
          (map row (List.filter (fun link => site_enabled (site_of link))
                      links)))
  /\ store (final C (_gen_text_links formats show) s) = store s.
Proof using sound_kept.
  intros Hsound Hlinks Hsite Hhandler Hurl Htemplate Hplain row.
  split; [| apply avoids_store;
            apply (gen_text_links_quiet (@is_write)); auto].
  unfold result, _gen_text_links, db.get_links.
  rewrite run_bind, (run_query _ _ _ Hlinks). rewrite run_bind.
  destruct (run_for_append_yields
              (fun s' => store s' = store s /\ sound (world s'))
              links
              (fun link =>
                 site ← db.get_link_site (link_site link);
                 if site_enabled site then
                   link_handler ← services.get_link_handler site;
                   template ← lift (dict_getitem formats "link");
                   url ← services.get_link link_handler link;
                   text ← lift (safe_format template
                            {[ "site_name" := VStr (site_name site);
                               "link" := VStr url ]});
                   Ret (Some text)
                 else Ret None)
              (fun link =>
                 if site_enabled (site_of link) then Some (row link)
                 else None))
    with s as (tr & s' & Hloop & _).
  - intros link Hin s1 [Hstore Hs1].
    unfold db.get_link_site, services.get_link_handler, services.get_link.
    rewrite run_bind, (run_query _ s1 (site_of link))
      by (rewrite Hstore; auto).
    destruct (site_enabled (site_of link));
      [| eexists _, s1; split; [reflexivity | auto]].
    rewrite run_bind, (run_external _ s1 (handler_of (site_of link))) by auto.
    rewrite run_bind. unfold dict_getitem. rewrite Htemplate.
    cbn [lift run]. rewrite run_bind.
    rewrite (run_external _ _ (url_of (handler_of (site_of link)) link))
      by (apply Hurl; cbn [world]; auto).
    rewrite run_bind, safe_format_items by first [exact Hplain | keywords].
    cbn [lift run]. eexists _, _. split; [reflexivity|].
    cbn [store world]. split; [exact Hstore|].
    apply sound_kept. cbn [world]. apply sound_kept. exact Hs1.
  - auto.
  - rewrite Hloop. cbn [fst snd run]. rewrite omap_filter_map. reflexivity.
Qed.

End Answers.

End Blocks.


(** ** The composer and the spoiler notice *)

Lemma prefix_cons (a c : ascii) (p t : string) :
  String.prefix (String a p) (String c t)
  = Ascii.eqb a c && String.prefix p t.
Proof.
  cbn [String.prefix]. destruct (ascii_dec a c) as [-> | Hne].
  - now rewrite Ascii.eqb_refl.
  - apply Ascii.eqb_neq in Hne. now rewrite Hne.
Qed.

Lemma contains_cons (pat : string) (c : ascii) (t : string) :
  contains pat (String c t)
  = String.prefix pat (String c t) || contains pat t.
Proof. reflexivity. Qed.

(** A text without an opening brace holds no placeholder. *)
Lemma contains_skip_text (name t rest : string) :
  no_char_in ["{"]%char t = true ->
  contains (String "{" (name +:+ "}")) (t +:+ rest)
  = contains (String "{" (name +:+ "}")) rest.
Proof.
  induction t as [| c t IH]; intros Ht; [reflexivity|].
  cbn [no_char_in existsb] in Ht. apply andb_prop in Ht as [Hc Ht].
  apply negb_true_iff in Hc. rewrite orb_false_r in Hc.
  rewrite (append_cons c t rest), contains_cons.
  rewrite prefix_cons, Ascii.eqb_sym, Hc. cbn [andb orb]. now apply IH.
Qed.

Lemma prefix_closed_name (name n rest : string) :
  no_char_in ["}"]%char name = true ->
  no_char_in ["}"]%char n = true ->
  String.prefix (name +:+ "}") (n +:+ String "}" rest) = String.eqb name n.
Proof.
  revert n. induction name as [| a name IH]; intros n Hname Hn.
  - destruct n as [| c n].
    { rewrite !append_nil_l. change "}" with (String "}" "") at 1.
      rewrite prefix_cons. destruct rest; reflexivity. }
    cbn [no_char_in existsb] in Hn. apply andb_prop in Hn as [Hc _].
    apply negb_true_iff in Hc. rewrite orb_false_r in Hc.
    rewrite append_nil_l, append_cons.
    change "}" with (String "}" "") at 1.
    rewrite prefix_cons, Ascii.eqb_sym, Hc. reflexivity.
  - cbn [no_char_in existsb] in Hname. apply andb_prop in Hname as [Ha Hname].
    apply negb_true_iff in Ha. rewrite orb_false_r in Ha.
    destruct n as [| c n].
    + rewrite append_nil_l, append_cons, prefix_cons, Ha. reflexivity.
    + cbn [no_char_in existsb] in Hn. apply andb_prop in Hn as [_ Hn].
      rewrite !append_cons, prefix_cons, IH by assumption.
      cbn [String.eqb]. destruct (Ascii.eqb a c); reflexivity.
Qed.

Lemma no_char_in_weaken (cs cs' : list ascii) (t : string) :
  (forall c, c ∈ cs' -> c ∈ cs) ->
  no_char_in cs t = true -> no_char_in cs' t = true.
Proof.
  intros Hsub. induction t as [| c t IH]; intros Ht; [reflexivity|].
  cbn [no_char_in] in *. apply andb_prop in Ht as [Hc Ht].
  rewrite IH by exact Ht. rewrite andb_true_r.
  apply negb_true_iff. apply negb_true_iff in Hc.
  destruct (existsb (Ascii.eqb c) cs') eqn:Hex; [| reflexivity].
  apply existsb_exists in Hex as (x & Hin & Hx).
  apply Ascii.eqb_eq in Hx. subst x.
  assert (Hex : existsb (Ascii.eqb c) cs = true).
  { apply existsb_exists. exists c. split; [| apply Ascii.eqb_refl].
    apply list_elem_of_In, Hsub, list_elem_of_In, Hin. }
  congruence.
Qed.

Lemma no_char_in_app (cs : list ascii) (t t' : string) :
  no_char_in cs t = true -> no_char_in cs t' = true ->
  no_char_in cs (t +:+ t') = true.
Proof.
  intros Ht Ht'. induction t as [| c t IH]; [exact Ht'|].
  rewrite append_cons. cbn [no_char_in] in *.
  apply andb_prop in Ht as [Hc Ht]. now rewrite Hc, IH.
Qed.

(** On a plain template, asking whether the text ["{name}"] occurs is
    asking whether there is a placeholder of that name. *)
Lemma contains_items (name : string) (items : list item) :
  no_char_in ["}"]%char name = true ->
  forallb plain_item items = true ->
  contains ("{" +:+ name +:+ "}") (template_of items)
  = existsb (is_hole name) items.
Proof.
  intros Hname.
  change ("{" +:+ name +:+ "}") with (String "{" (name +:+ "}")).
  induction items as [| i items IH]; intros Hitems; [reflexivity|].
  cbn [forallb] in Hitems. apply andb_prop in Hitems as [Hi Hitems].
  cbn [template_of foldr existsb]. fold (template_of items).
  destruct i as [t | n]; cbn [item_source is_hole plain_item] in *.
  - rewrite contains_skip_text; [now rewrite IH|].
    eapply no_char_in_weaken; [| exact Hi].
    intros c Hc. apply list_elem_of_singleton in Hc. subst c. left.
  - apply plain_name_parts in Hi as (_ & Hn & _).
    change (("{" +:+ n +:+ "}") +:+ template_of items)
      with (String "{" ((n +:+ "}") +:+ template_of items)).
    rewrite contains_cons, prefix_cons.
    change (Ascii.eqb "{" "{") with true. cbn [andb].
    rewrite (append_assoc n "}" (template_of items)).
    change ("}" +:+ template_of items) with (String "}" (template_of items)).
    rewrite prefix_closed_name; [| exact Hname |].
    + change (String "}" (template_of items))
        with ("}" +:+ template_of items).
      rewrite <- (append_assoc n "}" (template_of items)).
      rewrite contains_skip_text; [now rewrite IH|].
      apply no_char_in_app; [| reflexivity].
      eapply no_char_in_weaken; [| exact Hn].
      intros c Hc. apply list_elem_of_singleton in Hc. subst c. left.
    + eapply no_char_in_weaken; [| exact Hn].
      intros c Hc. apply list_elem_of_singleton in Hc. subst c.
      right. left.
Qed.


Lemma ret_bind {A B} (a : A) (f : A -> Prog B) : (Ret a ≫= f) = f a.
Proof. reflexivity. Qed.

Lemma fill_block_absent block gen (items : list item) :
  no_char_in ["}"]%char block = true ->
  forallb plain_item items = true ->
  existsb (is_hole block) items = false ->
  fill_block block gen (template_of items) = Ret (template_of items).
Proof.
  intros Hblock Hplain Habsent. unfold fill_block.
  now rewrite contains_items, Habsent by assumption.
Qed.

Lemma fill_identity kwargs (items : list item) :
  (forall name, is_Some (kwargs !! name) ->
                existsb (is_hole name) items = false) ->
  map (fill kwargs) items = items.
Proof.
  induction items as [| i items IH]; intros Hnone; [reflexivity|].
  cbn [map]. rewrite IH.
  - f_equal. destruct i as [t | n]; [reflexivity|]. cbn [fill].
    destruct (kwargs !! n) as [v |] eqn:Hv; [| reflexivity].
    specialize (Hnone n (mk_is_Some _ _ Hv)). cbn [existsb is_hole] in Hnone.
    now rewrite String.eqb_refl in Hnone.
  - intros name Hname. specialize (Hnone name Hname).
    cbn [existsb] in Hnone. now apply orb_false_elim in Hnone as [_ ?].
Qed.

Lemma fill_keeps_absent kwargs name (items : list item) :
  existsb (is_hole name) items = false ->
  existsb (is_hole name) (map (fill kwargs) items) = false.
Proof.
  induction items as [| i items IH]; intros Habsent; [reflexivity|].
  cbn [existsb map] in *. apply orb_false_elim in Habsent as [Hi Hrest].
  rewrite IH by exact Hrest. rewrite orb_false_r.
  destruct i as [t | n]; [reflexivity|]. cbn [fill].
  destruct (kwargs !! n); [reflexivity | exact Hi].
Qed.

Section Spoiler.
Context {DB World : Type} (C : Collaborators DB World).
Context (show : Show) (stream : Stream).

(** X12: the spoiler notice and the three values.  On a plain template
    that asks for no block read from the store, composing makes no call
    and gives the template with [{spoiler}] replaced by the configured
    notice if the show has a source and by nothing otherwise, and with
    the show name, the display number and the episode-name suffix in
    place, stripped; the placeholders of the last pass survive the
    spoiler pass because unknown names are kept. *)
Theorem composer_spoiler_notice formats episode items notice
    (s : State DB World) :
  forallb plain_item items = true ->
  no_stored_block items = true ->
  formats !! "spoiler" = Some notice ->
  no_char_in ["{"; "}"]%char notice = true ->
  let shown := if show_has_source show then notice else "" in
  run C (_format_post_text (template_of items) formats show episode stream) s
  = ([], s,
     Ok (strip (render_items
                  ({[ "spoiler" := VStr shown ]}
                   ∪ post_values show episode stream) items))).
Proof.
  intros Hplain Hblocks Hnotice Hfree shown.
  set (first := ({[ "spoiler" := VStr shown ]} : gmap string value)).
  assert (Hshown : no_char_in ["{"; "}"]%char shown = true).
  { unfold shown. destruct (show_has_source show); [exact Hfree | reflexivity]. }
  assert (Hfirst : brace_free first)
    by (apply brace_free_singleton, Hshown).
  pose proof (fill_plain first items Hfirst Hplain) as Hfilled.
  assert (Habsent : forall block,
             block = "streams" \/ block = "links" \/ block = "discussions" ->
             existsb (is_hole block) items = false).
  { intros block Hblock. unfold no_stored_block in Hblocks.
    clear -Hblocks Hblock. induction items as [| i items IH]; [reflexivity|].
    cbn [forallb existsb] in *. apply andb_prop in Hblocks as [Hi Hrest].
    rewrite IH by exact Hrest. rewrite orb_false_r.
    apply negb_true_iff in Hi.
    apply orb_false_elim in Hi as [Hi Hd].
    apply orb_false_elim in Hi as [Hs Hl].
    destruct Hblock as [-> | [-> | ->]]; assumption. }
  assert (Hspoiler :
    fill_block "spoiler" (_gen_text_spoiler formats show) (template_of items)
    = Ret (template_of (map (fill first) items))).
  { destruct (existsb (is_hole "spoiler") items) eqn:Hhole.
    - unfold fill_block. rewrite contains_items, Hhole by auto.
      assert (Hgen : _gen_text_spoiler formats show = Ret shown).
      { unfold _gen_text_spoiler, shown, dict_getitem.
        destruct (show_has_source show); [now rewrite Hnotice | reflexivity]. }
      rewrite Hgen, ret_bind.
      fold first. rewrite safe_format_items by first [exact Hplain | keywords].
      cbn [lift]. now rewrite render_items_fill.
    - rewrite fill_block_absent by auto.
      rewrite fill_identity; [reflexivity|].
      intros name [v Hv]. unfold first in Hv.
      apply lookup_singleton_Some in Hv as [<- _]. exact Hhole. }
  unfold _format_post_text.
  rewrite Hspoiler, ret_bind.
  rewrite fill_block_absent, ret_bind
    by (auto using fill_keeps_absent).
  rewrite fill_block_absent, ret_bind
    by (auto using fill_keeps_absent).
  rewrite fill_block_absent, ret_bind
    by (auto 6 using fill_keeps_absent).
  cbn zeta. rewrite run_bind, run_lift.
  change (safe_format (template_of (map (fill first) items)) _)
    with (safe_format (template_of (map (fill first) items))
            (post_values show episode stream)).
  rewrite safe_format_items by first [exact Hfilled | keywords].
  now rewrite render_items_union.
Qed.

End Spoiler.

Lemma composer_spoiler_notice_witness :
  let items :=
    [Hole "spoiler"; Hole "show_name"; Text " - Episode "; Hole "episode";
     Hole "episode_name"; Text "  "] in
  let formats : gmap string string := {[ "spoiler" := "Spoilers! " ]} in
  forallb plain_item items = true
  /\ no_stored_block items = true
  /\ run Memory.collaborators
       (_format_post_text (template_of items) formats Sample.show2
          (Sample.episode 5) Sample.stream2) (Sample.start true [])
     = ([], Sample.start true [], Ok "Spoilers! Second - Episode 5: Pilot")
  /\ run Memory.collaborators
       (_format_post_text (template_of items) formats Sample.show3
          (Sample.unaired 5) (Stream_from_show Sample.show3))
       (Sample.start true [])
     = ([], Sample.start true [], Ok "Third - Episode 5").
Proof.
  intros items formats.
  split; [reflexivity|]. split; [reflexivity|]. split.
  - exact (composer_spoiler_notice Memory.collaborators Sample.show2
             Sample.stream2 formats (Sample.episode 5) items "Spoilers! "
             (Sample.start true []) eq_refl eq_refl eq_refl eq_refl).
  - exact (composer_spoiler_notice Memory.collaborators Sample.show3
             (Stream_from_show Sample.show3) formats (Sample.unaired 5) items
             "Spoilers! " (Sample.start true []) eq_refl eq_refl eq_refl
             eq_refl).
Defined.


(** ** Exceptions and skipped work *)

Section Failures.
Context {DB World : Type} (C : Collaborators DB World).
Context (config : Config).

(** X13: an exception while composing or publishing commits nothing.  On a
    live candidate that has not been seen, when the publish step raises
    (a format key that is missing, a malformed template, a collaborator
    that fails), the processor raises the same exception, makes no update
    and leaves the store as it found it. *)
Theorem raising_publish_commits_nothing show stream episode
    (s : State DB World) e :
  ep_is_live episode = true ->
  query C (StreamHasEpisode stream (canonical stream episode)) (store s)
  = Ok false ->
  result C (publish config show stream episode) s = Raised e ->
  let processing := _process_new_episode config show stream episode in
  result C processing s = Raised e
  /\ writes_of (trace C processing s) = []
  /\ store (final C processing s) = store s.
Proof.
  intros Hlive Hnew Hfail processing. subst processing.
  unfold trace at 1, final, result at 1.
  rewrite run_process_live by exact Hlive. cbn zeta. rewrite Hnew.
  pose proof (publish_writes C config show stream episode s) as Hnone.
  pose proof (publish_store C config show stream episode s) as Hstore.
  unfold publish, trace, final, result in *.
  destruct (run C (_create_reddit_post config show stream
                     (adjusted stream episode) (negb (debug config))) s)
    as [[tr s'] o]; cbn [fst snd] in *. subst o. cbn [fst snd].
  rewrite writes_of_query. auto.
Qed.

(** X14: a service without an enabled show is not polled.  When every
    stream of a service belongs to a show that is missing or disabled,
    the pass over that service asks the store for each of those shows
    and does nothing else: no handler is asked for an episode, nothing is
    submitted or written, and the pass completes. *)
Theorem idle_service_is_not_polled service handler streams
    (s : State DB World) :
  (external C (GetServiceHandler service) (world s)).1 = Ok handler ->
  query C (GetStreamsOfService service) (store s) = Ok streams ->
  (forall stream, stream ∈ streams ->
     query C (GetShow stream) (store s) = Ok None
     \/ exists show,
          query C (GetShow stream) (store s) = Ok (Some show)
          /\ show_enabled show = false) ->
  let checking := check_service config service in
  result C checking s = Ok tt
  /\ checked_streams (trace C checking s) = []
  /\ submissions_of (trace C checking s) = []
  /\ writes_of (trace C checking s) = []
  /\ length (trace C checking s) = 2 + length streams.
Proof.
  intros Hhandler Hstreams Hshows checking. subst checking.
  unfold trace, result, check_service, services.get_service_handler,
    db.get_streams_of_service.
  rewrite run_bind, (run_external C _ s handler Hhandler).
  set (s1 := Build_State (store s)
               (external C (GetServiceHandler service) (world s)).2).
  rewrite run_bind, (run_query C _ s1 streams Hstreams).
  assert (Hloop : exists tr,
    run C (for_each streams (check_stream config handler)) s1
    = (tr, s1, Ok tt)
    /\ checked_streams tr = [] /\ submissions_of tr = []
    /\ writes_of tr = [] /\ length tr = length streams).
  { clear Hstreams. induction streams as [| stream rest IH].
    - exists []. repeat split.
    - destruct IH as (tr & Hrest & Hc & Hs & Hw & Hn).
      { intros st Hst. apply Hshows. now right. }
      cbn [for_each]. rewrite run_bind.
      unfold check_stream at 1. unfold db.get_show.
      rewrite run_bind.
      destruct (Hshows stream (list_elem_of_here _ _))
        as [Hnone | (show & Hsome & Hoff)].
      + rewrite (run_query C _ s1 None Hnone). cbn [run].
        rewrite Hrest. eexists. split; [reflexivity|].
        cbn [app]. repeat split; cbn; auto.
      + rewrite (run_query C _ s1 (Some show) Hsome). rewrite Hoff.
        cbn [negb run]. rewrite Hrest. eexists. split; [reflexivity|].
        cbn [app]. repeat split; cbn; auto. }
  destruct Hloop as (tr & Hrun & Hc & Hs & Hw & Hn).
  rewrite Hrun. cbn [fst snd app].
  repeat split; cbn; auto.
Qed.

End Failures.

Lemma raising_publish_commits_nothing_witness :
  let config :=
    {| useragent := "holo"; debug := false; subreddit := "anime";
       post_title := "{spoiler}{show_name}"; post_body := "";
       post_formats := ∅ |} in
  let s := Sample.start true [] in
  let processing :=
    _process_new_episode config Sample.show2 Sample.stream2
      (Sample.episode 5) in
  ep_is_live (Sample.episode 5) = true
  /\ result Memory.collaborators
       (publish config Sample.show2 Sample.stream2 (Sample.episode 5)) s
     = Raised (KeyError "spoiler")
  /\ result Memory.collaborators processing s = Raised (KeyError "spoiler")
  /\ writes_of (trace Memory.collaborators processing s) = []
  /\ store (final Memory.collaborators processing s) = store s.
Proof.
  intros config s processing.
  split; [reflexivity|]. split; [vm_compute; reflexivity|].
  apply (raising_publish_commits_nothing Memory.collaborators config
           Sample.show2 Sample.stream2 (Sample.episode 5) s
           (KeyError "spoiler"));
    [reflexivity | reflexivity | vm_compute; reflexivity].
Defined.

Lemma idle_service_is_not_polled_witness :
  let off :=
    {| show_id := 10; show_name := "First"; show_key := "first";
       show_enabled := false; show_delayed := false;
       show_has_source := false |} in
  let orphan :=
    {| stream_show := 99; stream_service := 1; stream_show_key := "Z";
       stream_remote_offset := 0; stream_display_offset := 0;
       stream_active := true |} in
  let d :=
    {| Memory.services := [Sample.crunchy];
       Memory.streams := [Sample.stream1; orphan];
       Memory.shows := [off]; Memory.links := []; Memory.sites := [];
       Memory.episodes := [] |} in
  let s := Build_State d
             (Sample.web true [("L", Ok (Some (Sample.episode 15)))]) in
  let checking := check_service Sample.config Sample.crunchy in
  query Memory.collaborators (GetStreamsOfService Sample.crunchy) (store s)
  = Ok [Sample.stream1; orphan]
  /\ result Memory.collaborators checking s = Ok tt
  /\ checked_streams (trace Memory.collaborators checking s) = []
  /\ length (trace Memory.collaborators checking s) = 4.
Proof.
  intros off orphan d s checking.
  destruct (idle_service_is_not_polled Memory.collaborators Sample.config
              Sample.crunchy
              {| handler_name := "S"; handler_is_generic := false |}
              [Sample.stream1; orphan] s eq_refl eq_refl)
    as (Hdone & Hchecked & _ & _ & Hlength).
  { intros stream Hin.
    apply elem_of_cons in Hin as [-> | Hin];
      [right; exists off; split; reflexivity|].
    apply list_elem_of_singleton in Hin. subst stream. left. reflexivity. }
  split; [reflexivity|]. split; [exact Hdone|].
  split; [exact Hchecked | exact Hlength].
Defined.


(** ** The further properties on sample data *)

Lemma dry_run_changes_nothing_witness :
  let config :=
    {| useragent := "holo"; debug := true; subreddit := "anime";
       post_title := "{show_name} - Episode {episode}";
       post_body := "{streams}";
       post_formats := {[ "stream" := "{service_name}: {stream_link}" ]} |} in
  let s := Sample.start true
             [("L", Ok (Some (Sample.episode 15)));
              ("third", Ok (Some (Sample.episode 5)))] in
  debug config = true
  /\ checked_streams (trace Memory.collaborators (main Sample.iteration config) s)
     = [Sample.stream1; Sample.stream2; Stream_from_show Sample.show3]
  /\ submissions_of (trace Memory.collaborators (main Sample.iteration config) s) = []
  /\ writes_of (trace Memory.collaborators (main Sample.iteration config) s) = []
  /\ store (final Memory.collaborators (main Sample.iteration config) s) = store s.
Proof.
  intros config s. split; [reflexivity|].
  split; [vm_compute; reflexivity|].
  exact (dry_run_changes_nothing Memory.collaborators Sample.iteration config s
           eq_refl).
Defined.

Lemma discussions_block_witness :
  let formats : gmap string string :=
    {[ "discussion_header" := "Episode|Link";
       "discussion" := "{episode_num}|{episode_link}";
       "discussion_none" := "*No discussions yet!*" ]} in
  let items := [Hole "episode_num"; Text "|"; Hole "episode_link"] in
  let prior :=
    [{| posted_number := 1; posted_link := "redd.it/a" |};
     {| posted_number := 2; posted_link := "redd.it/b" |}] in
  let d :=
    {| Memory.services := []; Memory.streams := []; Memory.shows := [];
       Memory.links := []; Memory.sites := [];
       Memory.episodes := map (pair 10%Z) prior |} in
  let s := Build_State d (Sample.web true []) in
  query Memory.collaborators (GetEpisodes Sample.show1) (store s) = Ok prior
  /\ forallb plain_item items = true
  /\ result Memory.collaborators (_gen_text_discussions formats Sample.show1) s
     = Ok ("Episode|Link" +:+ newline +:+ "1|redd.it/a" +:+ newline
           +:+ "2|redd.it/b")
  /\ result Memory.collaborators (_gen_text_discussions formats Sample.show2) s
     = Ok "*No discussions yet!*"
  /\ result Memory.collaborators (_gen_text_discussions ∅ Sample.show2) s
     = Raised (KeyError "discussion_none").
Proof.
  intros formats items prior d s.
  split; [reflexivity|]. split; [reflexivity|].
  destruct (discussions_block Memory.collaborators formats Sample.show1 prior
              items "Episode|Link" s eq_refl) as [_ Hrows].
  destruct (discussions_block Memory.collaborators formats Sample.show2 []
              items "Episode|Link" s eq_refl) as [Hnone _].
  destruct (discussions_block Memory.collaborators ∅ Sample.show2 []
              items "" s eq_refl) as [Hmissing _].
  unfold result.
  rewrite (Hrows ltac:(discriminate) eq_refl eq_refl eq_refl).
  rewrite (Hnone eq_refl), (Hmissing eq_refl).
  repeat split.
Defined.

Lemma memory_sound_kept (ids : list Z) :
  forall X (e : External X) (w : Memory.World),
    Memory.generic w = ids ->
    Memory.generic (external Memory.collaborators e w).2 = ids.
Proof.
  intros X e w Hw. destruct e; cbn; try exact Hw.
  destruct (Memory.accepts w); exact Hw.
Qed.

Lemma streams_block_witness :
  let formats : gmap string string :=
    {[ "stream" := "{service_name}: {stream_link}" ]} in
  let items := [Hole "service_name"; Text ": "; Hole "stream_link"] in
  let second :=
    {| stream_show := 10; stream_service := 2; stream_show_key := "K";
       stream_remote_offset := 0; stream_display_offset := 0;
       stream_active := true |} in
  let third :=
    {| stream_show := 10; stream_service := 3; stream_show_key := "J";
       stream_remote_offset := 0; stream_display_offset := 0;
       stream_active := true |} in
  let funi :=
    {| service_id := 3; service_name := "F";
       service_enabled := true; service_use_in_post := true |} in
  let d :=
    {| Memory.services := [Sample.crunchy; Sample.nyaa; funi];
       Memory.streams := [Sample.stream1; second; third];
       Memory.shows := [Sample.show1]; Memory.links := [];
       Memory.sites := []; Memory.episodes := [] |} in
  let s := Build_State d (Sample.web true []) in
  query Memory.collaborators (GetStreamsOfShow Sample.show1) (store s)
  = Ok [Sample.stream1; second; third]
  /\ forallb plain_item items = true
  /\ result Memory.collaborators (_gen_text_streams formats Sample.show1) s
     = Ok ("S: L" +:+ newline +:+ "F: J").
Proof.
  intros formats items second third funi d s.
  split; [reflexivity|]. split; [reflexivity|].
  assert (Hservices : forall stream,
             stream ∈ [Sample.stream1; second; third] ->
             stream_active stream = true ->
             query Memory.collaborators (GetService (stream_service stream))
               (store s)
             = Ok (if Z.eqb (stream_service stream) 1 then Sample.crunchy
                   else if Z.eqb (stream_service stream) 2 then Sample.nyaa
                   else funi)).
  { intros stream Hin _.
    apply elem_of_cons in Hin as [-> | Hin]; [reflexivity|].
    apply elem_of_cons in Hin as [-> | Hin]; [reflexivity|].
    apply list_elem_of_singleton in Hin. subst stream. reflexivity. }
  assert (Hhandlers : forall service w,
             Memory.generic w = [2%Z] ->
             (external Memory.collaborators (GetServiceHandler service) w).1
             = Ok {| handler_name := service_name service;
                     handler_is_generic :=
                       existsb (Z.eqb (service_id service)) [2%Z] |}).
  { intros service w Hw. cbn. now rewrite Hw. }
  exact (proj1 (streams_block Memory.collaborators
                  (fun w => Memory.generic w = [2%Z])
                  (memory_sound_kept [2%Z])
                  formats Sample.show1 [Sample.stream1; second; third] items
                  _ _ (fun _ stream => stream_show_key stream) s
                  eq_refl eq_refl Hservices Hhandlers
                  (fun _ _ _ _ => eq_refl) eq_refl eq_refl)).
Defined.

Lemma links_block_witness :
  let formats : gmap string string := {[ "link" := "[{site_name}]({link})" ]} in
  let items :=
    [Text "["; Hole "site_name"; Text "]("; Hole "link"; Text ")"] in
  let mal := {| site_id := 1; site_name := "MAL"; site_enabled := true |} in
  let off := {| site_id := 2; site_name := "Off"; site_enabled := false |} in
  let first := {| link_site := 1; link_key := "mal/1" |} in
  let second := {| link_site := 2; link_key := "off/1" |} in
  let d :=
    {| Memory.services := []; Memory.streams := []; Memory.shows := [];
       Memory.links := [(10%Z, first); (10%Z, second)];
       Memory.sites := [mal; off]; Memory.episodes := [] |} in
  let s := Build_State d (Sample.web true []) in
  query Memory.collaborators (GetLinks Sample.show1) (store s)
  = Ok [first; second]
  /\ forallb plain_item items = true
  /\ result Memory.collaborators (_gen_text_links formats Sample.show1) s
     = Ok "[MAL](mal/1)"
  /\ result Memory.collaborators (_gen_text_links formats Sample.show2) s
     = Ok "".
Proof.
  intros formats items mal off first second d s.
  split; [reflexivity|]. split; [reflexivity|].
  assert (Hsites : forall link,
             link ∈ [first; second] ->
             query Memory.collaborators (GetLinkSite (link_site link)) (store s)
             = Ok (if Z.eqb (link_site link) 1 then mal else off)).
  { intros link Hin.
    apply elem_of_cons in Hin as [-> | Hin]; [reflexivity|].
    apply list_elem_of_singleton in Hin. subst link. reflexivity. }
  assert (Hnone : forall link : Link,
             link ∈ [] ->
             query Memory.collaborators (GetLinkSite (link_site link)) (store s)
             = Ok mal).
  { intros link Hin. inversion Hin. }
  split.
  - exact (proj1 (links_block Memory.collaborators
                    (fun w => Memory.generic w = [2%Z])
                    (memory_sound_kept [2%Z])
                    formats Sample.show1 [first; second] items
                    _ (fun site => {| link_handler_name := site_name site |})
                    (fun _ link => link_key link) s
                    eq_refl eq_refl Hsites (fun _ _ _ => eq_refl)
                    (fun _ _ _ _ => eq_refl) eq_refl eq_refl)).
  - exact (proj1 (links_block Memory.collaborators
                    (fun w => Memory.generic w = [2%Z])
                    (memory_sound_kept [2%Z])
                    formats Sample.show2 [] items
                    (fun _ => mal)
                    (fun site => {| link_handler_name := site_name site |})
                    (fun _ link => link_key link) s
                    eq_refl eq_refl Hnone (fun _ _ _ => eq_refl)
                    (fun _ _ _ _ => eq_refl) eq_refl eq_refl)).
Defined.


(** ** At most one post for a show in the fallback pass *)

Section OnePost.
Context {DB World : Type} (C : Collaborators DB World).
Context (config : Config).

Lemma process_posts_once show stream episode (s : State DB World) :
  let tr := trace C (_process_new_episode config show stream episode) s in
  length (submissions_of tr) <= 1 /\ length (added_records tr) <= 1.
Proof.
  intros tr. subst tr.
  destruct (process_shape C config show stream episode s)
    as (check & reads & effects & -> & Hcheck & Hreads & Heffects).
  destruct (reads_project reads Hreads) as (_ & Hs & _ & _ & Hr).
  assert (Hc : submissions_of check = [] /\ added_records check = []).
  { destruct Hcheck as [-> | [r ->]]; split; reflexivity. }
  destruct Hc as [Hcs Hcr].
  rewrite !submissions_of_app, !added_records_app, Hs, Hr, Hcs, Hcr.
  cbn [app]. destruct Heffects; cbn; lia.
Qed.

Lemma first_match_posts_once show stream enabled_services
    (s : State DB World) out :
  first_match C config show stream enabled_services s out ->
  length (submissions_of out.1.1) <= 1 /\ length (added_records out.1.1) <= 1.
Proof.
  induction 1
    as [s | service rest s e s1 Hhandler
        | service rest s handler s1 tr s' o Hhandler Hgeneric _ IH
        | service rest s handler s1 s2 tr s' o Hhandler Hgeneric Hlatest _ IH
        | service rest s handler s1 e s2 Hhandler Hgeneric Hlatest
        | service rest s handler s1 episode s2 tr s' done Hhandler Hgeneric
            Hlatest Hprocess];
    cbn [fst snd] in *; try (cbn; lia); try exact IH.
  pose proof (process_posts_once show stream episode s2) as Honce.
  unfold trace in Honce. rewrite Hprocess in Honce. exact Honce.
Qed.

(** X15: first match wins.  For one show, the fallback pass hands at most
    one post to the publishing client and adds at most one record,
    however many generic handlers are enabled and whatever they
    report. *)
Theorem fallback_posts_at_most_once show enabled_services
    (s : State DB World) :
  let tr := trace C (check_generic config show (Stream_from_show show)
                       enabled_services) s in
  length (submissions_of tr) <= 1 /\ length (added_records tr) <= 1.
Proof.
  intros tr. subst tr.
  exact (first_match_posts_once show (Stream_from_show show) enabled_services
           s _ (check_generic_first_match C config show
                  (Stream_from_show show) enabled_services s)).
Qed.

End OnePost.
